(** * musl 1.2.5 POSIX AIO core ([src/aio/aio.c], [include/aio.h])

    A shallow embedding of the thread-based AIO implementation and the
    properties its specification states about it.

    Layout of the development:
    - constants of [aio.h] and the platform constants the code takes from
      other headers;
    - the data model: [aiocb], [aio_thread], [aio_queue], the four-level
      descriptor map and the process state;
    - a state-and-failure monad in which every C function of [aio.c] is
      written statement by statement; effects on other threads and on the
      kernel are recorded in an event trace;
    - the interleaving semantics of the workers of one queue, built from the
      same statements;
    - the theorems. *)

From stdpp Require Import gmap list.
From Stdlib Require Import ZArith Lia.

Open Scope Z_scope.

(** ** Constants *)

(** [include/aio.h], lines 83-89. *)
Definition AIO_CANCELED : Z := 0.
Definition AIO_NOTCANCELED : Z := 1.
Definition AIO_ALLDONE : Z := 2.

Definition LIO_READ : Z := 0.
Definition LIO_WRITE : Z := 1.
Definition LIO_NOP : Z := 2.

(** Constants that [aio.c] takes from headers outside the two source files
    ([errno.h], [fcntl.h], [signal.h]).  Their values differ between
    architectures, so the development is parametric in them. *)
Class Platform : Type := {
  EBADF : Z;
  EAGAIN : Z;
  EINVAL : Z;
  ENOENT : Z;
  ENOMEM : Z;
  ECANCELED : Z;
  EINPROGRESS : Z;
  O_SYNC : Z;
  O_DSYNC : Z;
  O_APPEND : Z;
  SIGEV_SIGNAL : Z;
  SIGEV_THREAD : Z;
  SI_ASYNCIO : Z;
  MINSIGSTKSZ : Z
}.

(** The values of the generic Linux ABI, used to run the model on concrete
    inputs. *)
Definition linux : Platform := {|
  EBADF := 9; EAGAIN := 11; EINVAL := 22; ENOENT := 2; ENOMEM := 12;
  ECANCELED := 125; EINPROGRESS := 115;
  O_SYNC := 1052672; O_DSYNC := 4096; O_APPEND := 1024;
  SIGEV_SIGNAL := 0; SIGEV_THREAD := 2; SI_ASYNCIO := -4;
  MINSIGSTKSZ := 2048
|}.

(** ** Data model *)

(** Addresses of heap and stack objects; a C pointer that may be null is an
    [option addr]. *)
Abbreviation addr := positive.

(** [struct sigevent], the members [cleanup] and [submit] read. *)
Record sigevent : Type := mk_sigevent {
  sigev_notify : Z;
  sigev_signo : Z;
  sigev_value : Z;
  sigev_notify_function : Z;
  sigev_notify_attributes : option Z
}.

(** [struct aiocb] ([aio.h], lines 69-81) without the list pointers and
    padding that [aio.c] never touches. *)
Record aiocb : Type := mk_aiocb {
  aio_fildes : Z;
  aio_lio_opcode : Z;
  aio_reqprio : Z;
  aio_buf : Z;
  aio_nbytes : Z;
  aio_sigevent : sigevent;
  __err : Z;
  __ret : Z;
  aio_offset : Z
}.

Definition set___err (v : Z) (r : aiocb) : aiocb :=
  {| aio_fildes := aio_fildes r; aio_lio_opcode := aio_lio_opcode r;
     aio_reqprio := aio_reqprio r; aio_buf := aio_buf r;
     aio_nbytes := aio_nbytes r; aio_sigevent := aio_sigevent r;
     __err := v; __ret := __ret r; aio_offset := aio_offset r |}.

Definition set___ret (v : Z) (r : aiocb) : aiocb :=
  {| aio_fildes := aio_fildes r; aio_lio_opcode := aio_lio_opcode r;
     aio_reqprio := aio_reqprio r; aio_buf := aio_buf r;
     aio_nbytes := aio_nbytes r; aio_sigevent := aio_sigevent r;
     __err := __err r; __ret := v; aio_offset := aio_offset r |}.

(** [struct aio_thread] ([aio.c], lines 70-78).  The record lives on the
    worker's stack; [at_next] and [at_prev] are the list pointers. *)
Record aio_thread : Type := mk_aio_thread {
  at_td : Z;
  at_cb : addr;
  at_next : option addr;
  at_prev : option addr;
  at_q : addr;
  at_running : Z;
  at_err : Z;
  at_op : Z;
  at_ret : Z
}.

Definition set_at_next (v : option addr) (w : aio_thread) : aio_thread :=
  {| at_td := at_td w; at_cb := at_cb w; at_next := v; at_prev := at_prev w;
     at_q := at_q w; at_running := at_running w; at_err := at_err w;
     at_op := at_op w; at_ret := at_ret w |}.

Definition set_at_prev (v : option addr) (w : aio_thread) : aio_thread :=
  {| at_td := at_td w; at_cb := at_cb w; at_next := at_next w; at_prev := v;
     at_q := at_q w; at_running := at_running w; at_err := at_err w;
     at_op := at_op w; at_ret := at_ret w |}.

Definition set_at_running (v : Z) (w : aio_thread) : aio_thread :=
  {| at_td := at_td w; at_cb := at_cb w; at_next := at_next w;
     at_prev := at_prev w; at_q := at_q w; at_running := v;
     at_err := at_err w; at_op := at_op w; at_ret := at_ret w |}.

Definition set_at_result (r e : Z) (w : aio_thread) : aio_thread :=
  {| at_td := at_td w; at_cb := at_cb w; at_next := at_next w;
     at_prev := at_prev w; at_q := at_q w; at_running := at_running w;
     at_err := e; at_op := at_op w; at_ret := r |}.

(** [struct aio_queue] ([aio.c], lines 91-96).  [q_lock] is the state of the
    mutex; the condition variable has no state of its own. *)
Record aio_queue : Type := mk_aio_queue {
  q_fd : Z;
  q_seekable : Z;
  q_append : Z;
  q_ref : Z;
  q_init : Z;
  q_lock : bool;
  q_head : option addr
}.

Definition set_q_ref (v : Z) (q : aio_queue) : aio_queue :=
  {| q_fd := q_fd q; q_seekable := q_seekable q; q_append := q_append q;
     q_ref := v; q_init := q_init q; q_lock := q_lock q; q_head := q_head q |}.

Definition set_q_lock (v : bool) (q : aio_queue) : aio_queue :=
  {| q_fd := q_fd q; q_seekable := q_seekable q; q_append := q_append q;
     q_ref := q_ref q; q_init := q_init q; q_lock := v; q_head := q_head q |}.

Definition set_q_head (v : option addr) (q : aio_queue) : aio_queue :=
  {| q_fd := q_fd q; q_seekable := q_seekable q; q_append := q_append q;
     q_ref := q_ref q; q_init := q_init q; q_lock := q_lock q; q_head := v |}.

Definition set_q_class (seekable append : Z) (q : aio_queue) : aio_queue :=
  {| q_fd := q_fd q; q_seekable := seekable; q_append := append;
     q_ref := q_ref q; q_init := 1; q_lock := q_lock q; q_head := q_head q |}.

(** What the kernel knows about an open descriptor: whether [lseek]
    succeeds on it and the status flags [fcntl(fd, F_GETFL)] reports. *)
Record fdesc : Type := mk_fdesc {
  fd_seekable : bool;
  fd_flags : Z
}.

(** State of [maplock]. *)
Inductive rwlock : Type := RwFree | RwRead | RwWrite.

(** Thread attributes built by [submit]. *)
Record attr : Type := mk_attr {
  attr_base : option Z;
  attr_stacksize : option Z;
  attr_guardsize : option Z;
  attr_detached : bool
}.

(** The words on which [__wait] and [__wake] operate. *)
Inductive futex_word : Type :=
| W_running (a : addr)
| W_err (cb : addr)
| W_fut.

Inductive io_call : Type :=
| Sys_write | Sys_pwrite | Sys_read | Sys_pread | Sys_fsync | Sys_fdatasync.

(** Effects that leave the calling thread, in program order. *)
Inductive event : Type :=
| EvSigBlock
| EvSigRestore
| EvBarrier
| EvRdLock
| EvWrLock
| EvRwUnlock
| EvMutexLock (q : addr)
| EvMutexUnlock (q : addr)
| EvCondWait (q : addr)
| EvCondBroadcast (q : addr)
| EvSemPost
| EvSemWait
| EvStoreRet (cb : addr) (v : Z)
| EvStoreErr (cb : addr) (v : Z)
| EvSwapRunning (a : addr) (old new : Z)
| EvSwapErr (cb : addr) (old new : Z)
| EvSwapFut (old new : Z)
| EvCasRunning (a : addr) (old : Z)
| EvWake (w : futex_word)
| EvWait (w : futex_word)
| EvLink (a q : addr)
| EvUnlink (a q : addr)
| EvFree (q : addr)
| EvSpawn (cb : addr) (op : Z) (q : addr) (a : attr)
| EvCancel (td : Z)
| EvSyscall (c : io_call) (fd : Z)
| EvSigqueue (signo value code : Z)
| EvCallback (fn value : Z).

(** The process state: the statics of [aio.c] (lines 120-126), the objects
    they point to, and what the model needs of the kernel and the
    allocator.

    - [errno] is the calling thread's [errno];
    - [aio_map] is the static [map]: a null pointer is [None], a table is
      a finite map from index to entry, and a null entry is an absent key;
    - [mem] is the number of allocations that will still succeed;
    - [fdtab] is the kernel's descriptor table;
    - [trace] collects the events of the thread being run. *)
Record state : Type := mk_state {
  errno : Z;
  maplock : rwlock;
  aio_map : option (gmap Z (gmap Z (gmap Z (gmap Z addr))));
  aio_fd_cnt : Z;
  __aio_fut : Z;
  io_thread_stack_size : Z;
  queues : gmap addr aio_queue;
  threads : gmap addr aio_thread;
  cbs : gmap addr aiocb;
  mem : nat;
  fdtab : gmap Z fdesc;
  auxv_minsigstksz : Z;
  trace : list event
}.

Definition set_errno (v : Z) (s : state) : state :=
  {| errno := v; maplock := maplock s; aio_map := aio_map s;
     aio_fd_cnt := aio_fd_cnt s; __aio_fut := __aio_fut s;
     io_thread_stack_size := io_thread_stack_size s; queues := queues s;
     threads := threads s; cbs := cbs s; mem := mem s; fdtab := fdtab s;
     auxv_minsigstksz := auxv_minsigstksz s; trace := trace s |}.

Definition set_maplock (v : rwlock) (s : state) : state :=
  {| errno := errno s; maplock := v; aio_map := aio_map s;
     aio_fd_cnt := aio_fd_cnt s; __aio_fut := __aio_fut s;
     io_thread_stack_size := io_thread_stack_size s; queues := queues s;
     threads := threads s; cbs := cbs s; mem := mem s; fdtab := fdtab s;
     auxv_minsigstksz := auxv_minsigstksz s; trace := trace s |}.

Definition set_aio_map (v : option (gmap Z (gmap Z (gmap Z (gmap Z addr)))))
    (s : state) : state :=
  {| errno := errno s; maplock := maplock s; aio_map := v;
     aio_fd_cnt := aio_fd_cnt s; __aio_fut := __aio_fut s;
     io_thread_stack_size := io_thread_stack_size s; queues := queues s;
     threads := threads s; cbs := cbs s; mem := mem s; fdtab := fdtab s;
     auxv_minsigstksz := auxv_minsigstksz s; trace := trace s |}.

Definition set_aio_fd_cnt (v : Z) (s : state) : state :=
  {| errno := errno s; maplock := maplock s; aio_map := aio_map s;
     aio_fd_cnt := v; __aio_fut := __aio_fut s;
     io_thread_stack_size := io_thread_stack_size s; queues := queues s;
     threads := threads s; cbs := cbs s; mem := mem s; fdtab := fdtab s;
     auxv_minsigstksz := auxv_minsigstksz s; trace := trace s |}.

Definition set___aio_fut (v : Z) (s : state) : state :=
  {| errno := errno s; maplock := maplock s; aio_map := aio_map s;
     aio_fd_cnt := aio_fd_cnt s; __aio_fut := v;
     io_thread_stack_size := io_thread_stack_size s; queues := queues s;
     threads := threads s; cbs := cbs s; mem := mem s; fdtab := fdtab s;
     auxv_minsigstksz := auxv_minsigstksz s; trace := trace s |}.

Definition set_io_thread_stack_size (v : Z) (s : state) : state :=
  {| errno := errno s; maplock := maplock s; aio_map := aio_map s;
     aio_fd_cnt := aio_fd_cnt s; __aio_fut := __aio_fut s;
     io_thread_stack_size := v; queues := queues s;
     threads := threads s; cbs := cbs s; mem := mem s; fdtab := fdtab s;
     auxv_minsigstksz := auxv_minsigstksz s; trace := trace s |}.

Definition set_queues (v : gmap addr aio_queue) (s : state) : state :=
  {| errno := errno s; maplock := maplock s; aio_map := aio_map s;
     aio_fd_cnt := aio_fd_cnt s; __aio_fut := __aio_fut s;
     io_thread_stack_size := io_thread_stack_size s; queues := v;
     threads := threads s; cbs := cbs s; mem := mem s; fdtab := fdtab s;
     auxv_minsigstksz := auxv_minsigstksz s; trace := trace s |}.

Definition set_threads (v : gmap addr aio_thread) (s : state) : state :=
  {| errno := errno s; maplock := maplock s; aio_map := aio_map s;
     aio_fd_cnt := aio_fd_cnt s; __aio_fut := __aio_fut s;
     io_thread_stack_size := io_thread_stack_size s; queues := queues s;
     threads := v; cbs := cbs s; mem := mem s; fdtab := fdtab s;
     auxv_minsigstksz := auxv_minsigstksz s; trace := trace s |}.

Definition set_cbs (v : gmap addr aiocb) (s : state) : state :=
  {| errno := errno s; maplock := maplock s; aio_map := aio_map s;
     aio_fd_cnt := aio_fd_cnt s; __aio_fut := __aio_fut s;
     io_thread_stack_size := io_thread_stack_size s; queues := queues s;
     threads := threads s; cbs := v; mem := mem s; fdtab := fdtab s;
     auxv_minsigstksz := auxv_minsigstksz s; trace := trace s |}.

Definition set_mem (v : nat) (s : state) : state :=
  {| errno := errno s; maplock := maplock s; aio_map := aio_map s;
     aio_fd_cnt := aio_fd_cnt s; __aio_fut := __aio_fut s;
     io_thread_stack_size := io_thread_stack_size s; queues := queues s;
     threads := threads s; cbs := cbs s; mem := v; fdtab := fdtab s;
     auxv_minsigstksz := auxv_minsigstksz s; trace := trace s |}.

Definition set_trace (v : list event) (s : state) : state :=
  {| errno := errno s; maplock := maplock s; aio_map := aio_map s;
     aio_fd_cnt := aio_fd_cnt s; __aio_fut := __aio_fut s;
     io_thread_stack_size := io_thread_stack_size s; queues := queues s;
     threads := threads s; cbs := cbs s; mem := mem s; fdtab := fdtab s;
     auxv_minsigstksz := auxv_minsigstksz s; trace := v |}.

(** ** The monad of C statements

    A statement maps the state to a value and a new state, or to [None] when
    the C program has no defined behaviour there (a null or dangling pointer
    is dereferenced) or when the thread does not get past the statement. *)
Definition M (A : Type) : Type := state -> option (A * state).

#[global] Instance M_ret : MRet M := fun A a st => Some (a, st).

#[global] Instance M_bind : MBind M := fun A B f m st =>
  match m st with
  | Some (a, st') => f a st'
  | None => None
  end.

Definition fault {A : Type} : M A := fun _ => None.

Definition get : M state := fun st => Some (st, st).

Definition modify (f : state -> state) : M unit := fun st => Some (tt, f st).

Definition emit (e : event) : M unit :=
  modify (fun st => set_trace (trace st ++ [e]) st).

(** Other threads run: the state changes as [env] says.  Every function
    below that can be overtaken between two of its statements takes the
    interference as a parameter. *)
Definition interfere (env : state -> state) : M unit := modify env.

Definition load_cb (c : addr) : M aiocb := fun st =>
  match cbs st !! c with
  | Some r => Some (r, st)
  | None => None
  end.

Definition store_cb (c : addr) (f : aiocb -> aiocb) : M unit :=
  r ← load_cb c;
  modify (fun st => set_cbs (<[c := f r]> (cbs st)) st).

Definition load_thread (a : addr) : M aio_thread := fun st =>
  match threads st !! a with
  | Some w => Some (w, st)
  | None => None
  end.

Definition store_thread (a : addr) (f : aio_thread -> aio_thread) : M unit :=
  w ← load_thread a;
  modify (fun st => set_threads (<[a := f w]> (threads st)) st).

Definition load_queue (q : addr) : M aio_queue := fun st =>
  match queues st !! q with
  | Some r => Some (r, st)
  | None => None
  end.

Definition store_queue (q : addr) (f : aio_queue -> aio_queue) : M unit :=
  r ← load_queue q;
  modify (fun st => set_queues (<[q := f r]> (queues st)) st).

Definition get_errno : M Z := fun st => Some (errno st, st).

Definition put_errno (v : Z) : M unit := modify (set_errno v).

(** *** Locks, signals and futex words *)

Definition pthread_mutex_lock (q : addr) : M unit :=
  store_queue q (set_q_lock true);; emit (EvMutexLock q).

Definition pthread_mutex_unlock (q : addr) : M unit :=
  store_queue q (set_q_lock false);; emit (EvMutexUnlock q).

Definition pthread_rwlock_rdlock : M unit :=
  modify (set_maplock RwRead);; emit EvRdLock.

Definition pthread_rwlock_wrlock : M unit :=
  modify (set_maplock RwWrite);; emit EvWrLock.

Definition pthread_rwlock_unlock : M unit :=
  modify (set_maplock RwFree);; emit EvRwUnlock.

Definition pthread_cond_broadcast (q : addr) : M unit :=
  emit (EvCondBroadcast q).

Definition sigmask_block_all : M unit := emit EvSigBlock.

Definition sigmask_restore : M unit := emit EvSigRestore.

Definition a_barrier : M unit := emit EvBarrier.

Definition __wake (w : futex_word) : M unit := emit (EvWake w).

(** [a_swap] and [a_cas] on the three words that carry notifications.
    Both return the value the word held before. *)
Definition a_swap_running (a : addr) (v : Z) : M Z :=
  w ← load_thread a;
  store_thread a (set_at_running v);;
  emit (EvSwapRunning a (at_running w) v);;
  mret (at_running w).

Definition a_swap_err (c : addr) (v : Z) : M Z :=
  r ← load_cb c;
  store_cb c (set___err v);;
  emit (EvSwapErr c (__err r) v);;
  mret (__err r).

Definition a_swap_fut (v : Z) : M Z := fun st =>
  Some (__aio_fut st,
        set_trace (trace st ++ [EvSwapFut (__aio_fut st) v])
          (set___aio_fut v st)).

Definition a_cas_running (a : addr) (t s : Z) : M Z :=
  w ← load_thread a;
  (if at_running w =? t then store_thread a (set_at_running s) else mret tt);;
  emit (EvCasRunning a (at_running w));;
  mret (at_running w).

(** ** The descriptor map (lines 149-195) *)

(** [int a=fd>>24; unsigned char b=fd>>16, c=fd>>8, d=fd;] *)
Definition idx_a (fd : Z) : Z := Z.shiftr fd 24.
Definition idx_b (fd : Z) : Z := Z.land (Z.shiftr fd 16) 255.
Definition idx_c (fd : Z) : Z := Z.land (Z.shiftr fd 8) 255.
Definition idx_d (fd : Z) : Z := Z.land fd 255.

(** [map && map[a] && map[a][b] && map[a][b][c] ? map[a][b][c][d] : 0] *)
Definition map_lookup (m : option (gmap Z (gmap Z (gmap Z (gmap Z addr)))))
    (fd : Z) : option addr :=
  match m with
  | None => None
  | Some t =>
      match t !! idx_a fd with
      | None => None
      | Some ta =>
          match ta !! idx_b fd with
          | None => None
          | Some tb =>
              match tb !! idx_c fd with
              | None => None
              | Some tc => tc !! idx_d fd
              end
          end
      end
  end.

(** [map[a][b][c][d] = v]; the three tables on the way must exist. *)
Definition map_store (fd : Z) (v : option addr) : M unit := fun st =>
  match aio_map st with
  | None => None
  | Some t =>
      match t !! idx_a fd with
      | None => None
      | Some ta =>
          match ta !! idx_b fd with
          | None => None
          | Some tb =>
              match tb !! idx_c fd with
              | None => None
              | Some tc =>
                  let tc' := match v with
                             | Some q => <[idx_d fd := q]> tc
                             | None => delete (idx_d fd) tc
                             end in
                  Some (tt, set_aio_map
                              (Some (<[idx_a fd :=
                                       <[idx_b fd :=
                                          <[idx_c fd := tc']> tb]> ta]> t))
                              st)
              end
          end
      end
  end.

Section Aio.
Context `{Platform}.

(** [calloc]: succeeds while the allocator has memory, and sets [errno]
    to [ENOMEM] when it has none. *)
Definition calloc : M bool := fun st =>
  match mem st with
  | O => Some (false, set_errno ENOMEM st)
  | S n => Some (true, set_mem n st)
  end.

(** [fcntl(fd, F_GETFD) >= 0]: fails with [EBADF] on a descriptor that is
    not open. *)
Definition fcntl_getfd (fd : Z) : M bool := fun st =>
  match fdtab st !! fd with
  | Some _ => Some (true, st)
  | None => Some (false, set_errno EBADF st)
  end.

(** Lines 168-171. *)
Definition init_stack_size : M unit := fun st =>
  if io_thread_stack_size st =? 0
  then Some (tt, set_io_thread_stack_size
                   (Z.max (MINSIGSTKSZ + 2048) (auxv_minsigstksz st + 512)) st)
  else Some (tt, st).

(** Line 172: [if (!map) map = calloc(...); if (!map) goto out;].  The
    result says whether the table exists afterwards. *)
Definition ensure_map : M bool := fun st =>
  match aio_map st with
  | Some _ => Some (true, st)
  | None =>
      (ok ← calloc;
       if ok : bool then modify (set_aio_map (Some ∅));; mret true
       else mret false) st
  end.

(** Lines 174-175. *)
Definition ensure_a (fd : Z) : M bool := fun st =>
  match aio_map st with
  | None => None
  | Some t =>
      match t !! idx_a fd with
      | Some _ => Some (true, st)
      | None =>
          (ok ← calloc;
           if ok : bool
           then modify (set_aio_map (Some (<[idx_a fd := ∅]> t)));; mret true
           else mret false) st
      end
  end.

(** Lines 176-177. *)
Definition ensure_b (fd : Z) : M bool := fun st =>
  match aio_map st with
  | None => None
  | Some t =>
      match t !! idx_a fd with
      | None => None
      | Some ta =>
          match ta !! idx_b fd with
          | Some _ => Some (true, st)
          | None =>
              (ok ← calloc;
               if ok : bool
               then modify (set_aio_map
                              (Some (<[idx_a fd := <[idx_b fd := ∅]> ta]> t)));;
                    mret true
               else mret false) st
          end
      end
  end.

(** Lines 178-179. *)
Definition ensure_c (fd : Z) : M bool := fun st =>
  match aio_map st with
  | None => None
  | Some t =>
      match t !! idx_a fd with
      | None => None
      | Some ta =>
          match ta !! idx_b fd with
          | None => None
          | Some tb =>
              match tb !! idx_c fd with
              | Some _ => Some (true, st)
              | None =>
                  (ok ← calloc;
                   if ok : bool
                   then modify (set_aio_map
                                  (Some (<[idx_a fd :=
                                           <[idx_b fd :=
                                              <[idx_c fd := ∅]> tb]> ta]> t)));;
                        mret true
                   else mret false) st
              end
          end
      end
  end.

(** The queue [calloc] returns at line 181, after [q->fd = fd]. *)
Definition new_queue (fd : Z) : aio_queue :=
  {| q_fd := fd; q_seekable := 0; q_append := 0; q_ref := 0; q_init := 0;
     q_lock := false; q_head := None |}.

(** Lines 180-188: the leaf entry, created when it is still null.  The new
    queue is placed at an address no live queue occupies. *)
Definition ensure_queue (fd : Z) : M (option addr) := fun st =>
  match map_lookup (aio_map st) fd with
  | Some q => Some (Some q, st)
  | None =>
      (ok ← calloc;
       if ok : bool
       then
         let q := fresh (dom (queues st)) in
         modify (fun s => set_queues (<[q := new_queue fd]> (queues s)) s);;
         map_store fd (Some q);;
         modify (fun s => set_aio_fd_cnt (aio_fd_cnt s + 1) s);;
         mret (Some q)
       else mret None) st
  end.

(** Lines 172-189, with [goto out] as the [None] result. *)
Definition create_queue (fd : Z) : M (option addr) :=
  ok ← ensure_map;
  if negb ok then mret None else
  ok ← ensure_a fd;
  if negb ok then mret None else
  ok ← ensure_b fd;
  if negb ok then mret None else
  ok ← ensure_c fd;
  if negb ok then mret None else
  ensure_queue fd.

(** [__aio_get_queue] (lines 149-195).  [env] is what other threads do
    between the release of the read lock at line 162 and the write lock at
    line 167. *)
Definition __aio_get_queue (fd : Z) (need : bool) (env : state -> state)
    : M (option addr) :=
  if fd <? 0 then put_errno EBADF;; mret None
  else
    pthread_rwlock_rdlock;;
    st ← get;
    match map_lookup (aio_map st) fd with
    | Some q =>
        pthread_mutex_lock q;; pthread_rwlock_unlock;; mret (Some q)
    | None =>
        if need then
          pthread_rwlock_unlock;;
          ok ← fcntl_getfd fd;
          if negb ok then mret None else
          interfere env;;
          sigmask_block_all;;
          pthread_rwlock_wrlock;;
          init_stack_size;;
          r ← create_queue fd;
          match r with
          | Some q =>
              pthread_mutex_lock q;; pthread_rwlock_unlock;;
              sigmask_restore;; mret (Some q)
          | None =>
              pthread_rwlock_unlock;; sigmask_restore;; mret None
          end
        else
          pthread_rwlock_unlock;; mret None
    end.

(** [__aio_unref_queue] (lines 205-233).  [env] is what other threads do
    between the release of the queue lock at line 216 and its re-acquisition
    at line 218. *)
Definition __aio_unref_queue (q : addr) (env : state -> state) : M unit :=
  r ← load_queue q;
  if 1 <? q_ref r then
    store_queue q (set_q_ref (q_ref r - 1));;
    pthread_mutex_unlock q
  else
    pthread_mutex_unlock q;;
    interfere env;;
    pthread_rwlock_wrlock;;
    pthread_mutex_lock q;;
    r ← load_queue q;
    if q_ref r =? 1 then
      map_store (q_fd r) None;;
      modify (fun s => set_aio_fd_cnt (aio_fd_cnt s - 1) s);;
      pthread_rwlock_unlock;;
      pthread_mutex_unlock q;;
      modify (fun s => set_queues (delete q (queues s)) s);;
      emit (EvFree q)
    else
      store_queue q (set_q_ref (q_ref r - 1));;
      pthread_rwlock_unlock;;
      pthread_mutex_unlock q.

(** ** The worker (lines 246-373) *)

(** Stores to the two result slots of the handle. *)
Definition store_ret (c : addr) (v : Z) : M unit :=
  store_cb c (set___ret v);; emit (EvStoreRet c v).

Definition store_err (c : addr) (v : Z) : M unit :=
  store_cb c (set___err v);; emit (EvStoreErr c v).

(** Lines 271-273: the worker leaves the doubly linked list. *)
Definition unlink (a q : addr) : M unit :=
  w ← load_thread a;
  match at_next w with
  | Some n => store_thread n (set_at_prev (at_prev w))
  | None => mret tt
  end;;
  w ← load_thread a;
  match at_prev w with
  | Some p => store_thread p (set_at_next (at_next w))
  | None => store_queue q (set_q_head (at_next w))
  end;;
  emit (EvUnlink a q).

(** Lines 280-293: the completion notification. *)
Definition notify (sev : sigevent) : M unit :=
  (if sigev_notify sev =? SIGEV_SIGNAL
   then emit (EvSigqueue (sigev_signo sev) (sigev_value sev) SI_ASYNCIO)
   else mret tt);;
  (if sigev_notify sev =? SIGEV_THREAD
   then emit (EvCallback (sigev_notify_function sev) (sigev_value sev))
   else mret tt).

(** The four stores of lines 261-267, one definition each: other threads
    may run between any two of them.  [cb] and [q] are the locals that
    [cleanup] reads from [at] on entry. *)
Definition cleanup_ret (a cb : addr) : M unit :=
  w ← load_thread a;
  store_ret cb (at_ret w).

Definition cleanup_running (a : addr) : M unit :=
  old ← a_swap_running a 0;
  if old <? 0 then __wake (W_running a) else mret tt.

Definition cleanup_err (a cb : addr) : M unit :=
  w ← load_thread a;
  old ← a_swap_err cb (at_err w);
  if negb (old =? EINPROGRESS) then __wake (W_err cb) else mret tt.

Definition cleanup_fut : M unit :=
  old ← a_swap_fut 0;
  if negb (old =? 0) then __wake W_fut else mret tt.

(** Lines 269-276. *)
Definition cleanup_unlink (a q : addr) : M unit :=
  pthread_mutex_lock q;;
  unlink a q;;
  pthread_cond_broadcast q.

(** [cleanup] (lines 246-294).  [env k] is what other threads do after
    the [k]-th step of the handler; [env 4] is the window inside
    [__aio_unref_queue]. *)
Definition cleanup (a : addr) (env : nat -> state -> state) : M unit :=
  w ← load_thread a;
  r ← load_cb (at_cb w);
  let sev := aio_sigevent r in
  cleanup_ret a (at_cb w);;
  interfere (env 0%nat);;
  cleanup_running a;;
  interfere (env 1%nat);;
  cleanup_err a (at_cb w);;
  interfere (env 2%nat);;
  cleanup_fut;;
  interfere (env 3%nat);;
  cleanup_unlink a (at_q w);;
  __aio_unref_queue (at_q w) (env 4%nat);;
  interfere (env 5%nat);;
  notify sev.

(** [struct aio_args] (lines 107-112); the semaphore is in the trace. *)
Record aio_args : Type := mk_aio_args {
  args_cb : addr;
  args_q : addr;
  args_op : Z
}.

(** Lines 333-338: the first worker of a queue classifies the file. *)
Definition classify (fd : Z) (q : addr) : M unit :=
  r ← load_queue q;
  if q_init r =? 0 then
    st ← get;
    let seekable : Z :=
      match fdtab st !! fd with
      | Some d => if fd_seekable d then 1 else 0
      | None => 0
      end in
    let flags : Z :=
      match fdtab st !! fd with
      | Some d => fd_flags d
      | None => -1
      end in
    let append : Z :=
      if (seekable =? 0) || negb (Z.land flags O_APPEND =? 0) then 1 else 0 in
    store_queue q (set_q_class seekable append)
  else mret tt.

(** Lines 319-338: the worker takes the queue lock, releases the submitter
    and links its record [at], which lives at address [a] of its own stack,
    at the head of the list.  A new thread's stack overlaps no live record. *)
Definition io_thread_enter (a : addr) (td : Z) (args : aio_args) : M unit :=
  cb ← load_cb (args_cb args);
  pthread_mutex_lock (args_q args);;
  emit EvSemPost;;
  st ← get;
  match threads st !! a with
  | Some _ => fault
  | None =>
      r ← load_queue (args_q args);
      modify (fun s =>
        set_threads
          (<[a := {| at_td := td; at_cb := args_cb args; at_next := q_head r;
                     at_prev := None; at_q := args_q args; at_running := 1;
                     at_err := ECANCELED; at_op := args_op args;
                     at_ret := -1 |}]> (threads s)) s);;
      match q_head r with
      | Some n => store_thread n (set_at_prev (Some a))
      | None => mret tt
      end;;
      store_queue (args_q args) (set_q_head (Some a));;
      emit (EvLink a (args_q args));;
      classify (aio_fildes cb) (args_q args)
  end.

(** Line 343. *)
Definition sequenced (op : Z) (r : aio_queue) : bool :=
  negb (op =? LIO_READ) && (negb (op =? LIO_WRITE) || negb (q_append r =? 0)).

(** Line 345: [for (p=at.next; p && p->op!=LIO_WRITE; p=p->next);].  The
    loop visits at most as many records as exist; [fuel] bounds the visits,
    and a chain that outlasts it is cyclic. *)
Fixpoint scan (fuel : nat) (p : option addr) : M (option addr) :=
  match p with
  | None => mret None
  | Some pa =>
      match fuel with
      | O => fault
      | S f =>
          w ← load_thread pa;
          if negb (at_op w =? LIO_WRITE) then scan f (at_next w)
          else mret (Some pa)
      end
  end.

(** Lines 345-346 for the worker at [a]: the first [LIO_WRITE] record
    behind it, if any. *)
Definition scan_from (a : addr) : M (option addr) :=
  w ← load_thread a;
  st ← get;
  scan (S (size (threads st))) (at_next w).

(** [pthread_cond_wait]: the lock is released, other threads run, the lock
    is taken again. *)
Definition pthread_cond_wait (q : addr) (env : state -> state) : M unit :=
  emit (EvCondWait q);;
  store_queue q (set_q_lock false);;
  interfere env;;
  store_queue q (set_q_lock true).

(** How the worker's life goes on after it has linked itself: the I/O call
    returns [ret] with [errno] set to [e], or the thread is cancelled inside
    the call, or it is cancelled inside [pthread_cond_wait]. *)
Inductive fate : Type :=
| Completed (ret e : Z)
| CanceledInIO
| CanceledInWait.

Inductive wait_result : Type := Proceed | Blocked | Canceled.

(** Lines 344-348.  [wakes] counts the returns of [pthread_cond_wait] the
    scheduler grants; when they are used up and a writer is still ahead, the
    worker stays blocked, or is cancelled there if that is its fate. *)
Fixpoint seq_wait (wakes : nat) (f : fate) (a q : addr)
    (env : nat -> state -> state) : M wait_result :=
  p ← scan_from a;
  match p with
  | None => mret Proceed
  | Some _ =>
      match wakes with
      | O => match f with
             | CanceledInWait =>
                 pthread_cond_wait q (env O);; mret Canceled
             | _ => mret Blocked
             end
      | S n => pthread_cond_wait q (env (S n));; seq_wait n f a q env
      end
  end.

(** The [switch] of lines 353-366. *)
Definition io_call_of (op : Z) (r : aio_queue) : option io_call :=
  if op =? LIO_WRITE then
    Some (if negb (q_append r =? 0) then Sys_write else Sys_pwrite)
  else if op =? LIO_READ then
    Some (if q_seekable r =? 0 then Sys_read else Sys_pread)
  else if op =? O_SYNC then Some Sys_fsync
  else if op =? O_DSYNC then Some Sys_fdatasync
  else None.

(** Lines 353-368.  When no [case] matches, [ret] is read uninitialised. *)
Definition io_perform (a : addr) (f : fate) : M bool :=
  w ← load_thread a;
  r ← load_queue (at_q w);
  c ← load_cb (at_cb w);
  match io_call_of (at_op w) r with
  | None => fault
  | Some call =>
      emit (EvSyscall call (aio_fildes c));;
      match f with
      | Completed ret e =>
          store_thread a (set_at_result ret (if ret <? 0 then e else 0));;
          mret true
      | _ => mret false
      end
  end.

(** Points at which the worker can be overtaken. *)
Inductive point : Type :=
| P_wait (n : nat)
| P_io
| P_cleanup (n : nat).

(** [io_thread_func] (lines 304-373).  The result is [false] when the
    worker is left blocked in the sequencing wait. *)
Definition io_thread_func (a : addr) (td : Z) (args : aio_args)
    (wakes : nat) (f : fate) (env : point -> state -> state) : M bool :=
  io_thread_enter a td args;;
  r ← load_queue (args_q args);
  res ← (if sequenced (args_op args) r
         then seq_wait wakes f a (args_q args) (fun n => env (P_wait n))
         else mret Proceed);
  match res with
  | Blocked => mret false
  | Canceled => cleanup a (fun n => env (P_cleanup n));; mret true
  | Proceed =>
      pthread_mutex_unlock (args_q args);;
      interfere (env P_io);;
      io_perform a f;;
      cleanup a (fun n => env (P_cleanup n));;
      mret true
  end.

(** ** Submission (lines 388-453) *)

(** Lines 407-417: the attributes of the worker thread. *)
Definition worker_attr (sev : sigevent) (stack : Z) : attr :=
  if sigev_notify sev =? SIGEV_THREAD then
    {| attr_base := sigev_notify_attributes sev; attr_stacksize := None;
       attr_guardsize := None; attr_detached := true |}
  else
    {| attr_base := None; attr_stacksize := Some stack;
       attr_guardsize := Some 0; attr_detached := true |}.

(** Points at which the submitter can be overtaken: inside
    [__aio_get_queue], between the release of the queue lock and the spawn,
    inside [__aio_unref_queue], and while it waits for the semaphore. *)
Inductive spoint : Type := S_getq | S_spawn | S_unref | S_sem.

(** [submit] (lines 388-434).  [spawn_ok] says whether [pthread_create]
    succeeds. *)
Definition submit (c : addr) (op : Z) (spawn_ok : bool)
    (env : spoint -> state -> state) : M Z :=
  cb ← load_cb c;
  q ← __aio_get_queue (aio_fildes cb) true (env S_getq);
  match q with
  | None =>
      e ← get_errno;
      (if negb (e =? EBADF) then put_errno EAGAIN else mret tt);;
      store_ret c (-1);;
      e ← get_errno;
      store_err c e;;
      mret (-1)
  | Some q =>
      r ← load_queue q;
      store_queue q (set_q_ref (q_ref r + 1));;
      pthread_mutex_unlock q;;
      st ← get;
      let a := worker_attr (aio_sigevent cb) (io_thread_stack_size st) in
      sigmask_block_all;;
      interfere (env S_spawn);;
      store_err c EINPROGRESS;;
      if spawn_ok then
        emit (EvSpawn c op q a);;
        sigmask_restore;;
        interfere (env S_sem);;
        emit EvSemWait;;
        mret 0
      else
        pthread_mutex_lock q;;
        __aio_unref_queue q (env S_unref);;
        put_errno EAGAIN;;
        store_err c EAGAIN;;
        store_ret c (-1);;
        sigmask_restore;;
        mret (-1)
  end.

Definition aio_read (c : addr) (spawn_ok : bool)
    (env : spoint -> state -> state) : M Z :=
  submit c LIO_READ spawn_ok env.

Definition aio_write (c : addr) (spawn_ok : bool)
    (env : spoint -> state -> state) : M Z :=
  submit c LIO_WRITE spawn_ok env.

(** [aio_fsync] (lines 446-453). *)
Definition aio_fsync (op : Z) (c : addr) (spawn_ok : bool)
    (env : spoint -> state -> state) : M Z :=
  if negb (op =? O_SYNC) && negb (op =? O_DSYNC) then
    put_errno EINVAL;; mret (-1)
  else submit c op spawn_ok env.

(** ** Status (lines 455-464) *)

Definition aio_return (c : addr) : M Z :=
  cb ← load_cb c;
  mret (__ret cb).

Definition aio_error (c : addr) : M Z :=
  a_barrier;;
  cb ← load_cb c;
  mret (Z.land (__err cb) 2147483647).

(** ** Cancellation (lines 476-519) *)

(** [__wait(&p->running, 0, -1, 1)]: the caller sleeps while the word is
    [-1]; [env] is everything other threads do until it returns. *)
Definition __wait_running (p : addr) (env : state -> state) : M unit :=
  emit (EvWait (W_running p));;
  interfere env;;
  w ← load_thread p;
  if at_running w =? -1 then fault else mret tt.

(** The loop of lines 498-506; [ret] is the local of that name.  [fuel]
    bounds the records visited as in [scan]. *)
Fixpoint cancel_loop (fuel : nat) (cb : option addr)
    (env : nat -> state -> state) (p : option addr) (ret : Z) : M Z :=
  match p with
  | None => mret ret
  | Some pa =>
      match fuel with
      | O => fault
      | S f =>
          w ← load_thread pa;
          if match cb with
             | Some c => negb (Pos.eqb c (at_cb w))
             | None => false
             end
          then cancel_loop f cb env (at_next w) ret
          else
            old ← a_cas_running pa 1 (-1);
            if negb (old =? 0) then
              emit (EvCancel (at_td w));;
              __wait_running pa (env f);;
              w' ← load_thread pa;
              cancel_loop f cb env (at_next w')
                (if at_err w' =? ECANCELED then AIO_CANCELED else ret)
            else
              cancel_loop f cb env (at_next w) ret
      end
  end.

(** [aio_cancel] (lines 476-512); a null [cb] is [None]. *)
Definition aio_cancel (fd : Z) (cb : option addr)
    (env : nat -> state -> state) : M Z :=
  mismatch ← match cb with
             | Some c => r ← load_cb c; mret (negb (fd =? aio_fildes r))
             | None => mret false
             end;
  if mismatch : bool then put_errno EINVAL;; mret (-1)
  else
    sigmask_block_all;;
    put_errno ENOENT;;
    q ← __aio_get_queue fd false (fun s => s);
    match q with
    | None =>
        e ← get_errno;
        sigmask_restore;;
        mret (if e =? EBADF then -1 else AIO_ALLDONE)
    | Some q =>
        r ← load_queue q;
        st ← get;
        ret ← cancel_loop (S (size (threads st))) cb env (q_head r)
                AIO_ALLDONE;
        pthread_mutex_unlock q;;
        sigmask_restore;;
        mret ret
    end.

(** [__aio_close] (lines 514-519). *)
Definition __aio_close (fd : Z) (env : nat -> state -> state) : M Z :=
  a_barrier;;
  st ← get;
  if negb (aio_fd_cnt st =? 0) then aio_cancel fd None env;; mret fd
  else mret fd.

(** ** Fork (lines 535-562) *)

(** [pthread_rwlock_tryrdlock]: fails when the lock is held for writing. *)
Definition pthread_rwlock_tryrdlock : M bool := fun st =>
  match maplock st with
  | RwWrite => Some (false, st)
  | _ => Some (true, set_trace (trace st ++ [EvRdLock])
                       (set_maplock RwRead st))
  end.

Definition pthread_rwlock_init : M unit := modify (set_maplock RwFree).

(** Lines 552-556: every slot of every leaf table is set to null.  The
    loops run over all the slots of the tables that exist, and the tables
    themselves stay allocated. *)
Definition clear_map (t : gmap Z (gmap Z (gmap Z (gmap Z addr))))
    : gmap Z (gmap Z (gmap Z (gmap Z addr))) :=
  (fun ta : gmap Z (gmap Z (gmap Z addr)) =>
     (fun tb : gmap Z (gmap Z addr) =>
        (fun _ : gmap Z addr => (∅ : gmap Z addr)) <$> tb) <$> ta) <$> t.

(** [__aio_atfork]: [who < 0] before the fork, [who = 0] in the parent
    after it, [who > 0] in the child. *)
Definition __aio_atfork (who : Z) : M unit :=
  if who <? 0 then pthread_rwlock_rdlock
  else if who =? 0 then pthread_rwlock_unlock
  else
    modify (set_aio_fd_cnt 0);;
    ok ← pthread_rwlock_tryrdlock;
    if negb ok then modify (set_aio_map None)
    else
      modify (fun s => set_aio_map (clear_map <$> aio_map s) s);;
      pthread_rwlock_init.

(** ** The workers of the queues, interleaved

    The statements above are now run by several workers in turn.  A step is
    a maximal piece of [io_thread_func] or [cleanup] that runs under the
    queue lock, or one access to a shared word outside it.  The reference
    count and the descriptor map are left alone here: the steps cover the
    time during which the queues stay allocated, and the last step of a
    worker stops short of [__aio_unref_queue], taking only its unlock. *)

(** Where a worker is: blocked in [pthread_cond_wait] (line 347), between
    the unlock of line 351 and the return of the I/O call, before one of the
    stores of [cleanup] (lines 261, 262, 264, 266), before line 269, or past
    the list. *)
Inductive wpc : Type :=
| W_wait | W_io | C_ret | C_running | C_err | C_fut | C_unlink | W_done.

#[global] Instance wpc_eq_dec : EqDecision wpc.
Proof. solve_decision. Defined.

Record config : Type := mk_config {
  shared : state;
  pcs : gmap addr wpc
}.

Inductive label : Type :=
| L_enter (a : addr) (td : Z) (args : aio_args)
| L_wake (a : addr)
| L_io (a : addr) (ret e : Z)
| L_canceled (a : addr)
| L_cleanup (a : addr)
| L_cancel_cas (p : addr)
| L_ext_err (c : addr) (v : Z)
| L_ext_fut (v : Z).

(** One pass through lines 345-347, entered with the lock held. *)
Definition seq_test (a q : addr) : M wpc :=
  p ← scan_from a;
  match p with
  | Some _ =>
      emit (EvCondWait q);; store_queue q (set_q_lock false);; mret W_wait
  | None => pthread_mutex_unlock q;; mret W_io
  end.

(** Lines 319-351 up to the first wait or the unlock. *)
Definition enter_step (a : addr) (td : Z) (args : aio_args) : M wpc :=
  io_thread_enter a td args;;
  r ← load_queue (args_q args);
  if sequenced (args_op args) r then seq_test a (args_q args)
  else pthread_mutex_unlock (args_q args);; mret W_io.

(** [pthread_cond_wait] returns and the loop of line 344 goes round. *)
Definition wake_step (a : addr) : M wpc :=
  w ← load_thread a;
  store_queue (at_q w) (set_q_lock true);;
  seq_test a (at_q w).

(** The worker's cancellation is acted upon: in [pthread_cond_wait], or in
    the I/O call, which then records nothing. *)
Definition canceled_step (a : addr) (pc : wpc) : M wpc :=
  match pc with
  | W_wait => mret C_ret
  | W_io => io_perform a CanceledInIO;; mret C_ret
  | _ => fault
  end.

Definition cleanup_step (a : addr) (pc : wpc) : M wpc :=
  w ← load_thread a;
  match pc with
  | C_ret => cleanup_ret a (at_cb w);; mret C_running
  | C_running => cleanup_running a;; mret C_err
  | C_err => cleanup_err a (at_cb w);; mret C_fut
  | C_fut => cleanup_fut;; mret C_unlink
  | C_unlink =>
      cleanup_unlink a (at_q w);; pthread_mutex_unlock (at_q w);; mret W_done
  | _ => fault
  end.

Definition run_worker (a : addr) (m : M wpc) (c : config) : option config :=
  match m (shared c) with
  | Some (pc, st) => Some {| shared := st; pcs := <[a := pc]> (pcs c) |}
  | None => None
  end.

Definition run_shared (m : M unit) (c : config) : option config :=
  match m (shared c) with
  | Some (_, st) => Some {| shared := st; pcs := pcs c |}
  | None => None
  end.

(** The steps.  [L_cancel_cas] is line 501 of a canceller that has found
    [p] on a list; [L_ext_err] and [L_ext_fut] are the stores that
    [aio_suspend] and [lio_listio], which are not part of [aio.c], make to a
    handle's [__err] and to [__aio_fut]. *)
Definition step (l : label) (c : config) : option config :=
  match l with
  | L_enter a td args =>
      match pcs c !! a with
      | Some _ => None
      | None => run_worker a (enter_step a td args) c
      end
  | L_wake a =>
      match pcs c !! a with
      | Some W_wait => run_worker a (wake_step a) c
      | _ => None
      end
  | L_io a ret e =>
      match pcs c !! a with
      | Some W_io =>
          run_worker a (io_perform a (Completed ret e);; mret C_ret) c
      | _ => None
      end
  | L_canceled a =>
      match pcs c !! a with
      | Some pc => run_worker a (canceled_step a pc) c
      | None => None
      end
  | L_cleanup a =>
      match pcs c !! a with
      | Some pc => run_worker a (cleanup_step a pc) c
      | None => None
      end
  | L_cancel_cas p =>
      match pcs c !! p with
      | Some W_done | None => None
      | Some _ => run_shared (a_cas_running p 1 (-1);; mret tt) c
      end
  | L_ext_err cb v => run_shared (store_cb cb (set___err v)) c
  | L_ext_fut v => run_shared (modify (set___aio_fut v)) c
  end.

Fixpoint exec (ls : list label) (c : config) : option config :=
  match ls with
  | [] => Some c
  | l :: ls' =>
      match step l c with
      | Some c' => exec ls' c'
      | None => None
      end
  end.

(** No worker has started yet, and the lists of all queues are empty. *)
Definition initial (c : config) : Prop :=
  threads (shared c) = ∅ /\ pcs c = ∅ /\
  forall q r, queues (shared c) !! q = Some r -> q_head r = None.

Inductive reachable : config -> Prop :=
| reachable_init c : initial c -> reachable c
| reachable_step c l c' : reachable c -> step l c = Some c' -> reachable c'.

(** *** The list a queue holds *)

(** [dll th prev p l]: following [at_next] from [p] visits exactly the
    records [l] and ends at a null pointer, and every record's [at_prev]
    points to the one before it ([prev] for the first). *)
Fixpoint dll (th : gmap addr aio_thread) (prev p : option addr)
    (l : list addr) : Prop :=
  match l with
  | [] => p = None
  | a :: l' =>
      p = Some a /\
      exists w, th !! a = Some w /\ at_prev w = prev /\
                dll th (Some a) (at_next w) l'
  end.

(** Whether the record at [a] is a write. *)
Definition is_write (th : gmap addr aio_thread) (a : addr) : bool :=
  match th !! a with
  | Some w => at_op w =? LIO_WRITE
  | None => false
  end.

(** Whether a handle argument of [aio_cancel] passes the check of
    line 484. *)
Definition handle_matches (fd : Z) (cb : option addr) (st : state) : Prop :=
  match cb with
  | Some c => exists r, cbs st !! c = Some r /\ aio_fildes r = fd
  | None => True
  end.

(** *** The reference count and the map *)

(** The slot of the map that [fd] selects. *)
Definition key (fd : Z) : Z * Z * Z * Z :=
  (idx_a fd, idx_b fd, idx_c fd, idx_d fd).

(** The queue at [q] can be reached from the map. *)
Definition in_map (st : state) (q : addr) : Prop :=
  exists fd, map_lookup (aio_map st) fd = Some q.

(** The invariant of the map: every entry points to a live queue that was
    created for that slot, and a queue nobody is working on (its mutex is
    free) is reachable from the map if and only if its reference count is
    positive. *)
Definition dir_inv (st : state) : Prop :=
  (forall fd q, map_lookup (aio_map st) fd = Some q ->
     exists r, queues st !! q = Some r /\ key (q_fd r) = key fd) /\
  (forall q r, queues st !! q = Some r -> q_lock r = false ->
     (in_map st q <-> 0 < q_ref r)).

(** The state in which [pthread_mutex_unlock(&q->lock)] leaves [st] when the
    queue record is [r], and likewise for [pthread_mutex_lock]. *)
Definition after_unlock (q : addr) (r : aio_queue) (st : state) : state :=
  set_trace (trace st ++ [EvMutexUnlock q])
    (set_queues (<[q := set_q_lock false r]> (queues st)) st).

Definition after_lock (q : addr) (r : aio_queue) (st : state) : state :=
  set_trace (trace st ++ [EvMutexLock q])
    (set_queues (<[q := set_q_lock true r]> (queues st)) st).

(** Lines 217-232 of [__aio_unref_queue] on their own: what the function
    does once it has dropped the queue lock and the other threads have had
    their turn. *)
Definition unref_relocked (q : addr) : M unit :=
  pthread_rwlock_wrlock;;
  pthread_mutex_lock q;;
  r ← load_queue q;
  if q_ref r =? 1 then
    map_store (q_fd r) None;;
    modify (fun s => set_aio_fd_cnt (aio_fd_cnt s - 1) s);;
    pthread_rwlock_unlock;;
    pthread_mutex_unlock q;;
    modify (fun s => set_queues (delete q (queues s)) s);;
    emit (EvFree q)
  else
    store_queue q (set_q_ref (q_ref r - 1));;
    pthread_rwlock_unlock;;
    pthread_mutex_unlock q.

(** The state in which lines 404-419 of [submit] leave [st]: the reference
    is taken, the queue lock is dropped and the signals are blocked. *)
Definition referenced (q : addr) (r : aio_queue) (st : state) : state :=
  set_trace (trace st ++ [EvMutexUnlock q; EvSigBlock])
    (set_queues
       (<[q := set_q_lock false (set_q_ref (q_ref r + 1) r)]> (queues st))
       st).

(** The state after the store [cb->__err = v] at handle [c], whose record
    was [cb]. *)
Definition stamped_err (c : addr) (v : Z) (cb : aiocb) (st : state) : state :=
  set_trace (trace st ++ [EvStoreErr c v])
    (set_cbs (<[c := set___err v cb]> (cbs st)) st).

(** The first write among the records [l], as [scan] finds it. *)
Fixpoint first_write (th : gmap addr aio_thread) (l : list addr)
    : option addr :=
  match l with
  | [] => None
  | a :: l' => if is_write th a then Some a else first_write th l'
  end.

(** A worker is on its queue's list until the step that unlinks it. *)
Definition linked (pc : wpc) : bool :=
  match pc with
  | W_done => false
  | _ => true
  end.

(** The worker [x] has no write behind it on the list [l] if its operation
    is one that line 343 sequences. *)
Definition seq_ok (th : gmap addr aio_thread) (r : aio_queue)
    (l : list addr) (x : addr) : Prop :=
  forall l1 l2 w,
    l = l1 ++ x :: l2 -> th !! x = Some w ->
    sequenced (at_op w) r = true ->
    forall b, b ∈ l2 -> is_write th b = false.

(** The invariant of one queue: [l] is its list, from the head; the list
    holds exactly the workers of this queue that are not yet unlinked; a
    queue with workers has been classified; and a worker that is past the
    sequencing wait and executing its I/O has no write behind it if its
    operation is sequenced. *)
Definition queue_inv (c : config) (q : addr) (r : aio_queue)
    (l : list addr) : Prop :=
  dll (threads (shared c)) None (q_head r) l /\
  NoDup l /\
  (forall a, a ∈ l <->
     exists w pc, threads (shared c) !! a = Some w /\ at_q w = q /\
                  pcs c !! a = Some pc /\ linked pc = true) /\
  (l <> [] -> q_init r <> 0) /\
  (forall x, pcs c !! x = Some W_io -> seq_ok (threads (shared c)) r l x).

(** The invariant of the interleaving semantics. *)
Definition inv (c : config) : Prop :=
  (forall q r, queues (shared c) !! q = Some r -> exists l, queue_inv c q r l) /\
  (forall a w, threads (shared c) !! a = Some w ->
     is_Some (pcs c !! a) /\
     (at_running w = 1 \/ at_running w = -1 \/ at_running w = 0)) /\
  (forall a, is_Some (pcs c !! a) -> is_Some (threads (shared c) !! a)).

(** The heap after lines 271-272 for the unlinked record [w]. *)
Definition unlink_heap (th : gmap addr aio_thread) (w : aio_thread)
    : gmap addr aio_thread :=
  let th1 := match at_next w with
             | Some n => alter (set_at_prev (at_prev w)) n th
             | None => th
             end in
  match at_prev w with
  | Some p0 => alter (set_at_next (at_next w)) p0 th1
  | None => th1
  end.

(** The record that lines 322-330 initialise when the list head is
    [head]. *)
Definition fresh_at (td : Z) (args : aio_args) (head : option addr)
    : aio_thread :=
  {| at_td := td; at_cb := args_cb args; at_next := head; at_prev := None;
     at_q := args_q args; at_running := 1; at_err := ECANCELED;
     at_op := args_op args; at_ret := -1 |}.

(** The heap after lines 322-331: the new record is in place and the old
    head, if any, points back to it. *)
Definition link_heap (th : gmap addr aio_thread) (a : addr) (wnew : aio_thread)
    : gmap addr aio_thread :=
  match at_next wnew with
  | Some n => alter (set_at_prev (Some a)) n (<[a := wnew]> th)
  | None => <[a := wnew]> th
  end.


(** *** What a run leaves in the trace *)

(** A statement that emits no event. *)
Definition silent {A : Type} (m : M A) : Prop :=
  forall st a st', m st = Some (a, st') -> trace st' = trace st.



(** What the other threads may do to the record of a worker while it
    runs: the fields the worker owns stay as they are, and [running] is
    only ever given one of the three values [aio.c] stores there. *)
Definition own_fields (w1 w2 : aio_thread) : Prop :=
  at_cb w2 = at_cb w1 /\ at_q w2 = at_q w1 /\ at_op w2 = at_op w1 /\
  at_err w2 = at_err w1 /\ at_ret w2 = at_ret w1 /\
  (at_running w1 = 1 \/ at_running w1 = -1 \/ at_running w1 = 0 ->
   at_running w2 = 1 \/ at_running w2 = -1 \/ at_running w2 = 0).

(** The events of the other threads are not the worker's. *)
Definition worker_rely (a : addr) (env : state -> state) : Prop :=
  (forall s, trace (env s) = trace s) /\
  (forall s w1, threads s !! a = Some w1 ->
     exists w2, threads (env s) !! a = Some w2 /\ own_fields w1 w2).


(** *** The running word *)

(** Whether a worker is past the swap of line 262. *)
Definition swapped (pc : wpc) : bool :=
  match pc with
  | C_err | C_fut | C_unlink | W_done => true
  | _ => false
  end.

(** The running word of every worker is 0 exactly when the worker is past
    its swap, and the queue a worker points to exists. *)
Definition worker_inv (c : config) : Prop :=
  forall a w pc,
    threads (shared c) !! a = Some w -> pcs c !! a = Some pc ->
    (at_running w = 0 <-> swapped pc = true) /\
    is_Some (queues (shared c) !! at_q w).


(** How a step may change the record and the position of a worker. *)
Definition record_step (w w' : aio_thread) (pc pc' : wpc) : Prop :=
  at_q w' = at_q w /\
  (((at_running w' = 0 <-> at_running w = 0) /\ swapped pc' = swapped pc) \/
   (pc = C_running /\ pc' = C_err /\ at_running w' = 0)).


(** A statement that leaves one component of the state as it is. *)
Definition preserves {X A : Type} (f : state -> X) (m : M A) : Prop :=
  forall st a st', m st = Some (a, st') -> f st' = f st.


(** *** The visits of [aio_cancel] *)

(** The events of one pass through lines 501-505 for the worker at [a],
    whose thread is [td], when the compare-and-swap returned [old]. *)
Definition visit_events (v : addr * Z * Z) : list event :=
  match v with
  | (a, old, td) =>
      EvCasRunning a old
        :: (if old =? 0 then [] else [EvCancel td; EvWait (W_running a)])
  end.

(** The other threads leave the identity of the workers alone: a record
    stays, with its thread and its handle. *)
Definition keeps_workers (env : state -> state) : Prop :=
  (forall s, trace (env s) = trace s) /\
  forall s a w, threads s !! a = Some w ->
    exists w', threads (env s) !! a = Some w' /\
               at_td w' = at_td w /\ at_cb w' = at_cb w.


(** The thread that an event sends a cancellation request to. *)
Definition cancel_of (e : event) : option Z :=
  match e with
  | EvCancel td => Some td
  | _ => None
  end.

(** The thread a visit cancels, if it does. *)
Definition visit_cancels (v : addr * Z * Z) : option Z :=
  if v.1.2 =? 0 then None else Some v.2.


(** The other threads leave the directory alone: the queues, the map and
    the count of queues. *)
Definition keeps_directory (env : state -> state) : Prop :=
  forall s, queues (env s) = queues s /\ aio_map (env s) = aio_map s /\
            aio_fd_cnt (env s) = aio_fd_cnt s.

(** Two states hold the same directory. *)
Definition same_directory (st st' : state) : Prop :=
  queues st' = queues st /\
  (forall fd, map_lookup (aio_map st') fd = map_lookup (aio_map st) fd) /\
  aio_fd_cnt st' = aio_fd_cnt st.


End Aio.

(** * A concrete process

    A small process on the Linux platform, on which the statements of the
    next part are evaluated: descriptor 3 is open on a seekable file in
    append mode and has a queue, descriptor 8 is open on a pipe and has
    none, descriptors 5 and 7 are not open. *)

(** A handle that asks for signal 10 with value 77 on completion. *)
Definition demo_sev : sigevent :=
  {| sigev_notify := 0; sigev_signo := 10; sigev_value := 77;
     sigev_notify_function := 0; sigev_notify_attributes := None |}.

Definition demo_cb (fd err : Z) : aiocb :=
  {| aio_fildes := fd; aio_lio_opcode := 0; aio_reqprio := 0; aio_buf := 0;
     aio_nbytes := 16; aio_sigevent := demo_sev; __err := err; __ret := 0;
     aio_offset := 0 |}.

Definition demo_queue (ref : Z) (lock : bool) : aio_queue :=
  set_q_lock lock (set_q_ref ref (new_queue 3)).

Definition demo_st : state :=
  {| errno := 0; maplock := RwFree;
     aio_map := Some {[ 0 := {[ 0 := {[ 0 := {[ 3 := 1%positive ]} ]} ]} ]};
     aio_fd_cnt := 1; __aio_fut := 1; io_thread_stack_size := 0;
     queues := {[ 1%positive := demo_queue 1 false ]};
     threads := ∅;
     cbs := {[ 1%positive := demo_cb 3 115; 2%positive := demo_cb 3 115;
               3%positive := demo_cb 7 2147483763;
               4%positive := demo_cb 5 115; 5%positive := demo_cb 8 115 ]};
     mem := 10;
     fdtab := {[ 3 := mk_fdesc true 1024; 8 := mk_fdesc false 0 ]};
     auxv_minsigstksz := 0; trace := [] |}.


(** The same process without memory left. *)
Definition demo_no_mem : state := set_mem 0 demo_st.

Definition demo_c0 : config := {| shared := demo_st; pcs := ∅ |}.

Definition demo_args (c : addr) (op : Z) : aio_args :=
  {| args_cb := c; args_q := 1%positive; args_op := op |}.

(** Two [aio_fsync] workers have started on the queue. *)
Definition demo_two_syncs : option config :=
  @exec linux [L_enter 10 100 (demo_args 1 (@O_SYNC linux));
               L_enter 11 101 (demo_args 2 (@O_SYNC linux))] demo_c0.

(** A write has started, and a sync behind it waits. *)
Definition demo_write_sync : list label :=
  [L_enter 10 100 (demo_args 1 LIO_WRITE);
   L_enter 11 101 (demo_args 2 (@O_SYNC linux))].

Definition demo_c2 : config :=
  default demo_c0 (@exec linux demo_write_sync demo_c0).

(** A second write arrives. *)
Definition demo_c3 : config :=
  default demo_c0
    (@step linux (L_enter 12 102 (demo_args 2 LIO_WRITE)) demo_c2).

(** One write has started and its I/O call has returned 16. *)
Definition demo_c1 : config :=
  default demo_c0
    (@exec linux [L_enter 10 100 (demo_args 1 LIO_WRITE); L_io 10 16 0]
       demo_c0).



(** A canceller gets its compare-and-swap in before the worker's
    [cleanup] swaps [running]. *)
Definition demo_cancel_env (k : nat) (s : state) : state :=
  match k with
  | O => set_threads (alter (set_at_running (-1)) 10%positive (threads s)) s
  | S _ => s
  end.

(** The workers that a canceller waits for finish. *)
Definition demo_finish_env (k : nat) (s : state) : state :=
  set_threads (set_at_running 0 <$> threads s) s.

Definition demo_idle (k : spoint) (s : state) : state := s.

(** The worker of the write on handle 1 runs, from its first statement to
    the end of its cleanup, while the submitter waits for the semaphore. *)
Definition demo_worker_runs (k : spoint) (s : state) : state :=
  match k with
  | S_sem =>
      match @io_thread_func linux 10 100 (demo_args 1 LIO_WRITE) 0
              (Completed 16 0) (fun _ s0 => s0) s with
      | Some (_, s') => s'
      | None => s
      end
  | _ => s
  end.

(** * Properties *)

Ltac munfold :=
  unfold mbind, mret, M_bind, M_ret, get, modify, emit, interfere, fault,
    get_errno, put_errno in *.

Section Proofs.
Context `{Platform}.

(** ** Running statements *)

Lemma bind_Some {A B : Type} (m : M A) (f : A -> M B) st b st' :
  (m ≫= f) st = Some (b, st') ->
  exists a st1, m st = Some (a, st1) /\ f a st1 = Some (b, st').
Proof.
  unfold mbind, M_bind. destruct (m st) as [[a st1]|]; [|done].
  intros Hf. by exists a, st1.
Qed.

Lemma bind_run {A B : Type} (m : M A) (f : A -> M B) st a st1 :
  m st = Some (a, st1) -> (m ≫= f) st = f a st1.
Proof. unfold mbind, M_bind. by intros ->. Qed.

Lemma load_cb_run c r st :
  cbs st !! c = Some r -> load_cb c st = Some (r, st).
Proof. unfold load_cb. by intros ->. Qed.

Lemma load_cb_Some c r st st' :
  load_cb c st = Some (r, st') -> st' = st /\ cbs st !! c = Some r.
Proof.
  unfold load_cb. destruct (cbs st !! c); [|done]. by intros [= -> ->].
Qed.

Lemma load_thread_run a w st :
  threads st !! a = Some w -> load_thread a st = Some (w, st).
Proof. unfold load_thread. by intros ->. Qed.

Lemma load_thread_Some a w st st' :
  load_thread a st = Some (w, st') -> st' = st /\ threads st !! a = Some w.
Proof.
  unfold load_thread. destruct (threads st !! a); [|done]. by intros [= -> ->].
Qed.

Lemma load_queue_run q r st :
  queues st !! q = Some r -> load_queue q st = Some (r, st).
Proof. unfold load_queue. by intros ->. Qed.

Lemma load_queue_Some q r st st' :
  load_queue q st = Some (r, st') -> st' = st /\ queues st !! q = Some r.
Proof.
  unfold load_queue. destruct (queues st !! q); [|done]. by intros [= -> ->].
Qed.

Lemma store_cb_run c f r st :
  cbs st !! c = Some r ->
  store_cb c f st = Some (tt, set_cbs (<[c := f r]> (cbs st)) st).
Proof. intros Hc. unfold store_cb. by rewrite (bind_run _ _ _ _ _ (load_cb_run _ _ _ Hc)). Qed.


Lemma store_queue_run q f r st :
  queues st !! q = Some r ->
  store_queue q f st = Some (tt, set_queues (<[q := f r]> (queues st)) st).
Proof.
  intros Hq. unfold store_queue.
  by rewrite (bind_run _ _ _ _ _ (load_queue_run _ _ _ Hq)).
Qed.

(** ** Status: [aio_error] and [aio_return] *)

Lemma land_low31 (x : Z) :
  Z.land x 2147483647 = x mod 2 ^ 31 /\
  0 <= Z.land x 2147483647 < 2 ^ 31 /\
  Z.testbit (Z.land x 2147483647) 31 = false.
Proof.
  change 2147483647 with (Z.ones 31).
  rewrite Z.land_ones by lia.
  split; [reflexivity|]. split; [apply Z.mod_pos_bound; lia|].
  apply Z.mod_pow2_bits_high. lia.
Qed.

(** C8.  For every handle, [aio_error] returns the low 31 bits of the
    handle's [__err] slot, after a barrier and without changing any handle:
    the value is [__err mod 2^31], it is non-negative and below [2^31], and
    its bit 31 is clear.  [aio_return] returns the [__ret] slot as it is
    and changes nothing. *)
Theorem aio_error_low_bits_aio_return_verbatim (c : addr) (r : aiocb)
    (st : state) :
  cbs st !! c = Some r ->
  aio_error c st
    = Some (Z.land (__err r) 2147483647,
            set_trace (trace st ++ [EvBarrier]) st) /\
  Z.land (__err r) 2147483647 = __err r mod 2 ^ 31 /\
  0 <= Z.land (__err r) 2147483647 < 2 ^ 31 /\
  Z.testbit (Z.land (__err r) 2147483647) 31 = false /\
  aio_return c st = Some (__ret r, st).
Proof.
  intros Hc. split.
  - unfold aio_error, a_barrier, load_cb. munfold. simpl. by rewrite Hc.
  - pose proof (land_low31 (__err r)) as (H1 & H2 & H3).
    repeat split; try assumption; try lia.
    unfold aio_return, load_cb. munfold. by rewrite Hc.
Qed.

(** ** Invalid arguments *)

(** C7.  [aio_cancel] with a handle whose descriptor differs from the
    [fd] argument, and [aio_fsync] with a flag that is neither [O_SYNC] nor
    [O_DSYNC], return [-1] and set [errno] to [EINVAL]; nothing else in the
    state changes, so the handle keeps its [__err] and [__ret]. *)
Theorem invalid_argument_keeps_handle :
  (forall fd c r env st,
      cbs st !! c = Some r -> fd <> aio_fildes r ->
      aio_cancel fd (Some c) env st = Some (-1, set_errno EINVAL st) /\
      errno (set_errno EINVAL st) = EINVAL /\
      cbs (set_errno EINVAL st) = cbs st) /\
  (forall op c spawn_ok env st,
      op <> O_SYNC -> op <> O_DSYNC ->
      aio_fsync op c spawn_ok env st = Some (-1, set_errno EINVAL st) /\
      errno (set_errno EINVAL st) = EINVAL /\
      cbs (set_errno EINVAL st) = cbs st).
Proof.
  split.
  - intros fd c r env st Hc Hne. split; [|done].
    unfold aio_cancel, load_cb. munfold. rewrite Hc.
    by destruct (Z.eqb_spec fd (aio_fildes r)).
  - intros op c ok env st H1 H2. split; [|done].
    unfold aio_fsync. munfold.
    destruct (Z.eqb_spec op O_SYNC); [done|].
    by destruct (Z.eqb_spec op O_DSYNC).
Qed.

(** ** Looking up a queue *)

Lemma get_queue_negative fd need env st :
  fd < 0 ->
  __aio_get_queue fd need env st = Some (None, set_errno EBADF st).
Proof.
  intros Hfd. unfold __aio_get_queue.
  by destruct (Z.ltb_spec fd 0); [|lia].
Qed.

Lemma get_queue_absent fd env st :
  0 <= fd -> map_lookup (aio_map st) fd = None ->
  __aio_get_queue fd false env st
    = Some (None, set_trace (trace st ++ [EvRdLock; EvRwUnlock])
                    (set_maplock RwFree st)).
Proof.
  intros Hfd Hm. unfold __aio_get_queue.
  destruct (Z.ltb_spec fd 0); [lia|].
  unfold pthread_rwlock_rdlock, pthread_rwlock_unlock. munfold. simpl.
  rewrite Hm. simpl. by rewrite <- app_assoc.
Qed.

Lemma aio_cancel_past_check fd cb env st :
  handle_matches fd cb st ->
  aio_cancel fd cb env st
  = (sigmask_block_all;;
     put_errno ENOENT;;
     q ← __aio_get_queue fd false (fun s => s);
     match q with
     | None =>
         e ← get_errno;
         sigmask_restore;;
         mret (if e =? EBADF then -1 else AIO_ALLDONE)
     | Some q =>
         r ← load_queue q;
         st ← get;
         ret ← cancel_loop (S (size (threads st))) cb env (q_head r)
                 AIO_ALLDONE;
         pthread_mutex_unlock q;;
         sigmask_restore;;
         mret ret
     end) st.
Proof.
  intros Hm. unfold aio_cancel. destruct cb as [c|]; [|reflexivity].
  destruct Hm as (r & Hc & Hfd).
  rewrite (bind_run _ _ st (negb (fd =? aio_fildes r)) st).
  - by rewrite Hfd, Z.eqb_refl.
  - by rewrite (bind_run _ _ _ _ _ (load_cb_run _ _ _ Hc)).
Qed.

(** ** The result of [aio_cancel] *)

Lemma cancel_loop_result (fuel : nat) :
  forall cb env p ret st r st',
    cancel_loop fuel cb env p ret st = Some (r, st') ->
    r = ret \/ r = AIO_CANCELED.
Proof.
  induction fuel as [|f IH]; intros cb env p ret st r st' Hrun.
  - destruct p; simpl in Hrun; [done|]. injection Hrun as <- _. by left.
  - destruct p as [pa|]; simpl in Hrun.
    2:{ injection Hrun as <- _. by left. }
    apply bind_Some in Hrun as (w & st1 & _ & Hrun).
    destruct (match cb with
              | Some c => negb (Pos.eqb c (at_cb w))
              | None => false
              end).
    { by eapply IH. }
    apply bind_Some in Hrun as (old & st2 & _ & Hrun).
    destruct (negb (old =? 0)).
    + apply bind_Some in Hrun as (? & st3 & _ & Hrun).
      apply bind_Some in Hrun as (? & st4 & _ & Hrun).
      apply bind_Some in Hrun as (w' & st5 & _ & Hrun).
      apply IH in Hrun.
      destruct (at_err w' =? ECANCELED); destruct Hrun; auto.
    + by eapply IH.
Qed.

(** C10.  Whatever the state, the handle and the other threads do,
    a result of [aio_cancel] is [-1], [AIO_CANCELED] or [AIO_ALLDONE]; it
    is never [AIO_NOTCANCELED], the value 1 that [aio.h] defines. *)
Theorem aio_cancel_never_notcanceled (fd : Z) (cb : option addr)
    (env : nat -> state -> state) (st st' : state) (r : Z) :
  aio_cancel fd cb env st = Some (r, st') ->
  (r = -1 \/ r = AIO_CANCELED \/ r = AIO_ALLDONE) /\
  r <> AIO_NOTCANCELED /\ AIO_NOTCANCELED = 1.
Proof.
  intros Hrun.
  assert (r = -1 \/ r = AIO_CANCELED \/ r = AIO_ALLDONE) as Hr.
  { unfold aio_cancel in Hrun.
    apply bind_Some in Hrun as (mm & st1 & _ & Hrun).
    destruct mm.
    { apply bind_Some in Hrun as (? & st2 & _ & Hrun).
      injection Hrun as <- _. by left. }
    apply bind_Some in Hrun as (? & st2 & _ & Hrun).
    apply bind_Some in Hrun as (? & st3 & _ & Hrun).
    apply bind_Some in Hrun as (q & st4 & _ & Hrun).
    destruct q as [q|].
    - apply bind_Some in Hrun as (qr & st5 & _ & Hrun).
      apply bind_Some in Hrun as (s & st6 & _ & Hrun).
      apply bind_Some in Hrun as (ret & st7 & Hloop & Hrun).
      apply bind_Some in Hrun as (? & st8 & _ & Hrun).
      apply bind_Some in Hrun as (? & st9 & _ & Hrun).
      injection Hrun as <- _.
      apply cancel_loop_result in Hloop. destruct Hloop; auto.
    - apply bind_Some in Hrun as (e & st5 & _ & Hrun).
      apply bind_Some in Hrun as (? & st6 & _ & Hrun).
      injection Hrun as <- _.
      destruct (e =? EBADF); auto. }
  split; [exact Hr|]. split; [|reflexivity].
  unfold AIO_NOTCANCELED, AIO_CANCELED, AIO_ALLDONE in *. lia.
Qed.

(** ** The map and the reference count *)

Lemma map_store_spec fd v st st' :
  map_store fd v st = Some (tt, st') ->
  (forall fd', key fd' = key fd -> map_lookup (aio_map st') fd' = v) /\
  (forall fd', key fd' <> key fd ->
     map_lookup (aio_map st') fd' = map_lookup (aio_map st) fd') /\
  st' = set_aio_map (aio_map st') st.
Proof.
  unfold map_store. intros Hs.
  destruct (aio_map st) as [t|] eqn:Hm; [|discriminate Hs].
  destruct (t !! idx_a fd) as [ta|] eqn:Ha; [|discriminate Hs].
  destruct (ta !! idx_b fd) as [tb|] eqn:Hb; [|discriminate Hs].
  destruct (tb !! idx_c fd) as [tc|] eqn:Hc; [|discriminate Hs].
  simplify_eq. split; [|split; [|reflexivity]].
  - intros fd'. unfold key. intros [= Ea Eb Ec Ed].
    unfold set_aio_map, aio_map at 1, map_lookup.
    rewrite Ea, Eb, Ec, Ed, !lookup_insert_eq.
    destruct v; [apply lookup_insert_eq | apply lookup_delete_eq].
  - intros fd' Hne. unfold set_aio_map, aio_map at 1, map_lookup.
    destruct (decide (idx_a fd' = idx_a fd)) as [Ea|Na].
    2:{ rewrite lookup_insert_ne by done. reflexivity. }
    rewrite Ea, lookup_insert_eq.
    destruct (decide (idx_b fd' = idx_b fd)) as [Eb|Nb].
    2:{ rewrite lookup_insert_ne by done. rewrite Ha. reflexivity. }
    rewrite Eb, lookup_insert_eq.
    destruct (decide (idx_c fd' = idx_c fd)) as [Ec|Nc].
    2:{ rewrite lookup_insert_ne by done. rewrite Ha, Hb. reflexivity. }
    rewrite Ec, lookup_insert_eq.
    destruct (decide (idx_d fd' = idx_d fd)) as [Ed|Nd].
    { exfalso. apply Hne. unfold key. congruence. }
    rewrite Ha, Hb, Hc.
    destruct v; [by rewrite lookup_insert_ne | by rewrite lookup_delete_ne].
Qed.

Lemma map_store_run fd v st q0 :
  map_lookup (aio_map st) fd = Some q0 ->
  exists st', map_store fd v st = Some (tt, st').
Proof.
  unfold map_lookup, map_store. intros Hl.
  destruct (aio_map st) as [t|]; [|discriminate].
  destruct (t !! idx_a fd) as [ta|]; [|discriminate].
  destruct (ta !! idx_b fd) as [tb|]; [|discriminate].
  destruct (tb !! idx_c fd) as [tc|]; [|discriminate]. eauto.
Qed.

Lemma map_lookup_key m fd fd' :
  key fd = key fd' -> map_lookup m fd = map_lookup m fd'.
Proof.
  unfold key, map_lookup. intros [= Ea Eb Ec Ed].
  by rewrite Ea, Eb, Ec, Ed.
Qed.

Lemma mutex_unlock_run q r st :
  queues st !! q = Some r ->
  pthread_mutex_unlock q st = Some (tt, after_unlock q r st).
Proof.
  intros Hq. unfold pthread_mutex_unlock.
  by rewrite (bind_run _ _ _ _ _ (store_queue_run _ _ _ _ Hq)).
Qed.

Lemma mutex_lock_run q r st :
  queues st !! q = Some r ->
  pthread_mutex_lock q st = Some (tt, after_lock q r st).
Proof.
  intros Hq. unfold pthread_mutex_lock.
  by rewrite (bind_run _ _ _ _ _ (store_queue_run _ _ _ _ Hq)).
Qed.

Lemma unref_fast q r env st :
  queues st !! q = Some r -> 1 < q_ref r ->
  __aio_unref_queue q env st
  = Some (tt, after_unlock q (set_q_ref (q_ref r - 1) r) st).
Proof.
  intros Hq Href. unfold __aio_unref_queue.
  rewrite (bind_run _ _ _ _ _ (load_queue_run _ _ _ Hq)).
  destruct (Z.ltb_spec 1 (q_ref r)); [|lia].
  rewrite (bind_run _ _ _ _ _ (store_queue_run _ _ _ _ Hq)).
  erewrite mutex_unlock_run; [|apply lookup_insert_eq].
  unfold after_unlock. simpl. by rewrite insert_insert_eq.
Qed.

(** The second half of [__aio_unref_queue] (lines 217-232), from the state
    [st2] in which the thread gets the write lock. *)
Lemma unref_slow_enter q r env st :
  queues st !! q = Some r -> q_ref r <= 1 ->
  __aio_unref_queue q env st
  = unref_relocked q (env (after_unlock q r st)).
Proof.
  intros Hq Href. unfold __aio_unref_queue.
  rewrite (bind_run _ _ _ _ _ (load_queue_run _ _ _ Hq)).
  destruct (Z.ltb_spec 1 (q_ref r)); [lia|].
  rewrite (bind_run _ _ _ _ _ (mutex_unlock_run _ _ _ Hq)).
  reflexivity.
Qed.

Lemma unref_slow_last q st2 r2 q0 :
  queues st2 !! q = Some r2 -> q_ref r2 = 1 ->
  map_lookup (aio_map st2) (q_fd r2) = Some q0 ->
  exists st',
    unref_relocked q st2 = Some (tt, st') /\
    queues st' = delete q (queues st2) /\
    (forall fd', key fd' = key (q_fd r2) ->
       map_lookup (aio_map st') fd' = None) /\
    (forall fd', key fd' <> key (q_fd r2) ->
       map_lookup (aio_map st') fd' = map_lookup (aio_map st2) fd') /\
    aio_fd_cnt st' = aio_fd_cnt st2 - 1 /\
    maplock st' = RwFree /\
    threads st' = threads st2 /\ cbs st' = cbs st2 /\
    trace st' = trace st2 ++ [EvWrLock; EvMutexLock q; EvRwUnlock;
                              EvMutexUnlock q; EvFree q].
Proof.
  intros Hq Href Hmap.
  unfold unref_relocked, pthread_rwlock_wrlock, pthread_rwlock_unlock.
  set (s1 := set_trace (trace st2 ++ [EvWrLock]) (set_maplock RwWrite st2)).
  assert (queues s1 !! q = Some r2) as Hq1 by exact Hq.
  destruct (map_store_run (q_fd r2) None (after_lock q r2 s1) q0) as [s3 Hs3];
    [exact Hmap|].
  pose proof (map_store_spec _ _ _ _ Hs3) as (Hlk1 & Hlk2 & Hs3eq).
  eexists. split.
  - munfold. simpl. fold s1.
    rewrite (mutex_lock_run _ _ _ Hq1).
    unfold load_queue at 1. simpl. rewrite lookup_insert_eq. simpl.
    rewrite Href. simpl. rewrite Hs3.
    erewrite mutex_unlock_run.
    2:{ simpl. rewrite Hs3eq. simpl. apply lookup_insert_eq. }
    reflexivity.
  - simpl. rewrite Hs3eq. simpl.
    split; [by rewrite insert_insert_eq, delete_insert_eq|].
    split; [exact Hlk1|]. split; [exact Hlk2|].
    repeat split. rewrite <- !app_assoc. reflexivity.
Qed.


Lemma dir_inv_update q r r' st st' :
  dir_inv st ->
  queues st !! q = Some r -> in_map st q ->
  aio_map st' = aio_map st ->
  queues st' = <[q := r']> (queues st) ->
  q_fd r' = q_fd r ->
  (q_lock r' = false -> 0 < q_ref r') ->
  dir_inv st'.
Proof.
  intros [Hent Hiff] Hq Hin Hmap Hqs Hfd Hpos. split.
  - intros fd q' Hl. rewrite Hmap in Hl.
    destruct (Hent _ _ Hl) as (rr & Hrr & Hk).
    rewrite Hqs. destruct (decide (q' = q)) as [->|Hne].
    + rewrite lookup_insert_eq. exists r'. split; [done|].
      rewrite Hfd. congruence.
    + rewrite lookup_insert_ne by done. eauto.
  - intros q' rr Hrr Hl. unfold in_map. rewrite Hmap.
    rewrite Hqs in Hrr. destruct (decide (q' = q)) as [->|Hne].
    + rewrite lookup_insert_eq in Hrr. simplify_eq.
      split; [auto|]. intros _. exact Hin.
    + rewrite lookup_insert_ne in Hrr by done. by apply Hiff.
Qed.


(** ** Failed submissions *)

Lemma store_ret_run c v cb st :
  cbs st !! c = Some cb ->
  store_ret c v st
  = Some (tt, set_trace (trace st ++ [EvStoreRet c v])
                (set_cbs (<[c := set___ret v cb]> (cbs st)) st)).
Proof.
  intros Hc. unfold store_ret.
  by rewrite (bind_run _ _ _ _ _ (store_cb_run _ _ _ _ Hc)).
Qed.

Lemma store_err_run c v cb st :
  cbs st !! c = Some cb ->
  store_err c v st = Some (tt, stamped_err c v cb st).
Proof.
  intros Hc. unfold store_err.
  by rewrite (bind_run _ _ _ _ _ (store_cb_run _ _ _ _ Hc)).
Qed.

(** ** Doubly linked lists in the heap of worker records *)

Lemma dll_frame th th' px p l :
  dll th px p l ->
  (forall a w, a ∈ l -> th !! a = Some w ->
     exists w', th' !! a = Some w' /\ at_next w' = at_next w /\
                at_prev w' = at_prev w) ->
  dll th' px p l.
Proof.
  revert px p. induction l as [|a l IH]; intros px p Hd Hfr; [exact Hd|].
  destruct Hd as (-> & w & Hw & Hprev & Hd).
  destruct (Hfr a w) as (w' & Hw' & Hn & Hp); [left|done|].
  split; [done|]. exists w'. split; [done|]. split; [congruence|].
  rewrite Hn. apply IH; [done|].
  intros b wb Hb. apply Hfr. by right.
Qed.

Lemma dll_lookup th px p l a :
  dll th px p l -> a ∈ l -> is_Some (th !! a).
Proof.
  revert px p. induction l as [|b l IH]; intros px p Hd Ha.
  - by apply elem_of_nil in Ha.
  - destruct Hd as (-> & w & Hw & _ & Hd).
    apply elem_of_cons in Ha as [->|Ha]; [eauto|]. by eapply IH.
Qed.

Lemma dll_head th px p l :
  dll th px p l -> p = head l.
Proof. destruct l; [done|]. by intros [-> _]. Qed.

(** The part of the list behind [a], and what [a]'s own pointers are. *)
Lemma dll_split th px p l1 a l2 :
  dll th px p (l1 ++ a :: l2) ->
  exists w, th !! a = Some w /\
            at_prev w = match last l1 with Some b => Some b | None => px end /\
            at_next w = head l2 /\
            dll th (Some a) (at_next w) l2.
Proof.
  revert px p. induction l1 as [|b l1 IH]; intros px p Hd.
  - destruct Hd as (-> & w & Hw & Hp & Hd). exists w.
    repeat split; try done. by apply dll_head in Hd.
  - destruct Hd as (-> & wb & Hwb & Hp & Hd).
    destruct (IH _ _ Hd) as (w & Hw & Hpw & Hnw & Hd2).
    exists w. repeat split; try done.
    rewrite Hpw. destruct l1 as [|b' l1]; [done|].
    change (last (b :: b' :: l1)) with (last (b' :: l1)).
    destruct (last (b' :: l1)) eqn:E; [done|].
    by apply last_None in E.
Qed.

Lemma alter_lookup_Some {A : Type} (f : A -> A) (th : gmap addr A) a w :
  th !! a = Some w -> alter f a th = <[a := f w]> th.
Proof.
  intros Hw. apply map_eq. intros b.
  destruct (decide (a = b)) as [->|Hne].
  - by rewrite lookup_alter_eq, lookup_insert_eq, Hw.
  - by rewrite lookup_alter_ne, lookup_insert_ne.
Qed.

(** Redirecting the back pointer of the first record. *)
Lemma dll_set_prev th px px' p l :
  dll th px p l -> NoDup l ->
  dll (match p with
       | Some n => alter (set_at_prev px') n th
       | None => th
       end) px' p l.
Proof.
  destruct l as [|a l]; intros Hd Hnd.
  - simpl in Hd. by subst p.
  - destruct Hd as (-> & w & Hw & Hp & Hd).
    apply NoDup_cons in Hnd as [Hal _].
    split; [done|]. exists (set_at_prev px' w).
    split; [by rewrite lookup_alter_eq, Hw|]. split; [done|]. simpl.
    eapply dll_frame; [exact Hd|].
    intros b wb Hb Hwb. exists wb.
    rewrite lookup_alter_ne; [done|]. intros ->. done.
Qed.

Lemma dll_unlink th w a l2 :
  forall l1 px p,
    dll th px p (l1 ++ a :: l2) ->
    NoDup (l1 ++ a :: l2) ->
    th !! a = Some w ->
    (forall x, px = Some x -> x ∉ l1 ++ a :: l2) ->
    dll (unlink_heap th w) px
      (match l1 with [] => at_next w | _ => p end) (l1 ++ l2).
Proof.
  induction l1 as [|b l1 IH]; intros px p Hd Hnd Hw Hpx.
  - simpl in *. destruct Hd as (-> & w' & Hw' & Hp & Hd).
    assert (w' = w) as -> by congruence.
    apply NoDup_cons in Hnd as [Hal Hnd2].
    unfold unlink_heap. rewrite Hp.
    pose proof (dll_set_prev _ _ px _ _ Hd Hnd2) as Hd1.
    destruct px as [x|]; [|exact Hd1].
    eapply dll_frame; [exact Hd1|].
    intros c wc Hc Hwc. exists wc. rewrite lookup_alter_ne; [done|].
    intros Heq. apply (Hpx x eq_refl). right. by rewrite Heq.
  - simpl in Hd. destruct Hd as (-> & wb & Hwb & Hpb & Hd).
    simpl in Hnd. apply NoDup_cons in Hnd as [Hbl Hnd'].
    assert (forall x, Some b = Some x -> x ∉ l1 ++ a :: l2) as Hpx'.
    { by intros x [= <-]. }
    pose proof (IH _ _ Hd Hnd' Hw Hpx') as IHd.
    destruct (dll_split _ _ _ _ _ _ Hd) as (w' & Hw' & Hpw & Hnw & Hd2).
    assert (w' = w) as -> by congruence.
    assert (a <> b) as Hab.
    { intros ->. apply Hbl. apply elem_of_app. right. left. }
    assert (at_next w <> Some b) as Hnb.
    { rewrite Hnw. intros Hh. apply Hbl. apply elem_of_app. right. right.
      destruct l2; [done|]. injection Hh as ->. left. }
    simpl. split; [done|].
    unfold unlink_heap in *.
    destruct l1 as [|b' l1].
    + simpl in Hpw. rewrite Hpw in *.
      exists (set_at_next (at_next w) wb).
      split.
      { rewrite lookup_alter_eq.
        destruct (at_next w) as [n|] eqn:Hn.
        - rewrite lookup_alter_ne by congruence. by rewrite Hwb.
        - by rewrite Hwb. }
      split; [done|]. exact IHd.
    + exists wb.
      assert (at_prev w <> Some b) as Hpb'.
      { rewrite Hpw. destruct (last (b' :: l1)) as [z|] eqn:Hz;
          [|by apply last_None in Hz].
        intros [= ->]. apply Hbl. apply elem_of_app. left.
        by apply last_Some_elem_of. }
      split.
      { destruct (at_prev w) as [p0|]; destruct (at_next w) as [n|];
          rewrite ?lookup_alter_ne by congruence; done. }
      split; [done|]. exact IHd.
Qed.

Lemma first_write_None th l :
  first_write th l = None <-> forall b, b ∈ l -> is_write th b = false.
Proof.
  induction l as [|a l IH]; simpl.
  - split; [|done]. intros _ b Hb. by apply elem_of_nil in Hb.
  - destruct (is_write th a) eqn:Ha.
    + split; [done|]. intros Hall. rewrite Hall in Ha; [done|left].
    + rewrite IH. split.
      * intros Hall b Hb. apply elem_of_cons in Hb as [->|Hb]; auto.
      * intros Hall b Hb. apply Hall. by right.
Qed.

Lemma first_write_agree th th' l :
  (forall b, b ∈ l -> is_write th' b = is_write th b) ->
  first_write th' l = first_write th l.
Proof.
  induction l as [|a l IH]; intros Hag; [done|]. simpl.
  rewrite Hag by left. rewrite IH; [done|].
  intros b Hb. apply Hag. by right.
Qed.

(** [scan] along a well-formed list finds the first write, provided the
    fuel covers the list. *)
Lemma scan_dll st px :
  forall l fuel p,
    dll (threads st) px p l -> (length l < fuel)%nat ->
    scan fuel p st = Some (first_write (threads st) l, st).
Proof.
  intros l. revert px. induction l as [|a l IH]; intros px fuel p Hd Hlen.
  - simpl in Hd. subst p. by destruct fuel.
  - destruct Hd as (-> & w & Hw & _ & Hd).
    destruct fuel as [|f]; [simpl in Hlen; lia|]. simpl.
    rewrite (bind_run _ _ _ _ _ (load_thread_run _ _ _ Hw)).
    unfold is_write. rewrite Hw.
    destruct (at_op w =? LIO_WRITE); simpl; [done|].
    eapply IH; [exact Hd|]. simpl in Hlen. lia.
Qed.

Lemma NoDup_length_size (th : gmap addr aio_thread) (l : list addr) :
  NoDup l -> (forall a, a ∈ l -> is_Some (th !! a)) ->
  (length l <= size th)%nat.
Proof.
  intros Hnd Hin.
  rewrite <- (size_dom th).
  rewrite <- (size_list_to_set (C := gset addr) l Hnd).
  apply subseteq_size. intros a Ha.
  apply elem_of_list_to_set in Ha. apply elem_of_dom. by apply Hin.
Qed.

(** ** The invariant of the interleaving semantics *)

Lemma store_thread_Some a f (u : unit) st st' :
  store_thread a f st = Some (u, st') ->
  exists w, threads st !! a = Some w /\
            st' = set_threads (<[a := f w]> (threads st)) st.
Proof.
  unfold store_thread. intros Hs.
  apply bind_Some in Hs as (w & s1 & Hl & Hs).
  apply load_thread_Some in Hl as [-> Hw].
  exists w. split; [done|]. unfold modify in Hs. congruence.
Qed.

Lemma store_queue_Some q f (u : unit) st st' :
  store_queue q f st = Some (u, st') ->
  exists r, queues st !! q = Some r /\
            st' = set_queues (<[q := f r]> (queues st)) st.
Proof.
  unfold store_queue. intros Hs.
  apply bind_Some in Hs as (r & s1 & Hl & Hs).
  apply load_queue_Some in Hl as [-> Hr].
  exists r. split; [done|]. unfold modify in Hs. congruence.
Qed.

Lemma store_cb_Some c f (u : unit) st st' :
  store_cb c f st = Some (u, st') ->
  exists r, cbs st !! c = Some r /\
            st' = set_cbs (<[c := f r]> (cbs st)) st.
Proof.
  unfold store_cb. intros Hs.
  apply bind_Some in Hs as (r & s1 & Hl & Hs).
  apply load_cb_Some in Hl as [-> Hr].
  exists r. split; [done|]. unfold modify in Hs. congruence.
Qed.

Lemma is_write_agree th th' b :
  (forall w, th !! b = Some w ->
     exists w', th' !! b = Some w' /\ at_op w' = at_op w) ->
  is_Some (th !! b) ->
  is_write th' b = is_write th b.
Proof.
  intros Hag [w Hw]. unfold is_write. rewrite Hw.
  destruct (Hag w Hw) as (w' & -> & ->). done.
Qed.

(** The invariant reads only the worker records, the queues and the
    program counters. *)
Lemma inv_ext c c' :
  threads (shared c') = threads (shared c) ->
  queues (shared c') = queues (shared c) ->
  pcs c' = pcs c ->
  inv c -> inv c'.
Proof.
  intros Ht Hq Hp (Hqs & Hth & Hpt). split; [|split].
  - intros q r Hr. rewrite Hq in Hr. destruct (Hqs q r Hr) as [l Hl].
    exists l. unfold queue_inv in *. by rewrite Ht, Hp.
  - intros a w Hw. rewrite Ht in Hw. rewrite Hp. by apply Hth.
  - intros a. rewrite Ht, Hp. apply Hpt.
Qed.

(** A step of the worker [a] that leaves the list pointers, the queue and
    the operation of every record alone. *)
Lemma inv_light_upd c c' a w w' pc pc' :
  inv c ->
  threads (shared c) !! a = Some w -> pcs c !! a = Some pc ->
  threads (shared c') = <[a := w']> (threads (shared c)) ->
  at_next w' = at_next w -> at_prev w' = at_prev w ->
  at_q w' = at_q w -> at_op w' = at_op w ->
  (at_running w' = 1 \/ at_running w' = -1 \/ at_running w' = 0) ->
  (forall q,
     match queues (shared c') !! q, queues (shared c) !! q with
     | Some r', Some r =>
         q_head r' = q_head r /\ q_init r' = q_init r /\
         q_append r' = q_append r
     | None, None => True
     | _, _ => False
     end) ->
  pcs c' = <[a := pc']> (pcs c) -> linked pc' = linked pc ->
  (pc' = W_io ->
   pc = W_io \/
   forall r l, queues (shared c) !! at_q w = Some r ->
               queue_inv c (at_q w) r l ->
               seq_ok (threads (shared c)) r l a) ->
  inv c'.
Proof.
  intros (Hqs & Hth & Hpt) Hw Hpc Ht Hn Hp Hq Hop Hrun Hqq Hpcs Hlk Hio.
  assert (forall b wb, threads (shared c) !! b = Some wb ->
            exists wb', threads (shared c') !! b = Some wb' /\
                        at_next wb' = at_next wb /\ at_prev wb' = at_prev wb /\
                        at_q wb' = at_q wb /\ at_op wb' = at_op wb) as Hfw.
  { intros b wb Hb. rewrite Ht. destruct (decide (b = a)) as [->|Hne].
    - rewrite lookup_insert_eq. exists w'.
      assert (wb = w) as -> by congruence. done.
    - rewrite lookup_insert_ne by done. by exists wb. }
  assert (forall b wb', threads (shared c') !! b = Some wb' ->
            exists wb, threads (shared c) !! b = Some wb /\
                       at_q wb' = at_q wb /\ at_op wb' = at_op wb) as Hbw.
  { intros b wb' Hb. rewrite Ht in Hb. destruct (decide (b = a)) as [->|Hne].
    - rewrite lookup_insert_eq in Hb. exists w.
      assert (wb' = w') as -> by congruence. done.
    - rewrite lookup_insert_ne in Hb by done. by exists wb'. }
  assert (forall b, linked <$> pcs c' !! b = linked <$> pcs c !! b) as Hlink.
  { intros b. rewrite Hpcs. destruct (decide (b = a)) as [->|Hne].
    - rewrite lookup_insert_eq, Hpc. simpl. by rewrite Hlk.
    - by rewrite lookup_insert_ne. }
  split; [|split].
  - intros q r' Hr'. specialize (Hqq q). rewrite Hr' in Hqq.
    destruct (queues (shared c) !! q) as [r|] eqn:Hr; [|done].
    destruct Hqq as (Hh & Hi & Ha).
    destruct (Hqs q r Hr) as (l & Hdll & Hnd & Hmem & Hinit & Hseq).
    exists l. split; [|split; [exact Hnd|split; [|split]]].
    + rewrite Hh. eapply dll_frame; [exact Hdll|].
      intros b wb _ Hb. destruct (Hfw b wb Hb) as (wb' & ? & ? & ? & _).
      eauto.
    + intros b. rewrite Hmem. split.
      * intros (wb & pcb & Hb & Hbq & Hbp & Hbl).
        destruct (Hfw b wb Hb) as (wb' & Hb' & _ & _ & Hq' & _).
        specialize (Hlink b). rewrite Hbp in Hlink. simpl in Hlink.
        destruct (pcs c' !! b) as [pcb'|]; [|done]. simpl in Hlink.
        exists wb', pcb'. repeat split; try done; congruence.
      * intros (wb' & pcb' & Hb' & Hbq & Hbp & Hbl).
        destruct (Hbw b wb' Hb') as (wb & Hb & Hq' & _).
        specialize (Hlink b). rewrite Hbp in Hlink. simpl in Hlink.
        destruct (pcs c !! b) as [pcb|]; [|done]. simpl in Hlink.
        exists wb, pcb. repeat split; try done; congruence.
    + by rewrite Hi.
    + intros x Hx.
      assert (seq_ok (threads (shared c)) r l x) as Hold.
      { rewrite Hpcs in Hx. destruct (decide (x = a)) as [->|Hne].
        - rewrite lookup_insert_eq in Hx. injection Hx as ->.
          destruct (Hio eq_refl) as [->|Hnew]; [exact (Hseq a Hpc)|].
          destruct (decide (q = at_q w)) as [->|Hqne].
          + apply Hnew; [done|].
            exact (conj Hdll (conj Hnd (conj Hmem (conj Hinit Hseq)))).
          + intros l1 l2 wx Hl _ _.
            assert (a ∈ l) as Hal.
            { rewrite Hl. apply elem_of_app. right. left. }
            apply Hmem in Hal as (wa & ? & Hwa & Hqa & _).
            congruence.
        - rewrite lookup_insert_ne in Hx by done. exact (Hseq x Hx). }
      intros l1 l2 wx' Hl Hwx' Hsq b Hb.
      destruct (Hbw x wx' Hwx') as (wx & Hwx & _ & Hopx).
      assert (is_Some (threads (shared c) !! b)) as Hsb.
      { eapply dll_lookup; [exact Hdll|]. rewrite Hl.
        apply elem_of_app. right. by right. }
      rewrite (is_write_agree (threads (shared c)) (threads (shared c')) b);
        [|intros wb Hwb; destruct (Hfw b wb Hwb) as (wb' & ? & _ & _ & _ & ?);
          eauto|done].
      eapply Hold; try done.
      unfold sequenced in *. by rewrite <- Hopx, <- Ha.
  - intros b wb' Hb'. rewrite Ht in Hb'.
    specialize (Hlink b).
    destruct (decide (b = a)) as [->|Hne].
    + rewrite lookup_insert_eq in Hb'. injection Hb' as <-.
      split; [|done]. rewrite Hpcs, lookup_insert_eq. eauto.
    + rewrite lookup_insert_ne in Hb' by done.
      destruct (Hth b wb' Hb') as [Hsome Hr]. split; [|done].
      rewrite Hpcs, lookup_insert_ne by done. done.
  - intros b Hb. rewrite Ht. rewrite Hpcs in Hb.
    destruct (decide (b = a)) as [->|Hne].
    + rewrite lookup_insert_eq. eauto.
    + rewrite lookup_insert_ne by done. rewrite lookup_insert_ne in Hb by done.
      by apply Hpt.
Qed.

(** *** What the statements of a step do to the records and the queues *)

Ltac mbind H x s H1 := apply bind_Some in H as (x & s & H1 & H).

Lemma emit_Some e st u st' :
  emit e st = Some (u, st') -> st' = set_trace (trace st ++ [e]) st.
Proof. unfold emit, modify. congruence. Qed.

Lemma mret_Some {A : Type} (a b : A) (st st' : state) :
  (mret a : M A) st = Some (b, st') -> b = a /\ st' = st.
Proof. unfold mret, M_ret. intros [= -> ->]. done. Qed.

Lemma io_perform_effect a f b st st' :
  io_perform a f st = Some (b, st') ->
  exists w, threads st !! a = Some w /\
    queues st' = queues st /\
    threads st'
    = <[a := match f with
             | Completed ret e =>
                 set_at_result ret (if ret <? 0 then e else 0) w
             | _ => w
             end]> (threads st).
Proof.
  unfold io_perform. intros Hr.
  mbind Hr w s1 Hw. apply load_thread_Some in Hw as [-> Hw].
  mbind Hr r s1 Hq. apply load_queue_Some in Hq as [-> Hq].
  mbind Hr cb s1 Hc. apply load_cb_Some in Hc as [-> Hc].
  destruct (io_call_of (at_op w) r); [|discriminate Hr].
  mbind Hr u2 s2 He. apply emit_Some in He as ->.
  exists w. split; [done|].
  destruct f.
  - mbind Hr u' s2 Hs. apply store_thread_Some in Hs as (w' & Hw' & ->).
    apply mret_Some in Hr as [_ ->]. simpl in *.
    assert (w' = w) as -> by congruence. done.
  - apply mret_Some in Hr as [_ ->]. simpl. by rewrite insert_id.
  - apply mret_Some in Hr as [_ ->]. simpl. by rewrite insert_id.
Qed.

Lemma store_ret_effect c v u st st' :
  store_ret c v st = Some (u, st') ->
  threads st' = threads st /\ queues st' = queues st.
Proof.
  unfold store_ret. intros Hr.
  mbind Hr u' s1 Hs. apply store_cb_Some in Hs as (r & _ & ->).
  apply emit_Some in Hr as ->. done.
Qed.

Lemma cleanup_ret_effect a cb st st' :
  cleanup_ret a cb st = Some (tt, st') ->
  threads st' = threads st /\ queues st' = queues st.
Proof.
  unfold cleanup_ret. intros Hr.
  mbind Hr w s1 Hw. apply load_thread_Some in Hw as [-> Hw].
  by apply store_ret_effect in Hr.
Qed.

Lemma a_swap_running_effect a v old st st' :
  a_swap_running a v st = Some (old, st') ->
  exists w, threads st !! a = Some w /\ old = at_running w /\
    threads st' = <[a := set_at_running v w]> (threads st) /\
    queues st' = queues st.
Proof.
  unfold a_swap_running. intros Hr.
  mbind Hr w s1 Hw. apply load_thread_Some in Hw as [-> Hw].
  mbind Hr u s1 Hs.
  apply store_thread_Some in Hs as (w' & Hw' & ->).
  mbind Hr u2 s2 He. apply emit_Some in He as ->.
  apply mret_Some in Hr as [-> ->].
  assert (w' = w) as -> by congruence. by exists w.
Qed.

Lemma wake_if_effect (b : bool) w st st' :
  (if b then __wake w else mret tt) st = Some (tt, st') ->
  threads st' = threads st /\ queues st' = queues st.
Proof.
  destruct b; intros Hr.
  - apply emit_Some in Hr as ->. done.
  - apply mret_Some in Hr as [_ ->]. done.
Qed.

Lemma cleanup_running_effect a st st' :
  cleanup_running a st = Some (tt, st') ->
  exists w, threads st !! a = Some w /\
    threads st' = <[a := set_at_running 0 w]> (threads st) /\
    queues st' = queues st.
Proof.
  unfold cleanup_running. intros Hr.
  mbind Hr old s1 Hs.
  apply a_swap_running_effect in Hs as (w & Hw & _ & Ht & Hq).
  apply wake_if_effect in Hr as [Ht' Hq']. exists w.
  split; [done|]. split; congruence.
Qed.

Lemma a_swap_err_effect c v old st st' :
  a_swap_err c v st = Some (old, st') ->
  threads st' = threads st /\ queues st' = queues st.
Proof.
  unfold a_swap_err. intros Hr.
  mbind Hr r s1 Hc. apply load_cb_Some in Hc as [-> Hc].
  mbind Hr u s1 Hs. apply store_cb_Some in Hs as (r' & _ & ->).
  mbind Hr u2 s2 He. apply emit_Some in He as ->.
  apply mret_Some in Hr as [_ ->]. done.
Qed.

Lemma cleanup_err_effect a cb st st' :
  cleanup_err a cb st = Some (tt, st') ->
  threads st' = threads st /\ queues st' = queues st.
Proof.
  unfold cleanup_err. intros Hr.
  mbind Hr w s1 Hw. apply load_thread_Some in Hw as [-> Hw].
  mbind Hr old s1 Hs. apply a_swap_err_effect in Hs as [Ht Hq].
  apply wake_if_effect in Hr as [Ht' Hq']. split; congruence.
Qed.

Lemma cleanup_fut_effect st st' :
  cleanup_fut st = Some (tt, st') ->
  threads st' = threads st /\ queues st' = queues st.
Proof.
  unfold cleanup_fut. intros Hr.
  mbind Hr old s1 Hs. unfold a_swap_fut in Hs.
  assert (threads s1 = threads st /\ queues s1 = queues st) as [Ht Hq].
  { injection Hs as _ <-. done. }
  apply wake_if_effect in Hr as [Ht' Hq']. split; congruence.
Qed.

Lemma a_cas_running_effect p t s old st st' :
  a_cas_running p t s st = Some (old, st') ->
  exists w, threads st !! p = Some w /\ old = at_running w /\
    threads st'
    = <[p := if at_running w =? t then set_at_running s w else w]>
        (threads st) /\
    queues st' = queues st.
Proof.
  unfold a_cas_running. intros Hr.
  mbind Hr w s1 Hw. apply load_thread_Some in Hw as [-> Hw].
  mbind Hr u s1 Hs. mbind Hr u' s2 He. apply emit_Some in He as ->.
  apply mret_Some in Hr as [-> ->]. exists w. split; [done|]. split; [done|].
  destruct (at_running w =? t).
  - apply store_thread_Some in Hs as (w' & Hw' & ->).
    assert (w' = w) as -> by congruence. done.
  - apply mret_Some in Hs as [_ ->]. simpl. by rewrite insert_id.
Qed.

Lemma run_worker_Some a m c c' :
  run_worker a m c = Some c' ->
  exists pc st', m (shared c) = Some (pc, st') /\
                 shared c' = st' /\ pcs c' = <[a := pc]> (pcs c).
Proof.
  unfold run_worker. destruct (m (shared c)) as [[pc st']|]; [|done].
  intros [= <-]. by exists pc, st'.
Qed.

Lemma run_shared_Some m c c' :
  run_shared m c = Some c' ->
  exists u st', m (shared c) = Some (u, st') /\
                shared c' = st' /\ pcs c' = pcs c.
Proof.
  unfold run_shared. destruct (m (shared c)) as [[u st']|]; [|done].
  intros [= <-]. by exists u, st'.
Qed.

Lemma scan_state fuel :
  forall p r st st', scan fuel p st = Some (r, st') -> st' = st.
Proof.
  induction fuel as [|f IH]; intros p r st st' Hs; destruct p as [pa|];
    simpl in Hs; try discriminate Hs.
  - by apply mret_Some in Hs as [_ ->].
  - mbind Hs w s1 Hw. apply load_thread_Some in Hw as [-> Hw].
    destruct (negb (at_op w =? LIO_WRITE)); [by eapply IH|].
    by apply mret_Some in Hs as [_ ->].
  - by apply mret_Some in Hs as [_ ->].
Qed.

(** The scan of the worker at [a] on a well-formed list: the first write
    behind [a]. *)
Lemma scan_from_dll st a w l1 l2 px p :
  dll (threads st) px p (l1 ++ a :: l2) -> NoDup (l1 ++ a :: l2) ->
  threads st !! a = Some w ->
  scan_from a st = Some (first_write (threads st) l2, st).
Proof.
  intros Hd Hnd Hw. unfold scan_from.
  rewrite (bind_run _ _ _ _ _ (load_thread_run _ _ _ Hw)).
  unfold get. rewrite (bind_run _ _ st st st) by done.
  destruct (dll_split _ _ _ _ _ _ Hd) as (w' & Hw' & _ & _ & Hd2).
  assert (w' = w) as -> by congruence.
  eapply scan_dll; [exact Hd2|].
  assert (length (l1 ++ a :: l2) <= size (threads st))%nat as Hlen.
  { apply NoDup_length_size; [done|]. intros b Hb.
    exact (dll_lookup _ _ _ _ _ Hd Hb). }
  rewrite length_app in Hlen. simpl in Hlen. lia.
Qed.

Lemma seq_test_effect a q pc st st' :
  seq_test a q st = Some (pc, st') ->
  threads st' = threads st /\
  (exists r, queues st !! q = Some r /\
             queues st' = <[q := set_q_lock false r]> (queues st)) /\
  (exists p, scan_from a st = Some (p, st) /\
             pc = match p with Some _ => W_wait | None => W_io end).
Proof.
  unfold seq_test. intros Hr.
  mbind Hr p s1 Hs.
  assert (s1 = st) as ->.
  { unfold scan_from in Hs. mbind Hs w s2 Hw.
    apply load_thread_Some in Hw as [-> _].
    mbind Hs s3 s4 Hg. injection Hg as -> ->. by apply scan_state in Hs. }
  destruct p as [pa|].
  - mbind Hr u s1 He. apply emit_Some in He as ->.
    mbind Hr u2 s2 Hq. apply store_queue_Some in Hq as (r & Hq & ->).
    apply mret_Some in Hr as [-> ->]. simpl.
    split; [done|]. split; [by exists r|]. by exists (Some pa).
  - mbind Hr u s1 Hq. unfold pthread_mutex_unlock in Hq.
    mbind Hq u2 s2 Hq2. apply store_queue_Some in Hq2 as (r & Hq2 & ->).
    apply emit_Some in Hq as ->.
    apply mret_Some in Hr as [-> ->]. simpl.
    split; [done|]. split; [by exists r|]. by exists None.
Qed.

(** *** Steps that leave the lists alone *)

Lemma queues_rel_lock (qs : gmap addr aio_queue) q0 r r' :
  qs !! q0 = Some r ->
  q_head r' = q_head r -> q_init r' = q_init r -> q_append r' = q_append r ->
  forall q,
    match <[q0 := r']> qs !! q, qs !! q with
    | Some r', Some r =>
        q_head r' = q_head r /\ q_init r' = q_init r /\
        q_append r' = q_append r
    | None, None => True
    | _, _ => False
    end.
Proof.
  intros Hr Hh Hi Ha q. destruct (decide (q = q0)) as [->|Hne].
  - by rewrite lookup_insert_eq, Hr.
  - rewrite lookup_insert_ne by done. by destruct (qs !! q).
Qed.

Lemma queues_rel_same (qs qs' : gmap addr aio_queue) :
  qs' = qs ->
  forall q,
    match qs' !! q, qs !! q with
    | Some r', Some r =>
        q_head r' = q_head r /\ q_init r' = q_init r /\
        q_append r' = q_append r
    | None, None => True
    | _, _ => False
    end.
Proof. intros -> q. by destruct (qs !! q). Qed.

Lemma inv_record c a pc :
  inv c -> pcs c !! a = Some pc ->
  exists w, threads (shared c) !! a = Some w /\
            (at_running w = 1 \/ at_running w = -1 \/ at_running w = 0).
Proof.
  intros (_ & Hth & Hpt) Hpc.
  destruct (Hpt a) as [w Hw]; [eauto|]. exists w. split; [done|].
  by apply (Hth a w).
Qed.

Lemma inv_step_io c c' a ret e :
  inv c -> step (L_io a ret e) c = Some c' -> inv c'.
Proof.
  intros Hinv Hs. simpl in Hs.
  destruct (pcs c !! a) as [[]|] eqn:Hpc; try discriminate Hs.
  apply run_worker_Some in Hs as (pc' & st' & Hm & Hsh & Hp).
  mbind Hm b s1 Hio. apply mret_Some in Hm as [-> ->].
  apply io_perform_effect in Hio as (w & Hw & Hq & Ht).
  destruct (inv_record c a _ Hinv Hpc) as (w0 & Hw0 & Hrun).
  assert (w0 = w) as -> by congruence.
  eapply (inv_light_upd c c' a w _ W_io C_ret Hinv Hw Hpc);
    [by rewrite Hsh, Ht|done|done|done|done|exact Hrun| |done|done|done].
  apply queues_rel_same. by rewrite Hsh.
Qed.

Lemma inv_step_canceled c c' a :
  inv c -> step (L_canceled a) c = Some c' -> inv c'.
Proof.
  intros Hinv Hs. simpl in Hs.
  destruct (pcs c !! a) as [pc|] eqn:Hpc; [|discriminate Hs].
  apply run_worker_Some in Hs as (pc' & st' & Hm & Hsh & Hp).
  destruct (inv_record c a _ Hinv Hpc) as (w & Hw & Hrun).
  destruct pc; simpl in Hm; try discriminate Hm.
  - apply mret_Some in Hm as [-> ->].
    eapply (inv_light_upd c c' a w w W_wait C_ret Hinv Hw Hpc);
      [by rewrite Hsh, insert_id|done|done|done|done|exact Hrun|
       |done|done|done].
    apply queues_rel_same. by rewrite Hsh.
  - mbind Hm b s1 Hio. apply mret_Some in Hm as [-> ->].
    apply io_perform_effect in Hio as (w' & Hw' & Hq & Ht).
    assert (w' = w) as -> by congruence.
    eapply (inv_light_upd c c' a w w W_io C_ret Hinv Hw Hpc);
      [by rewrite Hsh, Ht|done|done|done|done|exact Hrun| |done|done|done].
    apply queues_rel_same. by rewrite Hsh.
Qed.

Lemma inv_step_cancel_cas c c' p :
  inv c -> step (L_cancel_cas p) c = Some c' -> inv c'.
Proof.
  intros Hinv Hs. simpl in Hs.
  destruct (pcs c !! p) as [pc|] eqn:Hpc; [|discriminate Hs].
  assert (run_shared (a_cas_running p 1 (-1);; mret tt) c = Some c') as Hs'.
  { by destruct pc. }
  clear Hs. apply run_shared_Some in Hs' as (u & st' & Hm & Hsh & Hp).
  mbind Hm old s1 Hcas. apply mret_Some in Hm as [_ ->].
  apply a_cas_running_effect in Hcas as (w & Hw & _ & Ht & Hq).
  destruct (inv_record c p _ Hinv Hpc) as (w0 & Hw0 & Hrun).
  assert (w0 = w) as -> by congruence.
  eapply (inv_light_upd c c' p w _ pc pc Hinv Hw Hpc);
    [by rewrite Hsh, Ht| | | | | | |by rewrite Hp, insert_id|done|by left].
  1-4: by destruct (at_running w =? 1).
  - destruct (at_running w =? 1); [by right; left|done].
  - apply queues_rel_same. by rewrite Hsh.
Qed.

Lemma inv_step_ext_err c c' cb v :
  inv c -> step (L_ext_err cb v) c = Some c' -> inv c'.
Proof.
  intros Hinv Hs. simpl in Hs.
  apply run_shared_Some in Hs as (u & st' & Hm & Hsh & Hp).
  apply store_cb_Some in Hm as (r & _ & ->).
  apply (inv_ext c c'); try done; by rewrite Hsh.
Qed.

Lemma inv_step_ext_fut c c' v :
  inv c -> step (L_ext_fut v) c = Some c' -> inv c'.
Proof.
  intros Hinv Hs. simpl in Hs.
  apply run_shared_Some in Hs as (u & st' & Hm & Hsh & Hp).
  unfold modify in Hm. injection Hm as _ <-.
  apply (inv_ext c c'); try done; by rewrite Hsh.
Qed.

Lemma inv_step_wake c c' a :
  inv c -> step (L_wake a) c = Some c' -> inv c'.
Proof.
  intros Hinv Hs. simpl in Hs.
  destruct (pcs c !! a) as [[]|] eqn:Hpc; try discriminate Hs.
  apply run_worker_Some in Hs as (pc' & st' & Hm & Hsh & Hp).
  unfold wake_step in Hm.
  mbind Hm w s1 Hw. apply load_thread_Some in Hw as [-> Hw].
  mbind Hm u s1 Hl. apply store_queue_Some in Hl as (r & Hr & ->).
  apply seq_test_effect in Hm as (Ht & (r1 & Hr1 & Hq) & (p & Hscan & Hpc')).
  simpl in Ht, Hr1, Hq. rewrite lookup_insert_eq in Hr1.
  injection Hr1 as <-. rewrite insert_insert_eq in Hq.
  destruct (inv_record c a _ Hinv Hpc) as (w0 & Hw0 & Hrun).
  assert (w0 = w) as -> by congruence.
  eapply (inv_light_upd c c' a w w W_wait pc' Hinv Hw Hpc);
    [by rewrite Hsh, Ht, insert_id|done|done|done|done|exact Hrun| |done| | ].
  - rewrite Hsh, Hq. by apply (queues_rel_lock _ _ r).
  - by destruct p; subst pc'.
  - intros ->. right. intros r0 l Hr0 (Hdll & Hnd & _).
    assert (r0 = r) as -> by congruence.
    destruct p; [done|].
    intros l1 l2 wx Hl Hwx _.
    apply first_write_None.
    assert (scan_from a
              (set_queues (<[at_q w := set_q_lock true r]> (queues (shared c)))
                 (shared c))
            = Some (first_write (threads (shared c)) l2,
                    set_queues
                      (<[at_q w := set_q_lock true r]> (queues (shared c)))
                      (shared c))) as Hscan'.
    { rewrite Hl in Hdll, Hnd.
      exact (scan_from_dll
               (set_queues
                  (<[at_q w := set_q_lock true r]> (queues (shared c)))
                  (shared c)) a w l1 l2 _ _ Hdll Hnd Hw). }
    congruence.
Qed.

Lemma inv_step_cleanup_light c c' a pc :
  inv c -> pcs c !! a = Some pc -> pc <> C_unlink ->
  step (L_cleanup a) c = Some c' -> inv c'.
Proof.
  intros Hinv Hpc Hne Hs. simpl in Hs. rewrite Hpc in Hs.
  apply run_worker_Some in Hs as (pc' & st' & Hm & Hsh & Hp).
  unfold cleanup_step in Hm.
  mbind Hm w s1 Hw. apply load_thread_Some in Hw as [-> Hw].
  destruct (inv_record c a _ Hinv Hpc) as (w0 & Hw0 & Hrun).
  assert (w0 = w) as -> by congruence.
  destruct pc; try discriminate Hm; try done.
  - mbind Hm u s1 Hc. destruct u. apply mret_Some in Hm as [-> ->].
    apply cleanup_ret_effect in Hc as [Ht Hq].
    eapply (inv_light_upd c c' a w w C_ret C_running Hinv Hw Hpc);
      [by rewrite Hsh, Ht, insert_id|done|done|done|done|exact Hrun|
       |done|done|done].
    apply queues_rel_same. by rewrite Hsh.
  - mbind Hm u s1 Hc. destruct u. apply mret_Some in Hm as [-> ->].
    apply cleanup_running_effect in Hc as (w' & Hw' & Ht & Hq).
    assert (w' = w) as -> by congruence.
    eapply (inv_light_upd c c' a w _ C_running C_err Hinv Hw Hpc);
      [by rewrite Hsh, Ht|done|done|done|done|by right; right|
       |done|done|done].
    apply queues_rel_same. by rewrite Hsh.
  - mbind Hm u s1 Hc. destruct u. apply mret_Some in Hm as [-> ->].
    apply cleanup_err_effect in Hc as [Ht Hq].
    eapply (inv_light_upd c c' a w w C_err C_fut Hinv Hw Hpc);
      [by rewrite Hsh, Ht, insert_id|done|done|done|done|exact Hrun|
       |done|done|done].
    apply queues_rel_same. by rewrite Hsh.
  - mbind Hm u s1 Hc. destruct u. apply mret_Some in Hm as [-> ->].
    apply cleanup_fut_effect in Hc as [Ht Hq].
    eapply (inv_light_upd c c' a w w C_fut C_unlink Hinv Hw Hpc);
      [by rewrite Hsh, Ht, insert_id|done|done|done|done|exact Hrun|
       |done|done|done].
    apply queues_rel_same. by rewrite Hsh.
Qed.

(** *** Steps that change a list *)

Lemma mutex_lock_Some q (u : unit) st st' :
  pthread_mutex_lock q st = Some (u, st') ->
  exists r, queues st !! q = Some r /\ st' = after_lock q r st.
Proof.
  unfold pthread_mutex_lock. intros Hr.
  mbind Hr u1 s1 Hs. apply store_queue_Some in Hs as (r & Hq & ->).
  apply emit_Some in Hr as ->. by exists r.
Qed.

Lemma mutex_unlock_Some q (u : unit) st st' :
  pthread_mutex_unlock q st = Some (u, st') ->
  exists r, queues st !! q = Some r /\ st' = after_unlock q r st.
Proof.
  unfold pthread_mutex_unlock. intros Hr.
  mbind Hr u1 s1 Hs. apply store_queue_Some in Hs as (r & Hq & ->).
  apply emit_Some in Hr as ->. by exists r.
Qed.

Lemma classify_effect fd q (u : unit) st st' :
  classify fd q st = Some (u, st') ->
  threads st' = threads st /\
  exists r r', queues st !! q = Some r /\
    queues st' = <[q := r']> (queues st) /\
    q_head r' = q_head r /\ q_lock r' = q_lock r /\ q_init r' <> 0 /\
    (q_init r <> 0 -> r' = r).
Proof.
  unfold classify. intros Hr.
  mbind Hr r s1 Hq. apply load_queue_Some in Hq as [-> Hq].
  destruct (Z.eqb_spec (q_init r) 0) as [Hz|Hnz].
  - mbind Hr s2 s3 Hg. injection Hg as -> ->.
    apply store_queue_Some in Hr as (r2 & Hq2 & ->).
    assert (r2 = r) as -> by congruence.
    split; [done|]. eexists r, _. split; [done|]. split; [reflexivity|].
    simpl. repeat split; done.
  - apply mret_Some in Hr as [_ ->]. split; [done|].
    exists r, r. rewrite insert_id by done. done.
Qed.

Lemma io_thread_enter_effect a td args (u : unit) st st' :
  io_thread_enter a td args st = Some (u, st') ->
  threads st !! a = None /\
  exists r r', queues st !! args_q args = Some r /\
    threads st'
    = link_heap (threads st) a (fresh_at td args (q_head r)) /\
    queues st' = <[args_q args := r']> (queues st) /\
    q_head r' = Some a /\ q_lock r' = true /\ q_init r' <> 0 /\
    (q_init r <> 0 -> q_append r' = q_append r).
Proof.
  unfold io_thread_enter. intros Hr.
  mbind Hr cb s1 Hc. apply load_cb_Some in Hc as [-> Hc].
  mbind Hr u1 s1 Hl. apply mutex_lock_Some in Hl as (r & Hq & ->).
  mbind Hr u2 s2 He. apply emit_Some in He as ->.
  mbind Hr s3 s4 Hg. injection Hg as <- <-. simpl in Hr.
  destruct (threads st !! a) eqn:Ha; [discriminate Hr|].
  split; [done|].
  mbind Hr r1 s1 Hq1. apply load_queue_Some in Hq1 as [-> Hq1].
  simpl in Hq1. rewrite lookup_insert_eq in Hq1. injection Hq1 as <-.
  mbind Hr u3 s3 Hm. unfold modify in Hm. injection Hm as _ <-.
  mbind Hr u4 s4 Hp. mbind Hr u5 s5 Hh.
  apply store_queue_Some in Hh as (r2 & Hq2 & ->).
  mbind Hr u6 s6 He. apply emit_Some in He as ->.
  apply classify_effect in Hr as (Ht & r3 & r' & Hq3 & Hq' & Hh' & Hl' & Hi' & Hsame).
  simpl in *.
  assert (threads s4 = link_heap (threads st) a (fresh_at td args (q_head r))
          /\ queues s4 = <[args_q args := set_q_lock true r]> (queues st))
    as [Hth4 Hqs4].
  { unfold link_heap, fresh_at. simpl.
    destruct (q_head r) as [n|].
    - apply store_thread_Some in Hp as (wn & Hwn & ->). simpl in *.
      by rewrite <- (alter_lookup_Some _ _ _ _ Hwn).
    - by apply mret_Some in Hp as [_ ->]. }
  rewrite Hqs4, lookup_insert_eq in Hq2. injection Hq2 as <-.
  rewrite Hqs4, insert_insert_eq, lookup_insert_eq in Hq3.
  injection Hq3 as <-.
  rewrite Hqs4, !insert_insert_eq in Hq'.
  exists r, r'. split; [done|]. split; [congruence|]. split; [done|].
  split; [done|]. split; [done|]. split; [done|].
  intros Hnz. by rewrite Hsame.
Qed.

Lemma cleanup_unlink_effect a q w (u : unit) st st' :
  cleanup_unlink a q st = Some (u, st') ->
  threads st !! a = Some w -> at_next w <> Some a ->
  threads st' = unlink_heap (threads st) w /\
  exists r, queues st !! q = Some r /\
    queues st'
    = <[q := match at_prev w with
             | Some _ => set_q_lock true r
             | None => set_q_head (at_next w) (set_q_lock true r)
             end]> (queues st).
Proof.
  unfold cleanup_unlink. intros Hr Hw Hna.
  mbind Hr u1 s1 Hl. apply mutex_lock_Some in Hl as (r & Hq & ->).
  mbind Hr u2 s2 Hu. apply emit_Some in Hr as ->.
  unfold unlink in Hu.
  mbind Hu w1 s3 Hw1. apply load_thread_Some in Hw1 as [-> Hw1].
  simpl in Hw1. assert (w1 = w) as -> by congruence.
  mbind Hu u3 s3 Hn. mbind Hu w2 s4 Hw2.
  apply load_thread_Some in Hw2 as [-> Hw2].
  mbind Hu u4 s4 Hp. apply emit_Some in Hu as ->. simpl.
  assert (threads s3
          = match at_next w with
            | Some n => alter (set_at_prev (at_prev w)) n (threads st)
            | None => threads st
            end /\ queues s3 = <[q := set_q_lock true r]> (queues st) /\
          w2 = w) as (Hth3 & Hqs3 & ->).
  { destruct (at_next w) as [n|] eqn:Hnx.
    - apply store_thread_Some in Hn as (wn & Hwn & ->). simpl in *.
      rewrite <- (alter_lookup_Some _ _ _ _ Hwn). split; [done|]. split; [done|].
      rewrite lookup_insert_ne in Hw2 by congruence. congruence.
    - apply mret_Some in Hn as [_ ->]. simpl in *.
      split; [done|]. split; [done|]. congruence. }
  unfold unlink_heap.
  destruct (at_prev w) as [p0|] eqn:Hpv.
  - apply store_thread_Some in Hp as (wp & Hwp & ->). simpl.
    rewrite <- (alter_lookup_Some _ _ _ _ Hwp), Hth3. split; [done|].
    exists r. split; [done|]. by rewrite Hqs3.
  - apply store_queue_Some in Hp as (r2 & Hq2 & ->). simpl.
    rewrite Hqs3, lookup_insert_eq in Hq2. injection Hq2 as <-.
    split; [by rewrite Hth3|]. exists r. split; [done|].
    by rewrite Hqs3, insert_insert_eq.
Qed.

Lemma link_heap_new th a wnew :
  th !! a = None ->
  (forall n, at_next wnew = Some n -> is_Some (th !! n)) ->
  link_heap th a wnew !! a = Some wnew.
Proof.
  intros Ha Hn. unfold link_heap. destruct (at_next wnew) as [n|] eqn:E.
  - rewrite lookup_alter_ne; [apply lookup_insert_eq|].
    intros ->. destruct (Hn a eq_refl) as [? ?]. congruence.
  - apply lookup_insert_eq.
Qed.

Lemma link_heap_old th a wnew b wb :
  b <> a -> th !! b = Some wb ->
  exists wb', link_heap th a wnew !! b = Some wb' /\
    at_next wb' = at_next wb /\ at_q wb' = at_q wb /\ at_op wb' = at_op wb /\
    at_running wb' = at_running wb /\
    (at_next wnew <> Some b -> wb' = wb).
Proof.
  intros Hne Hb. unfold link_heap. destruct (at_next wnew) as [n|].
  - destruct (decide (n = b)) as [->|Hnb].
    + rewrite lookup_alter_eq, lookup_insert_ne, Hb by done.
      eexists. split; [reflexivity|]. done.
    + rewrite lookup_alter_ne, lookup_insert_ne by done.
      exists wb. repeat split; done.
  - rewrite lookup_insert_ne by done. exists wb. repeat split; done.
Qed.

Lemma link_heap_inv th a wnew b wb' :
  link_heap th a wnew !! b = Some wb' ->
  b = a \/
  exists wb, th !! b = Some wb /\ at_q wb' = at_q wb /\
             at_op wb' = at_op wb /\ at_running wb' = at_running wb.
Proof.
  intros Hb. destruct (decide (b = a)) as [->|Hne]; [by left|]. right.
  unfold link_heap in Hb. destruct (at_next wnew) as [n|].
  - destruct (decide (n = b)) as [->|Hnb].
    + rewrite lookup_alter_eq, lookup_insert_ne in Hb by done.
      destruct (th !! b) as [wb|]; [|done]. injection Hb as <-.
      by exists wb.
    + rewrite lookup_alter_ne, lookup_insert_ne in Hb by done. by exists wb'.
  - rewrite lookup_insert_ne in Hb by done. by exists wb'.
Qed.

(** A worker links itself at the head of the list of queue [q]. *)
Lemma inv_enter c c' a q r r' wnew pc' :
  inv c ->
  threads (shared c) !! a = None -> pcs c !! a = None ->
  queues (shared c) !! q = Some r ->
  threads (shared c') = link_heap (threads (shared c)) a wnew ->
  at_next wnew = q_head r -> at_prev wnew = None -> at_q wnew = q ->
  at_running wnew = 1 ->
  queues (shared c') = <[q := r']> (queues (shared c)) ->
  q_head r' = Some a -> q_init r' <> 0 ->
  (q_init r <> 0 -> q_append r' = q_append r) ->
  pcs c' = <[a := pc']> (pcs c) -> linked pc' = true ->
  (pc' = W_io -> sequenced (at_op wnew) r' = true ->
   forall l, dll (threads (shared c')) (Some a) (q_head r) l ->
             NoDup (a :: l) ->
             forall b, b ∈ l -> is_write (threads (shared c')) b = false) ->
  inv c'.
Proof.
  intros (Hqs & Hth & Hpt) Ha Hpa Hr Ht Hnx Hpv Hq Hrun Hqq Hh Hi Happ Hpcs
    Hlk Hio.
  destruct (Hqs q r Hr) as (l & Hdll & Hnd & Hmem & Hinit & Hseq).
  assert (a ∉ l) as Hal.
  { intros Hin. destruct (dll_lookup _ _ _ _ _ Hdll Hin) as [? ?]. congruence. }
  assert (forall n, at_next wnew = Some n -> n ∈ l) as Hnl.
  { intros n Hn. rewrite Hnx in Hn. apply dll_head in Hdll.
    rewrite Hdll in Hn. destruct l; [done|]. injection Hn as ->. left. }
  assert (link_heap (threads (shared c)) a wnew !! a = Some wnew) as Hnew.
  { apply link_heap_new; [done|]. intros n Hn.
    exact (dll_lookup _ _ _ _ _ Hdll (Hnl n Hn)). }
  assert (dll (threads (shared c')) (Some a) (q_head r) l) as Hdll'.
  { rewrite Ht. unfold link_heap. rewrite Hnx.
    apply (dll_set_prev _ None); [|done].
    eapply dll_frame; [exact Hdll|].
    intros b wb Hb Hwb. exists wb. rewrite lookup_insert_ne; [done|].
    intros ->. done. }
  split; [|split].
  - intros q0 r0 Hr0. rewrite Hqq in Hr0.
    destruct (decide (q0 = q)) as [->|Hne].
    + rewrite lookup_insert_eq in Hr0. injection Hr0 as <-.
      exists (a :: l). split; [|split; [|split; [|split]]].
      * rewrite Hh. split; [done|]. exists wnew.
        split; [by rewrite Ht|]. split; [done|]. by rewrite Hnx.
      * by apply NoDup_cons.
      * intros b. rewrite elem_of_cons, Hmem. split.
        -- intros [->|(wb & pcb & Hb & Hbq & Hbp & Hbl)].
           ++ exists wnew, pc'. rewrite Ht, Hpcs, lookup_insert_eq. done.
           ++ assert (b <> a) as Hba by congruence.
              destruct (link_heap_old _ a wnew b wb Hba Hb)
                as (wb' & Hb' & _ & Hq' & _).
              exists wb', pcb. rewrite Ht, Hpcs, lookup_insert_ne by done.
              repeat split; try done. congruence.
        -- intros (wb' & pcb & Hb' & Hbq & Hbp & Hbl).
           destruct (decide (b = a)) as [->|Hba]; [by left|]. right.
           rewrite Ht in Hb'. apply link_heap_inv in Hb' as [->|Hb']; [done|].
           destruct Hb' as (wb & Hb & Hq' & _).
           rewrite Hpcs, lookup_insert_ne in Hbp by done.
           exists wb, pcb. repeat split; try done. congruence.
      * done.
      * intros x Hx l1 l2 wx Hl Hwx Hsq b Hb.
        destruct l1 as [|y l1]; simpl in Hl; injection Hl as Hy Hl.
        -- subst x l2. rewrite Ht, Hnew in Hwx. injection Hwx as <-.
           rewrite Hpcs, lookup_insert_eq in Hx. injection Hx as ->.
           apply (Hio eq_refl Hsq l Hdll'); [by apply NoDup_cons|done].
        -- subst y.
           assert (x ∈ l) as Hxl.
           { rewrite Hl. apply elem_of_app. right. left. }
           assert (x <> a) as Hxa by congruence.
           rewrite Hpcs, lookup_insert_ne in Hx by done.
           rewrite Ht in Hwx. apply link_heap_inv in Hwx as [->|Hwx]; [done|].
           destruct Hwx as (wx0 & Hwx0 & _ & Hop & _).
           assert (b ∈ l) as Hbl.
           { rewrite Hl. apply elem_of_app. right. by right. }
           destruct (dll_lookup _ _ _ _ _ Hdll Hbl) as [wb Hwb].
           assert (b <> a) as Hba by congruence.
           rewrite (is_write_agree (threads (shared c)) (threads (shared c')) b).
           ++ eapply (Hseq x Hx l1 l2 wx0 Hl Hwx0); [|done].
              unfold sequenced in *. rewrite <- Hop, <- Happ; [done|].
              apply Hinit. rewrite Hl. by destruct l1.
           ++ intros w0 Hw0.
              destruct (link_heap_old _ a wnew b w0 Hba Hw0)
                as (w0' & Hw0' & _ & _ & Hop' & _).
              exists w0'. by rewrite Ht.
           ++ eauto.
    + rewrite lookup_insert_ne in Hr0 by done.
      destruct (Hqs q0 r0 Hr0) as (l0 & Hdll0 & Hnd0 & Hmem0 & Hinit0 & Hseq0).
      assert (forall b, b ∈ l0 ->
                threads (shared c') !! b = threads (shared c) !! b) as Hsame.
      { intros b Hb. apply Hmem0 in Hb as (wb & pcb & Hwb & Hbq & _).
        assert (b <> a) as Hba by congruence.
        destruct (link_heap_old _ a wnew b wb Hba Hwb)
          as (wb' & Hb' & _ & _ & _ & _ & Heq).
        rewrite Ht, Hb', Hwb. f_equal. apply Heq.
        intros Hn. apply Hnl in Hn.
        apply Hmem in Hn as (wn & ? & Hwn & Hnq & _). congruence. }
      exists l0. split; [|split; [done|split; [|split; [done|]]]].
      * eapply dll_frame; [exact Hdll0|].
        intros b wb Hb Hwb. exists wb. by rewrite (Hsame b Hb).
      * intros b. rewrite Hmem0. split.
        -- intros (wb & pcb & Hb & Hbq & Hbp & Hbl).
           assert (b <> a) as Hba by congruence.
           destruct (link_heap_old _ a wnew b wb Hba Hb)
             as (wb' & Hb' & _ & Hq' & _).
           exists wb', pcb. rewrite Ht, Hpcs, lookup_insert_ne by done.
           repeat split; try done. congruence.
        -- intros (wb' & pcb & Hb' & Hbq & Hbp & Hbl).
           rewrite Ht in Hb'.
           destruct (link_heap_inv _ _ _ _ _ Hb') as [->|(wb & Hb & Hq' & _)].
           { rewrite Hnew in Hb'. congruence. }
           assert (b <> a) as Hba by congruence.
           rewrite Hpcs, lookup_insert_ne in Hbp by done.
           exists wb, pcb. repeat split; try done. congruence.
      * intros x Hx l1 l2 wx Hl Hwx Hsq b Hb.
        assert (x ∈ l0) as Hxl.
        { rewrite Hl. apply elem_of_app. right. left. }
        assert (b ∈ l0) as Hbl.
        { rewrite Hl. apply elem_of_app. right. by right. }
        rewrite (Hsame x Hxl) in Hwx.
        assert (x <> a) as Hxa by congruence.
        rewrite Hpcs, lookup_insert_ne in Hx by done.
        unfold is_write. rewrite (Hsame b Hbl).
        by apply (Hseq0 x Hx l1 l2 wx Hl Hwx Hsq b).
  - intros b wb' Hb'. rewrite Ht in Hb'. rewrite Hpcs.
    apply link_heap_inv in Hb' as Hcase. destruct Hcase as [->|Hold].
    + rewrite Hnew in Hb'. injection Hb' as <-.
      rewrite lookup_insert_eq. split; [eauto|]. by left.
    + destruct Hold as (wb & Hb & _ & _ & Hr').
      assert (b <> a) as Hba by congruence.
      rewrite lookup_insert_ne by done. rewrite Hr'. by apply Hth.
  - intros b Hb. rewrite Ht. rewrite Hpcs in Hb.
    destruct (decide (b = a)) as [->|Hba]; [by rewrite Hnew|].
    rewrite lookup_insert_ne in Hb by done.
    destruct (Hpt b Hb) as [wb Hwb].
    destruct (link_heap_old _ a wnew b wb Hba Hwb) as (wb' & -> & _). eauto.
Qed.

Lemma inv_step_enter c c' a td args :
  inv c -> step (L_enter a td args) c = Some c' -> inv c'.
Proof.
  intros Hinv Hs. simpl in Hs.
  destruct (pcs c !! a) eqn:Hpa; [discriminate Hs|].
  apply run_worker_Some in Hs as (pc' & st' & Hm & Hsh & Hp).
  unfold enter_step in Hm.
  mbind Hm u s1 He.
  apply io_thread_enter_effect in He
    as (Ha & r & r1 & Hr & Ht1 & Hq1 & Hh1 & Hl1 & Hi1 & Happ1).
  mbind Hm r1' s2 Hl. apply load_queue_Some in Hl as [-> Hl].
  rewrite Hq1, lookup_insert_eq in Hl. injection Hl as <-.
  set (wnew := fresh_at td args (q_head r)) in *.
  assert (threads st' = threads s1 /\
          queues st' = <[args_q args := set_q_lock false r1]> (queues (shared c))
          /\ (pc' = W_io -> sequenced (args_op args) r1 = true ->
              scan_from a s1 = Some (None, s1))
          /\ linked pc' = true) as (Ht' & Hq' & Hscan & Hlk).
  { destruct (sequenced (args_op args) r1) eqn:Hsq.
    - apply seq_test_effect in Hm
        as (Ht' & (r2 & Hr2 & Hq') & (p & Hscan & Hpc')).
      rewrite Hq1, lookup_insert_eq in Hr2. injection Hr2 as <-.
      rewrite Hq1, insert_insert_eq in Hq'.
      split; [done|]. split; [done|]. split.
      + intros -> _. by destruct p.
      + subst pc'. by destruct p.
    - mbind Hm u2 s3 Hu. apply mutex_unlock_Some in Hu as (r2 & Hr2 & ->).
      apply mret_Some in Hm as [-> ->]. simpl.
      rewrite Hq1, lookup_insert_eq in Hr2. injection Hr2 as <-.
      rewrite Hq1, insert_insert_eq.
      split; [done|]. split; [done|]. split; [|done]. by intros _ ?. }
  destruct Hinv as (Hqs & Hth & Hpt).
  destruct (Hqs _ r Hr) as (l0 & Hdll0 & Hnd0 & Hmem0 & _).
  assert (threads s1 !! a = Some wnew) as Hnew.
  { rewrite Ht1. apply link_heap_new; [done|]. intros n Hn. simpl in Hn.
    apply (dll_lookup _ _ _ _ _ Hdll0). apply dll_head in Hdll0.
    rewrite Hdll0 in Hn. destruct l0; [done|]. injection Hn as ->. left. }
  eapply (inv_enter c c' a (args_q args) r (set_q_lock false r1) wnew pc'
            (conj Hqs (conj Hth Hpt)) Ha Hpa Hr);
    [by rewrite Hsh, Ht', Ht1|done|done|done|done|by rewrite Hsh, Hq'|done|done
    |done|done|done|].
  intros Hio Hsq l Hdll Hnd b Hb. rewrite Hsh, Ht' in *.
  assert (dll (threads s1) None (Some a) ([] ++ a :: l)) as Hd.
  { simpl. split; [done|]. exists wnew. by split. }
  pose proof (scan_from_dll s1 a wnew [] l None (Some a) Hd Hnd Hnew) as Hsc.
  rewrite (Hscan Hio Hsq) in Hsc. injection Hsc as Hsc. symmetry in Hsc.
  by apply (proj1 (first_write_None _ _) Hsc).
Qed.

Lemma unlink_suffix {A : Type} (a x : A) (l2 m2 : list A) :
  forall l1 m1,
    l1 ++ l2 = m1 ++ x :: m2 ->
    exists n1 n2, l1 ++ a :: l2 = n1 ++ x :: n2 /\
                  forall b, b ∈ m2 -> b ∈ n2.
Proof.
  induction l1 as [|y l1 IH]; intros m1 Heq; simpl in *.
  - exists (a :: m1), m2. by rewrite Heq.
  - destruct m1 as [|y' m1]; simpl in Heq; injection Heq as -> Heq.
    + exists [], (l1 ++ a :: l2). split; [done|].
      intros b Hb. rewrite <- Heq in Hb.
      apply elem_of_app in Hb as [Hb|Hb]; apply elem_of_app;
        [by left|right; by right].
    + destruct (IH m1 Heq) as (n1 & n2 & Hn & Hsub).
      exists (y' :: n1), n2. split; [|done]. simpl. by rewrite Hn.
Qed.

Lemma unlink_heap_old th w b wb :
  th !! b = Some wb ->
  exists wb', unlink_heap th w !! b = Some wb' /\
    at_q wb' = at_q wb /\ at_op wb' = at_op wb /\
    at_running wb' = at_running wb /\
    (at_next w <> Some b -> at_prev w <> Some b -> wb' = wb).
Proof.
  intros Hb. unfold unlink_heap.
  set (th1 := match at_next w with
              | Some n => alter (set_at_prev (at_prev w)) n th
              | None => th
              end).
  assert (exists w1, th1 !! b = Some w1 /\ at_q w1 = at_q wb /\
            at_op w1 = at_op wb /\ at_running w1 = at_running wb /\
            (at_next w <> Some b -> w1 = wb)) as (w1 & Hw1 & Hq1 & Ho1 & Hr1 & He1).
  { unfold th1. destruct (at_next w) as [n|]; [|by exists wb].
    destruct (decide (n = b)) as [->|Hne].
    - rewrite lookup_alter_eq, Hb. eexists. split; [reflexivity|]. done.
    - rewrite lookup_alter_ne by done. exists wb. done. }
  destruct (at_prev w) as [p0|].
  - destruct (decide (p0 = b)) as [->|Hne].
    + rewrite lookup_alter_eq, Hw1. eexists. split; [reflexivity|]. done.
    + rewrite lookup_alter_ne by done. exists w1.
      repeat split; try done. intros Hn _. by apply He1.
  - exists w1. repeat split; try done. intros Hn _. by apply He1.
Qed.

Lemma unlink_heap_inv th w b wb' :
  unlink_heap th w !! b = Some wb' ->
  exists wb, th !! b = Some wb /\ at_q wb' = at_q wb /\
             at_op wb' = at_op wb /\ at_running wb' = at_running wb.
Proof.
  intros Hb'. destruct (th !! b) as [wb|] eqn:Hb.
  - destruct (unlink_heap_old th w b wb Hb) as (w2 & Hw2 & ? & ? & ? & _).
    exists wb. assert (w2 = wb') as -> by congruence. done.
  - assert (unlink_heap th w !! b = None) as Hnone; [|congruence].
    unfold unlink_heap.
    destruct (at_prev w) as [p0|]; destruct (at_next w) as [n|];
      rewrite ?lookup_alter_None; done.
Qed.

(** A worker takes itself off the list of its queue. *)
Lemma inv_unlink c c' a w pc r r' :
  inv c ->
  threads (shared c) !! a = Some w -> pcs c !! a = Some pc ->
  linked pc = true ->
  queues (shared c) !! at_q w = Some r ->
  threads (shared c') = unlink_heap (threads (shared c)) w ->
  queues (shared c') = <[at_q w := r']> (queues (shared c)) ->
  q_head r' = match at_prev w with
              | Some _ => q_head r
              | None => at_next w
              end ->
  q_init r' = q_init r -> q_append r' = q_append r ->
  pcs c' = <[a := W_done]> (pcs c) ->
  inv c'.
Proof.
  intros (Hqs & Hth & Hpt) Hw Hpc Hlk Hr Ht Hqq Hh Hi Happ Hpcs.
  destruct (Hqs _ r Hr) as (l & Hdll & Hnd & Hmem & Hinit & Hseq).
  assert (a ∈ l) as Hal.
  { apply Hmem. by exists w, pc. }
  apply list_elem_of_split in Hal as (l1 & l2 & Hl). subst l.
  destruct (dll_split _ _ _ _ _ _ Hdll) as (w0 & Hw0 & Hpv & Hnx & _).
  assert (w0 = w) as -> by congruence.
  assert (forall b, at_next w = Some b -> b ∈ l1 ++ a :: l2 /\ b <> a)
    as Hnxl.
  { intros b Hb. rewrite Hnx in Hb. destruct l2 as [|y l2]; [done|].
    injection Hb as ->. split.
    - apply elem_of_app. right. right. left.
    - intros ->. apply NoDup_app in Hnd as (_ & _ & Hnd).
      apply NoDup_cons in Hnd as [Hn _]. apply Hn. left. }
  assert (forall b, at_prev w = Some b -> b ∈ l1 ++ a :: l2 /\ b <> a)
    as Hpvl.
  { intros b Hb. rewrite Hpv in Hb.
    destruct (last l1) as [z|] eqn:Hz; [|done]. injection Hb as ->.
    apply last_Some_elem_of in Hz. split.
    - apply elem_of_app. by left.
    - intros ->. apply NoDup_app in Hnd as (_ & Hn & _).
      apply (Hn a Hz). left. }
  assert (forall b q0, q0 <> at_q w ->
            (exists wb, threads (shared c) !! b = Some wb /\ at_q wb = q0) ->
            threads (shared c') !! b = threads (shared c) !! b) as Hsame.
  { intros b q0 Hq0 (wb & Hwb & Hbq).
    destruct (unlink_heap_old _ w b wb Hwb) as (wb' & Hb' & _ & _ & _ & Heq).
    rewrite Ht, Hb', Hwb. f_equal. apply Heq.
    - intros Hn. apply Hnxl in Hn as [Hn _].
      apply Hmem in Hn as (wn & ? & Hwn & Hnq & _). congruence.
    - intros Hn. apply Hpvl in Hn as [Hn _].
      apply Hmem in Hn as (wn & ? & Hwn & Hnq & _). congruence. }
  split; [|split].
  - intros q0 r0 Hr0. rewrite Hqq in Hr0.
    destruct (decide (q0 = at_q w)) as [->|Hne].
    + rewrite lookup_insert_eq in Hr0. injection Hr0 as <-.
      exists (l1 ++ l2). split; [|split; [|split; [|split]]].
      * rewrite Ht, Hh.
        assert (forall x, None = Some x -> x ∉ l1 ++ a :: l2) as Hpx by done.
        pose proof (dll_unlink _ w a l2 l1 None _ Hdll Hnd Hw Hpx) as Hd.
        destruct l1 as [|y l1].
        -- simpl in Hpv. by rewrite Hpv.
        -- destruct (at_prev w) as [p0|] eqn:Hp0; [done|].
           destruct (last (y :: l1)) eqn:Hz; [done|].
           by apply last_None in Hz.
      * apply NoDup_app in Hnd as (Hn1 & Hn12 & Hn2).
        apply NoDup_cons in Hn2 as [_ Hn2].
        apply NoDup_app. split; [done|]. split; [|done].
        intros x Hx Hx2. apply (Hn12 x Hx). by right.
      * intros b. split.
        -- intros Hb.
           assert (b ∈ l1 ++ a :: l2 /\ b <> a) as [Hbl Hba].
           { apply elem_of_app in Hb as [Hb|Hb].
             - split; [apply elem_of_app; by left|].
               intros ->. apply NoDup_app in Hnd as (_ & Hn & _).
               apply (Hn a Hb). left.
             - split; [apply elem_of_app; right; by right|].
               intros ->. apply NoDup_app in Hnd as (_ & _ & Hn).
               apply NoDup_cons in Hn as [Hn _]. by apply Hn. }
           apply Hmem in Hbl as (wb & pcb & Hwb & Hbq & Hbp & Hbk).
           destruct (unlink_heap_old _ w b wb Hwb) as (wb' & Hb' & Hq' & _).
           exists wb', pcb. rewrite Ht, Hpcs, lookup_insert_ne by done.
           repeat split; try done. congruence.
        -- intros (wb' & pcb & Hb' & Hbq & Hbp & Hbk).
           assert (b <> a) as Hba.
           { intros ->. rewrite Hpcs, lookup_insert_eq in Hbp.
             injection Hbp as <-. done. }
           rewrite Hpcs, lookup_insert_ne in Hbp by done.
           rewrite Ht in Hb'. apply unlink_heap_inv in Hb' as (wb & Hwb & Hq' & _).
           assert (b ∈ l1 ++ a :: l2) as Hbl.
           { apply Hmem. exists wb, pcb. repeat split; try done. congruence. }
           apply elem_of_app in Hbl as [Hbl|Hbl]; apply elem_of_app;
             [by left|]. right.
           apply elem_of_cons in Hbl as [->|Hbl]; done.
      * intros Hne. rewrite Hi. apply Hinit. by destruct l1.
      * intros x Hx m1 m2 wx' Hm Hwx' Hsq b Hb.
        assert (x <> a) as Hxa.
        { intros ->. rewrite Hpcs, lookup_insert_eq in Hx. done. }
        rewrite Hpcs, lookup_insert_ne in Hx by done.
        destruct (unlink_suffix a x l2 m2 l1 m1 Hm) as (n1 & n2 & Hn & Hsub).
        rewrite Ht in Hwx'.
        apply unlink_heap_inv in Hwx' as (wx & Hwx & _ & Hop & _).
        assert (is_Some (threads (shared c) !! b)) as Hsb.
        { apply (dll_lookup _ _ _ _ _ Hdll). rewrite Hn.
          apply elem_of_app. right. right. by apply Hsub. }
        rewrite (is_write_agree (threads (shared c)) (threads (shared c')) b);
          [|intros w1 Hw1;
            destruct (unlink_heap_old _ w b w1 Hw1)
              as (w1' & Hw1' & _ & Ho1 & _);
            exists w1'; by rewrite Ht|done].
        eapply (Hseq x Hx n1 n2 wx Hn Hwx); [|by apply Hsub].
        unfold sequenced in *. by rewrite <- Hop, <- Happ.
    + rewrite lookup_insert_ne in Hr0 by done.
      destruct (Hqs q0 r0 Hr0) as (l0 & Hdll0 & Hnd0 & Hmem0 & Hinit0 & Hseq0).
      assert (forall b, b ∈ l0 ->
                threads (shared c') !! b = threads (shared c) !! b) as Hs0.
      { intros b Hb. apply Hmem0 in Hb as (wb & pcb & Hwb & Hbq & _).
        apply (Hsame b q0 Hne). by exists wb. }
      exists l0. split; [|split; [done|split; [|split; [done|]]]].
      * eapply dll_frame; [exact Hdll0|].
        intros b wb Hb Hwb. exists wb. by rewrite (Hs0 b Hb).
      * intros b. rewrite Hmem0. split.
        -- intros (wb & pcb & Hb & Hbq & Hbp & Hbl).
           assert (b <> a) as Hba by congruence.
           exists wb, pcb. rewrite Hpcs, lookup_insert_ne by done.
           rewrite (Hsame b q0 Hne); [done|]. by exists wb.
        -- intros (wb' & pcb & Hb' & Hbq & Hbp & Hbl).
           rewrite Ht in Hb'.
           destruct (unlink_heap_inv _ _ _ _ Hb') as (wb & Hwb & Hq' & _).
           assert (b <> a) as Hba by congruence.
           rewrite Hpcs, lookup_insert_ne in Hbp by done.
           exists wb, pcb. repeat split; try done. congruence.
      * intros x Hx l1' l2' wx Hl Hwx Hsq b Hb.
        assert (x ∈ l0) as Hxl.
        { rewrite Hl. apply elem_of_app. right. left. }
        assert (b ∈ l0) as Hbl.
        { rewrite Hl. apply elem_of_app. right. by right. }
        rewrite (Hs0 x Hxl) in Hwx.
        assert (x <> a) as Hxa.
        { intros ->. rewrite Hpcs, lookup_insert_eq in Hx. done. }
        rewrite Hpcs, lookup_insert_ne in Hx by done.
        unfold is_write. rewrite (Hs0 b Hbl).
        by apply (Hseq0 x Hx l1' l2' wx Hl Hwx Hsq b).
  - intros b wb' Hb'. rewrite Ht in Hb'.
    apply unlink_heap_inv in Hb' as (wb & Hwb & _ & _ & Hr').
    destruct (Hth b wb Hwb) as [Hsome Hrun]. split; [|by rewrite Hr'].
    rewrite Hpcs. destruct (decide (b = a)) as [->|Hne].
    + rewrite lookup_insert_eq. eauto.
    + by rewrite lookup_insert_ne.
  - intros b Hb. rewrite Ht.
    assert (is_Some (threads (shared c) !! b)) as [wb Hwb].
    { rewrite Hpcs in Hb. destruct (decide (b = a)) as [->|Hne]; [eauto|].
      rewrite lookup_insert_ne in Hb by done. by apply Hpt. }
    destruct (unlink_heap_old _ w b wb Hwb) as (wb' & -> & _). eauto.
Qed.

Lemma inv_step_cleanup_unlink c c' a :
  inv c -> pcs c !! a = Some C_unlink ->
  step (L_cleanup a) c = Some c' -> inv c'.
Proof.
  intros Hinv Hpc Hs. simpl in Hs. rewrite Hpc in Hs.
  apply run_worker_Some in Hs as (pc' & st' & Hm & Hsh & Hp).
  unfold cleanup_step in Hm.
  mbind Hm w s1 Hw. apply load_thread_Some in Hw as [-> Hw].
  mbind Hm u s1 Hc. mbind Hm u2 s2 Hu.
  apply mutex_unlock_Some in Hu as (r2 & Hr2 & ->).
  apply mret_Some in Hm as [-> ->].
  assert (at_next w <> Some a) as Hna.
  { destruct Hinv as (Hqs & Hth & Hpt).
    intros Hn.
    assert (exists r, queues (shared c) !! at_q w = Some r) as [r Hr].
    { unfold cleanup_unlink in Hc. mbind Hc u3 s3 Hl.
      apply mutex_lock_Some in Hl as (r & Hr & _). eauto. }
    destruct (Hqs _ r Hr) as (l & Hdll & Hnd & Hmem & _).
    assert (a ∈ l) as Hal by (apply Hmem; by exists w, C_unlink).
    apply list_elem_of_split in Hal as (l1 & l2 & ->).
    destruct (dll_split _ _ _ _ _ _ Hdll) as (w0 & Hw0 & _ & Hnx & _).
    assert (w0 = w) as -> by congruence.
    rewrite Hnx in Hn. destruct l2 as [|y l2]; [done|]. injection Hn as ->.
    apply NoDup_app in Hnd as (_ & _ & Hnd).
    apply NoDup_cons in Hnd as [Hnd _]. apply Hnd. left. }
  apply (cleanup_unlink_effect a (at_q w) w u _ _ Hc Hw) in Hna
    as (Ht & r & Hr & Hq).
  rewrite Hq, lookup_insert_eq in Hr2. injection Hr2 as <-.
  eapply (inv_unlink c c' a w C_unlink r _ Hinv Hw Hpc eq_refl Hr);
    [by rewrite Hsh|rewrite Hsh; simpl; by rewrite Hq, insert_insert_eq
    | | | |done].
  all: by destruct (at_prev w).
Qed.

(** Every step keeps the invariant. *)
Lemma inv_step c l c' : inv c -> step l c = Some c' -> inv c'.
Proof.
  intros Hinv Hs. destruct l.
  - by eapply inv_step_enter.
  - by eapply inv_step_wake.
  - by eapply inv_step_io.
  - by eapply inv_step_canceled.
  - destruct (pcs c !! a) as [pc|] eqn:Hpc.
    + destruct (decide (pc = C_unlink)) as [->|Hne].
      * by eapply inv_step_cleanup_unlink.
      * by eapply inv_step_cleanup_light.
    + simpl in Hs. by rewrite Hpc in Hs.
  - by eapply inv_step_cancel_cas.
  - by eapply inv_step_ext_err.
  - by eapply inv_step_ext_fut.
Qed.

Lemma inv_initial c : initial c -> inv c.
Proof.
  intros (Ht & Hp & Hq). split; [|split].
  - intros q r Hr. exists []. split; [|split; [|split; [|split]]].
    + simpl. by eapply Hq.
    + constructor.
    + intros a. split; [by intros ?%elem_of_nil|].
      intros (w & ? & Hw & _). by rewrite Ht in Hw.
    + done.
    + intros x Hx. by rewrite Hp in Hx.
  - intros a w Hw. by rewrite Ht in Hw.
  - intros a [? Ha]. by rewrite Hp in Ha.
Qed.

Lemma reachable_inv c : reachable c -> inv c.
Proof.
  induction 1 as [c Hi|c l c' _ IH Hs]; [by apply inv_initial|].
  by eapply inv_step.
Qed.

Lemma exec_reachable ls : forall c c',
  reachable c -> exec ls c = Some c' -> reachable c'.
Proof.
  induction ls as [|l ls IH]; intros c c' Hr He; simpl in He.
  - by injection He as <-.
  - destruct (step l c) as [c1|] eqn:Hs; [|done].
    eapply IH; [|exact He]. by eapply reachable_step.
Qed.

(** ** Sequencing *)

Lemma dll_functional th :
  forall l l' px p, dll th px p l -> dll th px p l' -> l = l'.
Proof.
  induction l as [|a l IH]; intros l' px p Hd Hd'.
  - simpl in Hd. subst p. destruct l'; [done|]. by destruct Hd'.
  - destruct Hd as (-> & w & Hw & _ & Hd).
    destruct l' as [|a' l']; [done|].
    destruct Hd' as ([= <-] & w' & Hw' & _ & Hd').
    assert (w' = w) as -> by congruence. f_equal. by eapply IH.
Qed.

(** What the first step of a worker decides. *)
Lemma enter_step_effect a td args pc st st' :
  enter_step a td args st = Some (pc, st') ->
  threads st !! a = None /\
  exists r r',
    queues st !! args_q args = Some r /\
    threads st' = link_heap (threads st) a (fresh_at td args (q_head r)) /\
    queues st' = <[args_q args := r']> (queues st) /\
    q_head r' = Some a /\ q_lock r' = false /\
    (sequenced (args_op args) r' = false -> pc = W_io) /\
    (pc = W_io \/ pc = W_wait) /\
    (sequenced (args_op args) r' = true ->
     exists s1 p, threads s1 = threads st' /\
                  scan_from a s1 = Some (p, s1) /\
                  pc = match p with Some _ => W_wait | None => W_io end).
Proof.
  unfold enter_step. intros Hm.
  mbind Hm u s1 He.
  apply io_thread_enter_effect in He
    as (Ha & r & r1 & Hr & Ht1 & Hq1 & Hh1 & Hl1 & Hi1 & Happ1).
  split; [done|].
  mbind Hm r1' s2 Hl. apply load_queue_Some in Hl as [-> Hl].
  rewrite Hq1, lookup_insert_eq in Hl. injection Hl as <-.
  exists r, (set_q_lock false r1). split; [done|].
  assert (forall op, sequenced op (set_q_lock false r1) = sequenced op r1)
    as Hsq by done.
  rewrite Hsq.
  destruct (sequenced (args_op args) r1) eqn:Hs.
  - apply seq_test_effect in Hm
      as (Ht' & (r2 & Hr2 & Hq') & (p & Hscan & Hpc')).
    rewrite Hq1, lookup_insert_eq in Hr2. injection Hr2 as <-.
    rewrite Hq1, insert_insert_eq in Hq'.
    split; [congruence|]. split; [done|]. split; [done|]. split; [done|].
    split; [done|]. split; [subst pc; destruct p; auto|].
    intros _. by exists s1, p.
  - mbind Hm u2 s3 Hu. apply mutex_unlock_Some in Hu as (r2 & Hr2 & ->).
    apply mret_Some in Hm as [-> ->]. simpl.
    rewrite Hq1, lookup_insert_eq in Hr2. injection Hr2 as <-.
    rewrite Hq1, insert_insert_eq.
    split; [done|]. split; [done|]. split; [done|]. split; [done|].
    split; [done|]. split; [by left|done].
Qed.

(** C1, as the code has it.  In every reachable configuration:
    (1) a worker that enters with [LIO_READ], or with [LIO_WRITE] on a queue
    that is not in append mode, is past the sequencing test at once and has
    not waited on the condition variable; a worker that waits is a
    sequenced one (a write on an append-mode queue, or an operation that is
    neither read nor write);
    (2) a sequenced worker that is executing its I/O has no [LIO_WRITE]
    record behind it on the list of its queue: the writes its scan met have
    been unlinked by their cleanup;
    (3) two workers of one append-mode queue that are both executing an
    [LIO_WRITE] are the same worker. *)
Theorem sequenced_workers_follow_writes (c : config) :
  reachable c ->
  (forall a td args c' r',
     step (L_enter a td args) c = Some c' ->
     queues (shared c') !! args_q args = Some r' ->
     (args_op args = LIO_READ \/
      (args_op args = LIO_WRITE /\ q_append r' = 0) ->
      pcs c' !! a = Some W_io) /\
     (pcs c' !! a = Some W_wait -> sequenced (args_op args) r' = true)) /\
  (forall q r, queues (shared c) !! q = Some r ->
     exists l, dll (threads (shared c)) None (q_head r) l /\
       forall l1 a l2 w,
         l = l1 ++ a :: l2 ->
         threads (shared c) !! a = Some w ->
         pcs c !! a = Some W_io ->
         sequenced (at_op w) r = true ->
         forall b, b ∈ l2 -> is_write (threads (shared c)) b = false) /\
  (forall a b wa wb r,
     pcs c !! a = Some W_io -> pcs c !! b = Some W_io ->
     threads (shared c) !! a = Some wa -> threads (shared c) !! b = Some wb ->
     at_q wa = at_q wb -> queues (shared c) !! at_q wa = Some r ->
     at_op wa = LIO_WRITE -> at_op wb = LIO_WRITE -> q_append r <> 0 ->
     a = b).
Proof.
  intros Hreach. pose proof (reachable_inv c Hreach) as (Hqs & Hth & Hpt).
  split; [|split].
  - intros a td args c' r' Hs Hr'. simpl in Hs.
    destruct (pcs c !! a) eqn:Hpa; [discriminate Hs|].
    apply run_worker_Some in Hs as (pc' & st' & Hm & Hsh & Hp).
    apply enter_step_effect in Hm
      as (_ & r & r1 & _ & _ & Hq & _ & _ & Hns & Hpc & _).
    rewrite Hsh, Hq, lookup_insert_eq in Hr'. injection Hr' as <-.
    rewrite Hp, lookup_insert_eq. split.
    + intros Hop. f_equal. apply Hns. unfold sequenced.
      destruct Hop as [->|[-> ->]]; done.
    + intros [= ->]. destruct (sequenced (args_op args) r1) eqn:E; [done|].
      by specialize (Hns eq_refl).
  - intros q r Hr. destruct (Hqs q r Hr) as (l & Hdll & _ & _ & _ & Hseq).
    exists l. split; [done|].
    intros l1 a l2 w Hl Hw Hpc Hsq b Hb.
    by apply (Hseq a Hpc l1 l2 w Hl Hw Hsq b).
  - intros a b wa wb r Hpa Hpb Hwa Hwb Hq Hr Hoa Hob Happ.
    destruct (Hqs _ r Hr) as (l & Hdll & Hnd & Hmem & _ & Hseq).
    assert (a ∈ l) as Hal by (apply Hmem; by exists wa, W_io).
    assert (b ∈ l) as Hbl by (apply Hmem; by exists wb, W_io).
    assert (forall o, o = LIO_WRITE -> sequenced o r = true) as Hsq.
    { intros o ->. unfold sequenced. simpl.
      by destruct (Z.eqb_spec (q_append r) 0). }
    assert (is_write (threads (shared c)) a = true) as Hia.
    { unfold is_write. by rewrite Hwa, Hoa. }
    assert (is_write (threads (shared c)) b = true) as Hib.
    { unfold is_write. by rewrite Hwb, Hob. }
    apply list_elem_of_split in Hal as (l1 & l2 & Hl).
    destruct (decide (a = b)) as [|Hne]; [done|]. exfalso.
    rewrite Hl in Hbl.
    apply elem_of_app in Hbl as [Hbl|Hbl].
    + apply list_elem_of_split in Hbl as (m1 & m2 & Hm).
      assert (l = m1 ++ b :: (m2 ++ a :: l2)) as Hl'.
      { rewrite Hl, Hm, <- app_assoc. done. }
      assert (is_write (threads (shared c)) a = false); [|congruence].
      apply (Hseq b Hpb m1 (m2 ++ a :: l2) wb Hl' Hwb (Hsq _ Hob)).
      apply elem_of_app. right. left.
    + apply elem_of_cons in Hbl as [->|Hbl]; [done|].
      assert (is_write (threads (shared c)) b = false); [|congruence].
      by apply (Hseq a Hpa l1 l2 wa Hl Hwa (Hsq _ Hoa)).
Qed.

(** C9.  Let [a] be on the list of queue [q], with the records [l2]
    behind it.  When another worker [b] links itself (to [q] or to another
    queue), the records behind [a] are still exactly [l2], [b] is not among
    them, and the scan of line 345 from [a] visits [l2] and returns the same
    result after the step as before it. *)
Theorem later_worker_is_not_scanned (c c' : config) (q : addr)
    (r : aio_queue) (l1 l2 : list addr) (a b : addr) (td : Z)
    (args : aio_args) :
  reachable c ->
  queues (shared c) !! q = Some r ->
  dll (threads (shared c)) None (q_head r) (l1 ++ a :: l2) ->
  step (L_enter b td args) c = Some c' ->
  (b ∉ l2) /\
  scan_from a (shared c)
    = Some (first_write (threads (shared c)) l2, shared c) /\
  scan_from a (shared c')
    = Some (first_write (threads (shared c)) l2, shared c') /\
  (exists w', threads (shared c') !! a = Some w' /\
              dll (threads (shared c')) (Some a) (at_next w') l2) /\
  is_write (threads (shared c')) b = (args_op args =? LIO_WRITE).
Proof.
  intros Hreach Hr Hdll Hs.
  pose proof (reachable_inv c Hreach) as (Hqs & Hth & Hpt).
  destruct (Hqs q r Hr) as (l & Hdll0 & Hnd & Hmem & _).
  pose proof (dll_functional _ _ _ _ _ Hdll0 Hdll) as ->.
  destruct (dll_split _ _ _ _ _ _ Hdll) as (w & Hw & _ & _ & Hd2).
  simpl in Hs. destruct (pcs c !! b) eqn:Hpb; [discriminate Hs|].
  apply run_worker_Some in Hs as (pc' & st' & Hm & Hsh & Hp).
  apply enter_step_effect in Hm
    as (Hb & r0 & r1 & Hr0 & Ht & Hq & _).
  set (wnew := fresh_at td args (q_head r0)) in *.
  assert (b ∉ l1 ++ a :: l2) as Hbl.
  { intros Hin. destruct (dll_lookup _ _ _ _ _ Hdll Hin). congruence. }
  assert (a <> b) as Hab.
  { intros ->. apply Hbl. apply elem_of_app. right. left. }
  destruct (Hqs _ r0 Hr0) as (l0 & Hdll1 & Hnd1 & Hmem1 & _).
  assert (forall n, at_next wnew = Some n -> n ∈ l0) as Hnl.
  { intros n Hn. simpl in Hn. apply dll_head in Hdll1.
    rewrite Hdll1 in Hn. destruct l0; [done|]. injection Hn as ->. left. }
  assert (forall x, x ∈ l2 ->
            threads st' !! x = threads (shared c) !! x) as Hsame.
  { intros x Hx.
    assert (x ∈ l1 ++ a :: l2) as Hxl.
    { apply elem_of_app. right. by right. }
    destruct (dll_lookup _ _ _ _ _ Hdll Hxl) as [wx Hwx].
    assert (x <> b) as Hxb by congruence.
    destruct (link_heap_old _ b wnew x wx Hxb Hwx)
      as (wx' & Hx' & _ & _ & _ & _ & Heq).
    rewrite Ht, Hx', Hwx. f_equal. apply Heq. intros Hn. pose proof Hn as Hn0.
    apply Hnl in Hn.
    apply Hmem1 in Hn as (wn & ? & Hwn & Hnq & _).
    apply Hmem in Hxl as (wx2 & ? & Hwx2 & Hxq & _).
    assert (args_q args = q) as Hqq by congruence.
    rewrite Hqq in *. assert (r0 = r) as -> by congruence.
    pose proof (dll_functional _ _ _ _ _ Hdll1 Hdll) as ->.
    apply dll_head in Hdll. simpl in Hn0. rewrite Hdll in Hn0.
    apply NoDup_app in Hnd as (_ & Hn1 & Hn2).
    apply NoDup_cons in Hn2 as [Hn2 _].
    destruct l1 as [|y l1]; simpl in Hn0; injection Hn0 as Hn0.
    - apply Hn2. by rewrite Hn0.
    - apply (Hn1 x); [rewrite <- Hn0; left|by right]. }
  destruct (link_heap_old _ b wnew a w Hab Hw)
    as (w' & Hw' & Hnx' & _).
  assert (dll (threads st') (Some a) (at_next w') l2) as Hd2'.
  { rewrite Hnx'. eapply dll_frame; [exact Hd2|].
    intros x wx Hx Hwx. exists wx. by rewrite (Hsame x Hx). }
  assert (first_write (threads st') l2 = first_write (threads (shared c)) l2)
    as Hfw.
  { apply first_write_agree. intros x Hx. unfold is_write.
    by rewrite (Hsame x Hx). }
  split; [|split; [|split; [|split]]].
  - intros Hin. apply Hbl. apply elem_of_app. right. by right.
  - exact (scan_from_dll _ a w l1 l2 _ _ Hdll Hnd Hw).
  - rewrite Hsh. unfold scan_from. rewrite <- Ht in Hw'.
    rewrite (bind_run _ _ _ _ _ (load_thread_run _ _ _ Hw')).
    unfold get. rewrite (bind_run _ _ st' st' st') by done.
    rewrite <- Hfw. eapply scan_dll; [exact Hd2'|].
    assert (length l2 <= size (threads st'))%nat; [|lia].
    apply NoDup_length_size.
    + apply NoDup_app in Hnd as (_ & _ & Hn). by apply NoDup_cons in Hn as [_ ?].
    + intros x Hx. rewrite (Hsame x Hx).
      apply (dll_lookup _ _ _ _ _ Hdll). apply elem_of_app. right. by right.
  - exists w'. rewrite Hsh. split; [by rewrite Ht|done].
  - rewrite Hsh, Ht. unfold is_write.
    rewrite link_heap_new; [done|done|].
    intros n Hn. apply (dll_lookup _ _ _ _ _ Hdll1). by apply Hnl.
Qed.

(** ** The events of [cleanup] *)

Lemma modify_Some f (u : unit) st st' :
  modify f st = Some (u, st') -> st' = f st.
Proof. unfold modify. by intros [= <-]. Qed.

Lemma interfere_Some env (u : unit) st st' :
  interfere env st = Some (u, st') -> st' = env st.
Proof. unfold interfere, modify. by intros [= <-]. Qed.

Lemma cleanup_ret_trace a cb (u : unit) st st' :
  cleanup_ret a cb st = Some (u, st') ->
  exists w, threads st !! a = Some w /\ threads st' = threads st /\
    trace st' = trace st ++ [EvStoreRet cb (at_ret w)].
Proof.
  unfold cleanup_ret, store_ret. intros Hm.
  mbind Hm w s1 Hl. apply load_thread_Some in Hl as [-> Hw].
  mbind Hm u1 s2 Hs. apply store_cb_Some in Hs as (r & _ & ->).
  apply emit_Some in Hm as ->. by exists w.
Qed.

Lemma cleanup_running_trace a (u : unit) st st' :
  cleanup_running a st = Some (u, st') ->
  exists w, threads st !! a = Some w /\
    trace st' = trace st ++ EvSwapRunning a (at_running w) 0 ::
                  (if at_running w <? 0 then [EvWake (W_running a)] else []) /\
    threads st' = <[a := set_at_running 0 w]> (threads st).
Proof.
  unfold cleanup_running, a_swap_running. intros Hm.
  mbind Hm old s1 Hsw.
  mbind Hsw w s2 Hl. apply load_thread_Some in Hl as [-> Hw].
  mbind Hsw u1 s3 Hs. apply store_thread_Some in Hs as (w1 & Hw1 & ->).
  assert (w1 = w) as -> by congruence.
  mbind Hsw u2 s4 He. apply emit_Some in He as ->.
  apply mret_Some in Hsw as [-> ->].
  exists w. split; [done|].
  destruct (at_running w <? 0).
  - apply emit_Some in Hm as ->. simpl. by rewrite <- app_assoc.
  - apply mret_Some in Hm as [_ ->]. done.
Qed.

Lemma cleanup_err_trace a cb (u : unit) st st' :
  cleanup_err a cb st = Some (u, st') ->
  exists w r, threads st !! a = Some w /\ cbs st !! cb = Some r /\
    threads st' = threads st /\
    trace st' = trace st ++ EvSwapErr cb (__err r) (at_err w) ::
                  (if __err r =? EINPROGRESS then []
                   else [EvWake (W_err cb)]).
Proof.
  unfold cleanup_err, a_swap_err. intros Hm.
  mbind Hm w s1 Hl. apply load_thread_Some in Hl as [-> Hw].
  mbind Hm old s2 Hsw.
  mbind Hsw r s3 Hl. apply load_cb_Some in Hl as [-> Hr].
  mbind Hsw u1 s4 Hs. apply store_cb_Some in Hs as (r1 & _ & ->).
  mbind Hsw u2 s5 He. apply emit_Some in He as ->.
  apply mret_Some in Hsw as [-> ->].
  exists w, r. split; [done|]. split; [done|].
  destruct (__err r =? EINPROGRESS); simpl in Hm.
  - apply mret_Some in Hm as [_ ->]. done.
  - apply emit_Some in Hm as ->. simpl. by rewrite <- app_assoc.
Qed.

Lemma cleanup_fut_trace (u : unit) st st' :
  cleanup_fut st = Some (u, st') ->
  threads st' = threads st /\
  trace st' = trace st ++ EvSwapFut (__aio_fut st) 0 ::
                (if __aio_fut st =? 0 then [] else [EvWake W_fut]).
Proof.
  unfold cleanup_fut. intros Hm.
  mbind Hm old s1 Hsw. unfold a_swap_fut in Hsw. injection Hsw as <- <-.
  destruct (__aio_fut st =? 0); simpl in Hm.
  - apply mret_Some in Hm as [_ ->]. done.
  - apply emit_Some in Hm as ->. simpl. by rewrite <- app_assoc.
Qed.

Lemma unlink_trace a q (u : unit) st st' :
  unlink a q st = Some (u, st') ->
  trace st' = trace st ++ [EvUnlink a q].
Proof.
  unfold unlink. intros Hm.
  mbind Hm w s1 Hl. apply load_thread_Some in Hl as [-> Hw].
  mbind Hm u1 s2 H1.
  assert (trace s2 = trace st) as Ht2.
  { destruct (at_next w).
    - by apply store_thread_Some in H1 as (? & _ & ->).
    - by apply mret_Some in H1 as [_ ->]. }
  mbind Hm w2 s3 Hl. apply load_thread_Some in Hl as [-> Hw2].
  mbind Hm u2 s4 H2.
  assert (trace s4 = trace s2) as Ht4.
  { destruct (at_prev w2).
    - by apply store_thread_Some in H2 as (? & _ & ->).
    - by apply store_queue_Some in H2 as (? & _ & ->). }
  apply emit_Some in Hm as ->. simpl. by rewrite Ht4, Ht2.
Qed.

Lemma cleanup_unlink_trace a q (u : unit) st st' :
  cleanup_unlink a q st = Some (u, st') ->
  trace st' = trace st ++ [EvMutexLock q; EvUnlink a q; EvCondBroadcast q].
Proof.
  unfold cleanup_unlink, pthread_cond_broadcast. intros Hm.
  mbind Hm u1 s1 Hl. apply mutex_lock_Some in Hl as (r & _ & ->).
  mbind Hm u2 s2 Hu. apply unlink_trace in Hu.
  apply emit_Some in Hm as ->. simpl. rewrite Hu. simpl.
  by rewrite <- !app_assoc.
Qed.

Lemma map_store_trace fd v (u : unit) st st' :
  map_store fd v st = Some (u, st') -> trace st' = trace st.
Proof.
  unfold map_store. intros Hm.
  destruct (aio_map st) as [t|]; [|discriminate Hm].
  destruct (t !! idx_a fd) as [ta|]; [|discriminate Hm].
  destruct (ta !! idx_b fd) as [tb|]; [|discriminate Hm].
  destruct (tb !! idx_c fd) as [tc|]; [|discriminate Hm].
  apply (f_equal (fun o : option (unit * state) =>
                    match o with Some (_, s) => trace s | None => [] end))
    in Hm.
  exact (eq_sym Hm).
Qed.

Lemma rwlock_wrlock_Some (u : unit) st st' :
  pthread_rwlock_wrlock st = Some (u, st') ->
  trace st' = trace st ++ [EvWrLock].
Proof.
  unfold pthread_rwlock_wrlock. intros Hm.
  mbind Hm u1 s1 H1. apply modify_Some in H1 as ->.
  by apply emit_Some in Hm as ->.
Qed.

Lemma rwlock_unlock_Some (u : unit) st st' :
  pthread_rwlock_unlock st = Some (u, st') ->
  trace st' = trace st ++ [EvRwUnlock].
Proof.
  unfold pthread_rwlock_unlock. intros Hm.
  mbind Hm u1 s1 H1. apply modify_Some in H1 as ->.
  by apply emit_Some in Hm as ->.
Qed.

(** The events of [__aio_unref_queue]: the fast path, the slow path that
    finds new references, and the slow path that frees the queue. *)
Lemma unref_trace q env (u : unit) st st' :
  (forall s, trace (env s) = trace s) ->
  __aio_unref_queue q env st = Some (u, st') ->
  exists evs, trace st' = trace st ++ evs /\
    (evs = [EvMutexUnlock q] \/
     evs = [EvMutexUnlock q; EvWrLock; EvMutexLock q; EvRwUnlock;
            EvMutexUnlock q] \/
     evs = [EvMutexUnlock q; EvWrLock; EvMutexLock q; EvRwUnlock;
            EvMutexUnlock q; EvFree q]).
Proof.
  intros Henv. unfold __aio_unref_queue. intros Hm.
  mbind Hm r s1 Hl. apply load_queue_Some in Hl as [-> Hr].
  destruct (1 <? q_ref r).
  - mbind Hm u1 s2 Hs. apply store_queue_Some in Hs as (r1 & _ & ->).
    apply mutex_unlock_Some in Hm as (r2 & _ & ->).
    exists [EvMutexUnlock q]. split; [done|by left].
  - mbind Hm u1 s2 Hu. apply mutex_unlock_Some in Hu as (r1 & _ & ->).
    mbind Hm u2 s3 Hi. apply interfere_Some in Hi as ->.
    mbind Hm u3 s4 Hw. apply rwlock_wrlock_Some in Hw.
    mbind Hm u4 s5 Hk. apply mutex_lock_Some in Hk as (r2 & _ & ->).
    mbind Hm r3 s6 Hl. apply load_queue_Some in Hl as [-> Hr3].
    rewrite Henv in Hw. simpl in Hw.
    destruct (q_ref r3 =? 1).
    + mbind Hm u5 s7 Hms. apply map_store_trace in Hms.
      mbind Hm u6 s8 Hmo. apply modify_Some in Hmo as ->.
      mbind Hm u7 s9 Hru. apply rwlock_unlock_Some in Hru.
      mbind Hm u8 s10 Hmu. apply mutex_unlock_Some in Hmu as (r4 & _ & ->).
      mbind Hm u9 s11 Hmo. apply modify_Some in Hmo as ->.
      apply emit_Some in Hm as ->. simpl in *.
      eexists. split; [|right; right; reflexivity].
      rewrite Hru, Hms. simpl. rewrite Hw. by rewrite <- !app_assoc.
    + mbind Hm u5 s7 Hs. apply store_queue_Some in Hs as (r4 & _ & ->).
      mbind Hm u7 s9 Hru. apply rwlock_unlock_Some in Hru.
      apply mutex_unlock_Some in Hm as (r5 & _ & ->). simpl in *.
      eexists. split; [|right; left; reflexivity].
      rewrite Hru. simpl. rewrite Hw. by rewrite <- !app_assoc.
Qed.

Lemma notify_trace sev (u : unit) st st' :
  notify sev st = Some (u, st') ->
  trace st' = trace st ++
    (if sigev_notify sev =? SIGEV_SIGNAL
     then [EvSigqueue (sigev_signo sev) (sigev_value sev) SI_ASYNCIO]
     else []) ++
    (if sigev_notify sev =? SIGEV_THREAD
     then [EvCallback (sigev_notify_function sev) (sigev_value sev)]
     else []).
Proof.
  unfold notify. intros Hm. mbind Hm u1 s1 H1.
  assert (trace s1 = trace st ++
    (if sigev_notify sev =? SIGEV_SIGNAL
     then [EvSigqueue (sigev_signo sev) (sigev_value sev) SI_ASYNCIO]
     else [])) as Ht1.
  { destruct (sigev_notify sev =? SIGEV_SIGNAL).
    - by apply emit_Some in H1 as ->.
    - apply mret_Some in H1 as [_ ->]. by rewrite app_nil_r. }
  destruct (sigev_notify sev =? SIGEV_THREAD).
  - apply emit_Some in Hm as ->. simpl. rewrite Ht1. by rewrite <- app_assoc.
  - apply mret_Some in Hm as [_ ->]. by rewrite app_nil_r.
Qed.


(** ** The events of a submission *)

Lemma silent_ret {A : Type} (a : A) : silent (mret a : M A).
Proof. intros st b st' Hm. by apply mret_Some in Hm as [_ ->]. Qed.

Lemma silent_bind {A B : Type} (m : M A) (f : A -> M B) :
  silent m -> (forall a, silent (f a)) -> silent (m ≫= f).
Proof.
  intros Hm Hf st b st' Hr. mbind Hr a s1 H1.
  rewrite (Hf a _ _ _ Hr). by apply (Hm _ _ _ H1).
Qed.

Lemma silent_modify (f : state -> state) :
  (forall s, trace (f s) = trace s) -> silent (modify f).
Proof. intros Hf st u st' Hm. apply modify_Some in Hm as ->. apply Hf. Qed.

Lemma silent_calloc : silent calloc.
Proof.
  intros st b st'. unfold calloc. destruct (mem st); by intros [= _ <-].
Qed.

Lemma silent_alloc v :
  silent (ok ← calloc;
          if ok : bool then modify (set_aio_map v);; mret true
          else mret false).
Proof.
  apply silent_bind; [apply silent_calloc|]. intros [|].
  - apply silent_bind; [by apply silent_modify|]. intros _. apply silent_ret.
  - apply silent_ret.
Qed.

Lemma silent_ensure_map : silent ensure_map.
Proof.
  intros st b st'. unfold ensure_map.
  destruct (aio_map st); [by intros [= _ <-]|]. apply silent_alloc.
Qed.

Lemma silent_ensure_a fd : silent (ensure_a fd).
Proof.
  intros st b st'. unfold ensure_a.
  destruct (aio_map st) as [t|]; [|done].
  destruct (t !! idx_a fd); [by intros [= _ <-]|]. apply silent_alloc.
Qed.

Lemma silent_ensure_b fd : silent (ensure_b fd).
Proof.
  intros st b st'. unfold ensure_b.
  destruct (aio_map st) as [t|]; [|done].
  destruct (t !! idx_a fd) as [ta|]; [|done].
  destruct (ta !! idx_b fd); [by intros [= _ <-]|]. apply silent_alloc.
Qed.

Lemma silent_ensure_c fd : silent (ensure_c fd).
Proof.
  intros st b st'. unfold ensure_c.
  destruct (aio_map st) as [t|]; [|done].
  destruct (t !! idx_a fd) as [ta|]; [|done].
  destruct (ta !! idx_b fd) as [tb|]; [|done].
  destruct (tb !! idx_c fd); [by intros [= _ <-]|]. apply silent_alloc.
Qed.

Lemma silent_map_store fd v : silent (map_store fd v).
Proof. intros st [] st'. apply map_store_trace. Qed.

Lemma silent_ensure_queue fd : silent (ensure_queue fd).
Proof.
  intros st b st'. unfold ensure_queue.
  destruct (map_lookup (aio_map st) fd); [by intros [= _ <-]|].
  apply silent_bind; [apply silent_calloc|]. intros [|].
  - apply silent_bind; [by apply silent_modify|]. intros _.
    apply silent_bind; [apply silent_map_store|]. intros _.
    apply silent_bind; [by apply silent_modify|]. intros _.
    apply silent_ret.
  - apply silent_ret.
Qed.

Lemma silent_create_queue fd : silent (create_queue fd).
Proof.
  unfold create_queue.
  apply silent_bind; [apply silent_ensure_map|]. intros [|]; simpl;
    [|apply silent_ret].
  apply silent_bind; [apply silent_ensure_a|]. intros [|]; simpl;
    [|apply silent_ret].
  apply silent_bind; [apply silent_ensure_b|]. intros [|]; simpl;
    [|apply silent_ret].
  apply silent_bind; [apply silent_ensure_c|]. intros [|]; simpl;
    [|apply silent_ret].
  apply silent_ensure_queue.
Qed.

Lemma silent_init_stack_size : silent init_stack_size.
Proof.
  intros st b st'. unfold init_stack_size.
  destruct (io_thread_stack_size st =? 0); by intros [= _ <-].
Qed.

Lemma silent_fcntl_getfd fd : silent (fcntl_getfd fd).
Proof.
  intros st b st'. unfold fcntl_getfd.
  destruct (fdtab st !! fd); by intros [= _ <-].
Qed.

Lemma get_Some (x st st' : state) :
  get st = Some (x, st') -> x = st /\ st' = st.
Proof. unfold get. by intros [= <- <-]. Qed.

Lemma rwlock_rdlock_Some (u : unit) st st' :
  pthread_rwlock_rdlock st = Some (u, st') ->
  trace st' = trace st ++ [EvRdLock].
Proof.
  unfold pthread_rwlock_rdlock. intros Hm.
  mbind Hm u1 s1 H1. apply modify_Some in H1 as ->.
  by apply emit_Some in Hm as ->.
Qed.

(** The events of a call of [__aio_get_queue] that returns a queue: it was
    found under the read lock, or created under the write lock. *)
Lemma get_queue_trace fd need env q st st' :
  (forall s, trace (env s) = trace s) ->
  __aio_get_queue fd need env st = Some (Some q, st') ->
  trace st' = trace st ++ [EvRdLock; EvMutexLock q; EvRwUnlock] \/
  trace st' = trace st ++ [EvRdLock; EvRwUnlock; EvSigBlock; EvWrLock;
                           EvMutexLock q; EvRwUnlock; EvSigRestore].
Proof.
  intros Henv. unfold __aio_get_queue. intros Hm.
  destruct (fd <? 0).
  { mbind Hm u s1 H1. by apply mret_Some in Hm as [? _]. }
  mbind Hm u1 s1 H1. apply rwlock_rdlock_Some in H1.
  mbind Hm x s2 H2. apply get_Some in H2 as [-> ->].
  destruct (map_lookup (aio_map s1) fd) as [q0|].
  - mbind Hm u2 s2 H2. apply mutex_lock_Some in H2 as (r & _ & ->).
    mbind Hm u3 s3 H3. apply rwlock_unlock_Some in H3.
    apply mret_Some in Hm as [[= ->] ->]. left.
    rewrite H3. simpl. rewrite H1. by rewrite <- !app_assoc.
  - destruct need.
    2:{ mbind Hm u2 s2 H2. by apply mret_Some in Hm as [? _]. }
    mbind Hm u2 s2 H2. apply rwlock_unlock_Some in H2.
    mbind Hm ok s3 H3. apply silent_fcntl_getfd in H3.
    destruct ok; simpl in Hm; [|by apply mret_Some in Hm as [? _]].
    mbind Hm u4 s4 H4. apply interfere_Some in H4 as ->.
    mbind Hm u5 s5 H5. apply emit_Some in H5 as ->.
    mbind Hm u6 s6 H6. apply rwlock_wrlock_Some in H6.
    mbind Hm u7 s7 H7. apply silent_init_stack_size in H7.
    mbind Hm r s8 H8. apply silent_create_queue in H8.
    destruct r as [q1|].
    2:{ mbind Hm u9 s9 H9. mbind Hm u10 s10 H10.
        by apply mret_Some in Hm as [? _]. }
    mbind Hm u9 s9 H9. apply mutex_lock_Some in H9 as (r & _ & ->).
    mbind Hm u10 s10 H10. apply rwlock_unlock_Some in H10.
    mbind Hm u11 s11 H11. apply emit_Some in H11 as ->.
    apply mret_Some in Hm as [[= ->] ->]. right.
    simpl. rewrite H10. simpl. rewrite H8, H7, H6. simpl.
    rewrite Henv, H3, H2, H1. by rewrite <- !app_assoc.
Qed.

Lemma store_err_trace c v (u : unit) st st' :
  store_err c v st = Some (u, st') ->
  trace st' = trace st ++ [EvStoreErr c v].
Proof.
  unfold store_err. intros Hm.
  mbind Hm u1 s1 H1. apply store_cb_Some in H1 as (r & _ & ->).
  by apply emit_Some in Hm as ->.
Qed.

(** The events of an accepted submission. *)
Lemma submit_accepted_trace c op spawn_ok env st st' :
  (forall p s, trace (env p s) = trace s) ->
  submit c op spawn_ok env st = Some (0, st') ->
  exists q at0 pre,
    trace st' = trace st ++ pre ++
      [EvMutexUnlock q; EvSigBlock; EvStoreErr c EINPROGRESS;
       EvSpawn c op q at0; EvSigRestore; EvSemWait] /\
    (pre = [EvRdLock; EvMutexLock q; EvRwUnlock] \/
     pre = [EvRdLock; EvRwUnlock; EvSigBlock; EvWrLock;
            EvMutexLock q; EvRwUnlock; EvSigRestore]).
Proof.
  intros Henv. unfold submit. intros Hm.
  mbind Hm cb s1 H1. apply load_cb_Some in H1 as [-> Hcb].
  mbind Hm oq s2 H2. destruct oq as [q|].
  2:{ mbind Hm e s3 H3. mbind Hm u4 s4 H4. mbind Hm u5 s5 H5.
      mbind Hm e6 s6 H6. mbind Hm u7 s7 H7.
      by apply mret_Some in Hm as [? _]. }
  apply get_queue_trace in H2; [|apply Henv].
  mbind Hm r s3 H3. apply load_queue_Some in H3 as [-> Hr].
  mbind Hm u4 s4 H4. apply store_queue_Some in H4 as (r4 & _ & ->).
  mbind Hm u5 s5 H5. apply mutex_unlock_Some in H5 as (r5 & _ & ->).
  mbind Hm x s6 H6. apply get_Some in H6 as [-> ->].
  mbind Hm u7 s7 H7. apply emit_Some in H7 as ->.
  mbind Hm u8 s8 H8. apply interfere_Some in H8 as ->.
  mbind Hm u9 s9 H9. apply store_err_trace in H9.
  destruct spawn_ok.
  2:{ mbind Hm u10 s10 H10. mbind Hm u11 s11 H11. mbind Hm u12 s12 H12.
      mbind Hm u13 s13 H13. mbind Hm u14 s14 H14. mbind Hm u15 s15 H15.
      by apply mret_Some in Hm as [? _]. }
  mbind Hm u10 s10 H10. apply emit_Some in H10 as ->.
  mbind Hm u11 s11 H11. apply emit_Some in H11 as ->.
  mbind Hm u12 s12 H12. apply interfere_Some in H12 as ->.
  mbind Hm u13 s13 H13. apply emit_Some in H13 as ->.
  apply mret_Some in Hm as [_ ->].
  eexists q, _. 
  simpl. rewrite Henv. simpl. rewrite H9, Henv. simpl.
  destruct H2 as [H2|H2]; rewrite H2.
  - eexists. split; [|left; reflexivity]. by rewrite <- !app_assoc.
  - eexists. split; [|right; reflexivity]. by rewrite <- !app_assoc.
Qed.

(** ** The events of a worker *)

Lemma own_fields_refl w : own_fields w w.
Proof. by repeat split. Qed.

Lemma own_fields_trans w1 w2 w3 :
  own_fields w1 w2 -> own_fields w2 w3 -> own_fields w1 w3.
Proof.
  intros (? & ? & ? & ? & ? & ?) (? & ? & ? & ? & ? & ?).
  repeat split; try congruence. auto.
Qed.

Lemma classify_trace fd q (u : unit) st st' :
  classify fd q st = Some (u, st') -> trace st' = trace st.
Proof.
  unfold classify. intros Hm.
  mbind Hm r s1 H1. apply load_queue_Some in H1 as [-> _].
  destruct (q_init r =? 0).
  - mbind Hm x s2 H2. apply get_Some in H2 as [-> ->].
    by apply store_queue_Some in Hm as (? & _ & ->).
  - by apply mret_Some in Hm as [_ ->].
Qed.

Lemma io_thread_enter_trace a td args (u : unit) st st' :
  io_thread_enter a td args st = Some (u, st') ->
  trace st' = trace st ++ [EvMutexLock (args_q args); EvSemPost;
                           EvLink a (args_q args)] /\
  exists w, threads st' !! a = Some w /\
    at_cb w = args_cb args /\ at_q w = args_q args /\
    at_op w = args_op args /\ at_err w = ECANCELED /\ at_ret w = -1 /\
    at_running w = 1.
Proof.
  intros Hm. split.
  - unfold io_thread_enter in Hm.
    mbind Hm cb s1 H1. apply load_cb_Some in H1 as [-> _].
    mbind Hm u2 s2 H2. apply mutex_lock_Some in H2 as (r2 & _ & ->).
    mbind Hm u3 s3 H3. apply emit_Some in H3 as ->.
    mbind Hm x s4 H4. apply get_Some in H4 as [-> ->].
    simpl in Hm. destruct (threads st !! a); [done|].
    mbind Hm r s5 H5. apply load_queue_Some in H5 as [-> _].
    mbind Hm u6 s6 H6. apply modify_Some in H6 as ->.
    mbind Hm u7 s7 H7.
    assert (trace s7 = trace st ++ [EvMutexLock (args_q args); EvSemPost])
      as Ht7.
    { destruct (q_head r).
      - apply store_thread_Some in H7 as (? & _ & ->). simpl.
        by rewrite <- app_assoc.
      - apply mret_Some in H7 as [_ ->]. simpl. by rewrite <- app_assoc. }
    mbind Hm u8 s8 H8. apply store_queue_Some in H8 as (? & _ & ->).
    mbind Hm u9 s9 H9. apply emit_Some in H9 as ->.
    apply classify_trace in Hm. rewrite Hm. simpl. rewrite Ht7.
    by rewrite <- app_assoc.
  - apply io_thread_enter_effect in Hm as (Ha & r & r' & _ & Ht & _).
    rewrite Ht. unfold link_heap.
    destruct (at_next (fresh_at td args (q_head r))) as [n|].
    + destruct (decide (n = a)) as [->|Hn].
      * rewrite lookup_alter_eq, lookup_insert_eq. simpl.
        eexists. split; [reflexivity|]. by repeat split.
      * rewrite lookup_alter_ne by done. rewrite lookup_insert_eq.
        eexists. split; [reflexivity|]. by repeat split.
    + rewrite lookup_insert_eq.
      eexists. split; [reflexivity|]. by repeat split.
Qed.

Lemma scan_from_state a p st st' :
  scan_from a st = Some (p, st') -> st' = st.
Proof.
  unfold scan_from. intros Hm.
  mbind Hm w s1 H1. apply load_thread_Some in H1 as [-> _].
  mbind Hm x s2 H2. apply get_Some in H2 as [-> ->].
  by apply scan_state in Hm.
Qed.

Lemma cond_wait_trace a q env w (u : unit) st st' :
  worker_rely a env ->
  threads st !! a = Some w ->
  pthread_cond_wait q env st = Some (u, st') ->
  trace st' = trace st ++ [EvCondWait q] /\
  exists w', threads st' !! a = Some w' /\ own_fields w w'.
Proof.
  intros [Htr Hrec] Hw. unfold pthread_cond_wait. intros Hm.
  mbind Hm u1 s1 H1. apply emit_Some in H1 as ->.
  mbind Hm u2 s2 H2. apply store_queue_Some in H2 as (r2 & _ & ->).
  mbind Hm u3 s3 H3. apply interfere_Some in H3 as ->.
  apply store_queue_Some in Hm as (r4 & _ & ->). simpl.
  split; [by rewrite Htr|]. by apply Hrec.
Qed.

Lemma seq_wait_trace wakes :
  forall f a q env w res st st',
    (forall n, worker_rely a (env n)) ->
    threads st !! a = Some w ->
    seq_wait wakes f a q env st = Some (res, st') ->
    exists evs w', trace st' = trace st ++ evs /\
      Forall (fun e => e = EvCondWait q) evs /\
      threads st' !! a = Some w' /\ own_fields w w' /\
      (res = Canceled -> f = CanceledInWait).
Proof.
  induction wakes as [|n IH]; intros f a q env w res st st' Hrely Hw Hm;
    simpl in Hm.
  - mbind Hm p s1 H1. apply scan_from_state in H1 as ->.
    destruct p as [p|].
    + destruct f.
      * apply mret_Some in Hm as [-> ->]. exists [], w.
        rewrite app_nil_r. by auto using own_fields_refl.
      * apply mret_Some in Hm as [-> ->]. exists [], w.
        rewrite app_nil_r. by auto using own_fields_refl.
      * mbind Hm u2 s2 H2.
        apply (cond_wait_trace a q _ w) in H2 as (Ht & w' & Hw' & Ho);
          [|apply Hrely|done].
        apply mret_Some in Hm as [_ ->].
        exists [EvCondWait q], w'. by auto.
    + apply mret_Some in Hm as [-> ->]. exists [], w.
      rewrite app_nil_r. by auto using own_fields_refl.
  - mbind Hm p s1 H1. apply scan_from_state in H1 as ->.
    destruct p as [p|].
    + mbind Hm u2 s2 H2.
      apply (cond_wait_trace a q _ w) in H2 as (Ht & w' & Hw' & Ho);
        [|apply Hrely|done].
      destruct (IH f a q env w' res s2 st' Hrely Hw' Hm)
        as (evs & w'' & Ht' & Hall & Hw'' & Ho' & Hc).
      exists (EvCondWait q :: evs), w''. split; [|split; [|split; [|split]]].
      * rewrite Ht', Ht. by rewrite <- app_assoc.
      * by constructor.
      * done.
      * by eapply own_fields_trans.
      * done.
    + apply mret_Some in Hm as [-> ->]. exists [], w.
      rewrite app_nil_r. by auto using own_fields_refl.
Qed.

Lemma io_perform_trace a f (b : bool) st st' :
  io_perform a f st = Some (b, st') ->
  exists w call fd, threads st !! a = Some w /\
    trace st' = trace st ++ [EvSyscall call fd] /\
    threads st' !! a
    = Some match f with
           | Completed ret e =>
               set_at_result ret (if ret <? 0 then e else 0) w
           | _ => w
           end.
Proof.
  unfold io_perform. intros Hm.
  mbind Hm w s1 H1. apply load_thread_Some in H1 as [-> Hw].
  mbind Hm r s2 H2. apply load_queue_Some in H2 as [-> _].
  mbind Hm c s3 H3. apply load_cb_Some in H3 as [-> _].
  destruct (io_call_of (at_op w) r) as [call|]; [|done].
  mbind Hm u4 s4 H4. apply emit_Some in H4 as ->.
  exists w, call, (aio_fildes c). split; [done|].
  destruct f.
  - mbind Hm u5 s5 H5. apply store_thread_Some in H5 as (w5 & Hw5 & ->).
    apply mret_Some in Hm as [_ ->]. simpl in *.
    assert (w5 = w) as -> by congruence.
    split; [done|]. by rewrite lookup_insert_eq.
  - by apply mret_Some in Hm as [_ ->].
  - by apply mret_Some in Hm as [_ ->].
Qed.




(** ** The slots of the descriptor map *)

Lemma land_255 x : Z.land x 255 = x mod 256.
Proof. exact (Z.land_ones x 8 ltac:(lia)). Qed.

Lemma key_digits fd :
  fd = 16777216 * idx_a fd + 65536 * idx_b fd + 256 * idx_c fd + idx_d fd /\
  0 <= idx_b fd < 256 /\ 0 <= idx_c fd < 256 /\ 0 <= idx_d fd < 256.
Proof.
  unfold idx_a, idx_b, idx_c, idx_d.
  rewrite !land_255, !Z.shiftr_div_pow2 by lia.
  change (2 ^ 24) with 16777216. change (2 ^ 16) with 65536.
  change (2 ^ 8) with 256.
  pose proof (Z.div_mod fd 256 ltac:(lia)).
  pose proof (Z.div_mod (fd / 256) 256 ltac:(lia)).
  pose proof (Z.div_mod (fd / 65536) 256 ltac:(lia)).
  assert (fd / 256 / 256 = fd / 65536) as E1
    by (rewrite Z.div_div by lia; reflexivity).
  assert (fd / 65536 / 256 = fd / 16777216) as E2
    by (rewrite Z.div_div by lia; reflexivity).
  pose proof (Z.mod_pos_bound fd 256 ltac:(lia)).
  pose proof (Z.mod_pos_bound (fd / 256) 256 ltac:(lia)).
  pose proof (Z.mod_pos_bound (fd / 65536) 256 ltac:(lia)).
  rewrite E1 in *. rewrite E2 in *. lia.
Qed.

(** The four indices taken from a descriptor (lines 157-158) stay inside
    the tables that lines 172-178 allocate (128 entries at the top, 256
    below), and two different descriptors never select the same slot: a
    store to the slot of one leaves what the other finds untouched. *)
Theorem distinct_descriptors_distinct_slots (fd fd' : Z) :
  0 <= fd < 2 ^ 31 -> 0 <= fd' < 2 ^ 31 -> fd <> fd' ->
  key fd <> key fd' /\
  (0 <= idx_a fd < 128 /\ 0 <= idx_b fd < 256 /\
   0 <= idx_c fd < 256 /\ 0 <= idx_d fd < 256) /\
  forall v st st',
    map_store fd v st = Some (tt, st') ->
    map_lookup (aio_map st') fd = v /\
    map_lookup (aio_map st') fd' = map_lookup (aio_map st) fd'.
Proof.
  intros Hfd Hfd' Hne.
  destruct (key_digits fd) as (Ed & Hb & Hc & Hd).
  destruct (key_digits fd') as (Ed' & _).
  assert (key fd <> key fd') as Hk.
  { unfold key. intros [= Ea Eb Ec Edd]. apply Hne.
    rewrite Ed, Ed', Ea, Eb, Ec, Edd. reflexivity. }
  split; [exact Hk|]. split.
  - split; [|done]. unfold idx_a in *. rewrite Z.shiftr_div_pow2 in * by lia.
    change (2 ^ 24) with 16777216 in *. change (2 ^ 31) with 2147483648 in *.
    lia.
  - intros v st st' Hs.
    destruct (map_store_spec fd v st st' Hs) as (Hsame & Hother & _).
    split; [by apply Hsame|]. apply Hother. congruence.
Qed.

(** ** Failures of [__aio_get_queue] *)

Lemma calloc_fail st st' :
  calloc st = Some (false, st') -> errno st' = ENOMEM /\ mem st' = O.
Proof.
  unfold calloc. destruct (mem st) eqn:E; [|done].
  intros [= <-]. done.
Qed.

Lemma alloc_fail v st st' :
  (ok ← calloc;
   if ok : bool then modify (set_aio_map v);; mret true
   else mret false) st = Some (false, st') ->
  errno st' = ENOMEM /\ mem st' = O.
Proof.
  intros Hm. mbind Hm ok s1 H1. destruct ok.
  - mbind Hm u s2 H2. by apply mret_Some in Hm as [? _].
  - apply mret_Some in Hm as [_ ->]. exact (calloc_fail _ _ H1).
Qed.

Lemma ensure_map_fail st st' :
  ensure_map st = Some (false, st') -> errno st' = ENOMEM /\ mem st' = O.
Proof.
  unfold ensure_map. destruct (aio_map st); [done|]. apply alloc_fail.
Qed.

Lemma ensure_a_fail fd st st' :
  ensure_a fd st = Some (false, st') -> errno st' = ENOMEM /\ mem st' = O.
Proof.
  unfold ensure_a. destruct (aio_map st) as [t|]; [|done].
  destruct (t !! idx_a fd); [done|]. apply alloc_fail.
Qed.

Lemma ensure_b_fail fd st st' :
  ensure_b fd st = Some (false, st') -> errno st' = ENOMEM /\ mem st' = O.
Proof.
  unfold ensure_b. destruct (aio_map st) as [t|]; [|done].
  destruct (t !! idx_a fd) as [ta|]; [|done].
  destruct (ta !! idx_b fd); [done|]. apply alloc_fail.
Qed.

Lemma ensure_c_fail fd st st' :
  ensure_c fd st = Some (false, st') -> errno st' = ENOMEM /\ mem st' = O.
Proof.
  unfold ensure_c. destruct (aio_map st) as [t|]; [|done].
  destruct (t !! idx_a fd) as [ta|]; [|done].
  destruct (ta !! idx_b fd) as [tb|]; [|done].
  destruct (tb !! idx_c fd); [done|]. apply alloc_fail.
Qed.

Lemma ensure_queue_fail fd st st' :
  ensure_queue fd st = Some (None, st') -> errno st' = ENOMEM /\ mem st' = O.
Proof.
  unfold ensure_queue. destruct (map_lookup (aio_map st) fd); [done|].
  intros Hm. mbind Hm ok s1 H1. destruct ok.
  - mbind Hm u2 s2 H2. mbind Hm u3 s3 H3. mbind Hm u4 s4 H4.
    by apply mret_Some in Hm as [? _].
  - apply mret_Some in Hm as [_ ->]. exact (calloc_fail _ _ H1).
Qed.

Lemma create_queue_fail fd st st' :
  create_queue fd st = Some (None, st') -> errno st' = ENOMEM /\ mem st' = O.
Proof.
  unfold create_queue. intros Hm.
  mbind Hm ok1 s1 H1. destruct ok1; simpl in Hm.
  2:{ apply mret_Some in Hm as [_ ->]. by apply ensure_map_fail in H1. }
  mbind Hm ok2 s2 H2. destruct ok2; simpl in Hm.
  2:{ apply mret_Some in Hm as [_ ->]. by apply ensure_a_fail in H2. }
  mbind Hm ok3 s3 H3. destruct ok3; simpl in Hm.
  2:{ apply mret_Some in Hm as [_ ->]. by apply ensure_b_fail in H3. }
  mbind Hm ok4 s4 H4. destruct ok4; simpl in Hm.
  2:{ apply mret_Some in Hm as [_ ->]. by apply ensure_c_fail in H4. }
  by apply ensure_queue_fail in Hm.
Qed.

Lemma rwlock_rdlock_state (u : unit) st st' :
  pthread_rwlock_rdlock st = Some (u, st') ->
  st' = set_trace (trace st ++ [EvRdLock]) (set_maplock RwRead st).
Proof.
  unfold pthread_rwlock_rdlock. intros Hm.
  mbind Hm u1 s1 H1. apply modify_Some in H1 as ->.
  by apply emit_Some in Hm as ->.
Qed.

Lemma rwlock_unlock_state (u : unit) st st' :
  pthread_rwlock_unlock st = Some (u, st') ->
  st' = set_trace (trace st ++ [EvRwUnlock]) (set_maplock RwFree st).
Proof.
  unfold pthread_rwlock_unlock. intros Hm.
  mbind Hm u1 s1 H1. apply modify_Some in H1 as ->.
  by apply emit_Some in Hm as ->.
Qed.

(** [__aio_get_queue] returns null for exactly three reasons, and says
    which through [errno]: the descriptor is negative or (when a queue was
    needed) not open, with [EBADF]; an allocation failed, with [ENOMEM]
    and the allocator exhausted; or no queue was needed and none exists,
    with [errno] as it was.  In every case but the first the map lock has
    been released. *)
Theorem get_queue_failure_errno (fd : Z) (need : bool)
    (env : state -> state) (st st' : state) :
  __aio_get_queue fd need env st = Some (None, st') ->
  (fd < 0 /\ st' = set_errno EBADF st) \/
  (0 <= fd /\ maplock st' = RwFree /\ map_lookup (aio_map st) fd = None /\
   ((need = false /\ errno st' = errno st) \/
    (need = true /\ fdtab st !! fd = None /\ errno st' = EBADF) \/
    (need = true /\ is_Some (fdtab st !! fd) /\
     errno st' = ENOMEM /\ mem st' = O))).
Proof.
  unfold __aio_get_queue. intros Hm.
  destruct (Z.ltb_spec fd 0) as [Hfd|Hfd].
  { left. mbind Hm u s1 H1. apply modify_Some in H1 as ->.
    by apply mret_Some in Hm as [_ ->]. }
  right. split; [done|].
  mbind Hm u1 s1 H1. apply rwlock_rdlock_state in H1 as ->.
  mbind Hm x s2 H2. apply get_Some in H2 as [-> ->].
  simpl in Hm.
  destruct (map_lookup (aio_map st) fd) as [q0|] eqn:Hl.
  { mbind Hm u2 s2 H2. mbind Hm u3 s3 H3.
    by apply mret_Some in Hm as [? _]. }
  destruct need.
  2:{ mbind Hm u2 s2 H2. apply rwlock_unlock_state in H2 as ->.
      apply mret_Some in Hm as [_ ->]. split; [done|]. split; [done|].
      by left. }
  mbind Hm u2 s2 H2. apply rwlock_unlock_state in H2 as ->.
  mbind Hm ok s3 H3. unfold fcntl_getfd in H3. simpl in H3.
  destruct (fdtab st !! fd) as [d|] eqn:Hfdt.
  2:{ injection H3 as <- <-. simpl in Hm.
      apply mret_Some in Hm as [_ ->]. split; [done|]. split; [done|].
      right. left. done. }
  injection H3 as <- <-. simpl in Hm.
  mbind Hm u4 s4 H4. apply interfere_Some in H4 as ->.
  mbind Hm u5 s5 H5. apply emit_Some in H5 as ->.
  mbind Hm u6 s6 H6.
  mbind Hm u7 s7 H7.
  mbind Hm r s8 H8.
  destruct r as [q1|].
  { mbind Hm u9 s9 H9. mbind Hm u10 s10 H10. mbind Hm u11 s11 H11.
    by apply mret_Some in Hm as [? _]. }
  apply create_queue_fail in H8 as [He Hmem].
  mbind Hm u9 s9 H9. apply rwlock_unlock_state in H9 as ->.
  mbind Hm u10 s10 H10. apply emit_Some in H10 as ->.
  apply mret_Some in Hm as [_ ->]. split; [done|]. split; [done|].
  right. right. done.
Qed.

(** When no queue is needed ([need = 0], as in [aio_cancel] and
    [__aio_close]) the function only looks: nothing is allocated, the map,
    the queue count and the set of queues stay as they were, the
    descriptor is not probed, and the result is what the map holds. *)
Theorem get_queue_lookup_only (fd : Z) (env : state -> state)
    (r : option addr) (st st' : state) :
  __aio_get_queue fd false env st = Some (r, st') ->
  r = (if fd <? 0 then None else map_lookup (aio_map st) fd) /\
  mem st' = mem st /\ aio_map st' = aio_map st /\
  aio_fd_cnt st' = aio_fd_cnt st /\
  dom (queues st') = dom (queues st) /\
  threads st' = threads st /\ cbs st' = cbs st /\
  io_thread_stack_size st' = io_thread_stack_size st /\
  (forall q, r = Some q ->
     exists r0, queues st !! q = Some r0 /\
                queues st' = <[q := set_q_lock true r0]> (queues st)) /\
  (r = None -> queues st' = queues st).
Proof.
  unfold __aio_get_queue. intros Hm.
  destruct (fd <? 0).
  { mbind Hm u s1 H1. apply modify_Some in H1 as ->.
    apply mret_Some in Hm as [-> ->]. by repeat split. }
  mbind Hm u1 s1 H1. apply rwlock_rdlock_state in H1 as ->.
  mbind Hm x s2 H2. apply get_Some in H2 as [-> ->].
  simpl in Hm.
  destruct (map_lookup (aio_map st) fd) as [q0|] eqn:Hl.
  - mbind Hm u2 s2 H2. apply mutex_lock_Some in H2 as (r0 & Hr0 & ->).
    mbind Hm u3 s3 H3. apply rwlock_unlock_state in H3 as ->.
    apply mret_Some in Hm as [-> ->]. simpl in *.
    split; [done|]. split; [done|]. split; [done|]. split; [done|].
    split.
    { by apply dom_insert_lookup_L. }
    split; [done|]. split; [done|]. split; [done|]. split; [|done].
    intros q [= <-]. by exists r0.
  - mbind Hm u2 s2 H2. apply rwlock_unlock_state in H2 as ->.
    apply mret_Some in Hm as [-> ->]. simpl. by repeat split.
Qed.

(** ** Creation of a queue *)

(** Two states hold the same queues and answer every lookup alike. *)
Lemma dir_inv_same st st' :
  queues st' = queues st ->
  (forall fd, map_lookup (aio_map st') fd = map_lookup (aio_map st) fd) ->
  dir_inv st -> dir_inv st'.
Proof.
  intros Hq Hl [H1 H2]. split.
  - intros fd q Hm. rewrite Hl in Hm. rewrite Hq. by apply H1.
  - intros q r Hr Hlock. rewrite Hq in Hr.
    rewrite <- (H2 q r Hr Hlock). unfold in_map.
    split; intros [fd Hfd]; exists fd; [by rewrite <- Hl|by rewrite Hl].
Qed.

Lemma alloc_ok v b st st' :
  (ok ← calloc;
   if ok : bool then modify (set_aio_map v);; mret true
   else mret false) st = Some (b, st') ->
  b = true ->
  queues st' = queues st /\ aio_map st' = v /\
  aio_fd_cnt st' = aio_fd_cnt st /\ maplock st' = maplock st.
Proof.
  intros Hm ->. mbind Hm ok s1 H1. unfold calloc in H1.
  destruct (mem st); injection H1 as <- <-; simpl in Hm.
  - by apply mret_Some in Hm as [? _].
  - mbind Hm u s2 H2. apply modify_Some in H2 as ->.
    apply mret_Some in Hm as [_ ->]. done.
Qed.

Lemma ensure_map_ok st st' :
  ensure_map st = Some (true, st') ->
  queues st' = queues st /\ aio_fd_cnt st' = aio_fd_cnt st /\
  maplock st' = maplock st /\
  (forall fd, map_lookup (aio_map st') fd = map_lookup (aio_map st) fd) /\
  is_Some (aio_map st').
Proof.
  unfold ensure_map. destruct (aio_map st) as [t|] eqn:E.
  - intros [= <-]. rewrite E. by repeat split.
  - intros Hm. apply alloc_ok in Hm as (Hq & Hmap & Hc & Hl); [|done].
    rewrite Hmap. split; [done|]. split; [done|]. split; [done|].
    split; [|by eauto]. intros fd. unfold map_lookup.
    by rewrite lookup_empty.
Qed.

Lemma ensure_a_ok fd st st' :
  ensure_a fd st = Some (true, st') ->
  queues st' = queues st /\ aio_fd_cnt st' = aio_fd_cnt st /\
  maplock st' = maplock st /\
  (forall fd', map_lookup (aio_map st') fd' = map_lookup (aio_map st) fd') /\
  exists t ta, aio_map st' = Some t /\ t !! idx_a fd = Some ta.
Proof.
  unfold ensure_a. destruct (aio_map st) as [t|] eqn:E; [|done].
  destruct (t !! idx_a fd) as [ta|] eqn:Ea.
  - intros [= <-]. rewrite E. repeat (split; [done|]). by exists t, ta.
  - intros Hm. apply alloc_ok in Hm as (Hq & Hmap & Hc & Hl); [|done].
    rewrite Hmap. split; [done|]. split; [done|]. split; [done|]. split.
    + intros fd'. unfold map_lookup.
      destruct (decide (idx_a fd' = idx_a fd)) as [Eq|Ne].
      * rewrite Eq, lookup_insert_eq, Ea. by rewrite lookup_empty.
      * by rewrite lookup_insert_ne.
    + eexists _, _. split; [done|]. apply lookup_insert_eq.
Qed.

Lemma ensure_b_ok fd st st' :
  ensure_b fd st = Some (true, st') ->
  queues st' = queues st /\ aio_fd_cnt st' = aio_fd_cnt st /\
  maplock st' = maplock st /\
  (forall fd', map_lookup (aio_map st') fd' = map_lookup (aio_map st) fd') /\
  exists t ta tb, aio_map st' = Some t /\ t !! idx_a fd = Some ta /\
                  ta !! idx_b fd = Some tb.
Proof.
  unfold ensure_b. destruct (aio_map st) as [t|] eqn:E; [|done].
  destruct (t !! idx_a fd) as [ta|] eqn:Ea; [|done].
  destruct (ta !! idx_b fd) as [tb|] eqn:Eb.
  - intros [= <-]. rewrite E. repeat (split; [done|]). by exists t, ta, tb.
  - intros Hm. apply alloc_ok in Hm as (Hq & Hmap & Hc & Hl); [|done].
    rewrite Hmap. split; [done|]. split; [done|]. split; [done|]. split.
    + intros fd'. unfold map_lookup.
      destruct (decide (idx_a fd' = idx_a fd)) as [Eq|Ne].
      * rewrite Eq, lookup_insert_eq, Ea.
        destruct (decide (idx_b fd' = idx_b fd)) as [Eq2|Ne2].
        -- rewrite Eq2, lookup_insert_eq, Eb. by rewrite lookup_empty.
        -- by rewrite lookup_insert_ne.
      * by rewrite lookup_insert_ne.
    + eexists _, _, _. split; [done|].
      split; apply lookup_insert_eq.
Qed.

Lemma ensure_c_ok fd st st' :
  ensure_c fd st = Some (true, st') ->
  queues st' = queues st /\ aio_fd_cnt st' = aio_fd_cnt st /\
  maplock st' = maplock st /\
  (forall fd', map_lookup (aio_map st') fd' = map_lookup (aio_map st) fd') /\
  exists t ta tb tc, aio_map st' = Some t /\ t !! idx_a fd = Some ta /\
                     ta !! idx_b fd = Some tb /\ tb !! idx_c fd = Some tc.
Proof.
  unfold ensure_c. destruct (aio_map st) as [t|] eqn:E; [|done].
  destruct (t !! idx_a fd) as [ta|] eqn:Ea; [|done].
  destruct (ta !! idx_b fd) as [tb|] eqn:Eb; [|done].
  destruct (tb !! idx_c fd) as [tc|] eqn:Ec.
  - intros [= <-]. rewrite E. repeat (split; [done|]).
    by exists t, ta, tb, tc.
  - intros Hm. apply alloc_ok in Hm as (Hq & Hmap & Hc & Hl); [|done].
    rewrite Hmap. split; [done|]. split; [done|]. split; [done|]. split.
    + intros fd'. unfold map_lookup.
      destruct (decide (idx_a fd' = idx_a fd)) as [Eq|Ne].
      * rewrite Eq, lookup_insert_eq, Ea.
        destruct (decide (idx_b fd' = idx_b fd)) as [Eq2|Ne2].
        -- rewrite Eq2, lookup_insert_eq, Eb.
           destruct (decide (idx_c fd' = idx_c fd)) as [Eq3|Ne3].
           ++ rewrite Eq3, lookup_insert_eq, Ec. by rewrite lookup_empty.
           ++ by rewrite lookup_insert_ne.
        -- by rewrite lookup_insert_ne.
      * by rewrite lookup_insert_ne.
    + eexists _, _, _, _. split; [done|].
      split; [apply lookup_insert_eq|]. split; apply lookup_insert_eq.
Qed.

(** What [create_queue] does when it returns a queue: the queue was in the
    map already, or it is a new one at a fresh address. *)
Lemma create_queue_ok fd q st st' :
  create_queue fd st = Some (Some q, st') ->
  maplock st' = maplock st /\
  map_lookup (aio_map st') fd = Some q /\
  (forall fd', key fd' <> key fd ->
     map_lookup (aio_map st') fd' = map_lookup (aio_map st) fd') /\
  ((map_lookup (aio_map st) fd = Some q /\ queues st' = queues st /\
    aio_fd_cnt st' = aio_fd_cnt st) \/
   (map_lookup (aio_map st) fd = None /\ queues st !! q = None /\
    queues st' = <[q := new_queue fd]> (queues st) /\
    aio_fd_cnt st' = aio_fd_cnt st + 1)).
Proof.
  unfold create_queue. intros Hm.
  mbind Hm ok1 s1 H1. destruct ok1; simpl in Hm;
    [|by apply mret_Some in Hm as [? _]].
  apply ensure_map_ok in H1 as (Hq1 & Hc1 & Hk1 & Hl1 & _).
  mbind Hm ok2 s2 H2. destruct ok2; simpl in Hm;
    [|by apply mret_Some in Hm as [? _]].
  apply ensure_a_ok in H2 as (Hq2 & Hc2 & Hk2 & Hl2 & _).
  mbind Hm ok3 s3 H3. destruct ok3; simpl in Hm;
    [|by apply mret_Some in Hm as [? _]].
  apply ensure_b_ok in H3 as (Hq3 & Hc3 & Hk3 & Hl3 & _).
  mbind Hm ok4 s4 H4. destruct ok4; simpl in Hm;
    [|by apply mret_Some in Hm as [? _]].
  apply ensure_c_ok in H4
    as (Hq4 & Hc4 & Hk4 & Hl4 & t & ta & tb & tc & Et & Ea & Eb & Ec).
  assert (forall fd', map_lookup (aio_map s4) fd' = map_lookup (aio_map st) fd')
    as Hl.
  { intros fd'. by rewrite Hl4, Hl3, Hl2, Hl1. }
  assert (queues s4 = queues st) as Hq by congruence.
  assert (aio_fd_cnt s4 = aio_fd_cnt st) as Hc by congruence.
  assert (maplock s4 = maplock st) as Hk by congruence.
  unfold ensure_queue in Hm.
  destruct (map_lookup (aio_map s4) fd) as [q0|] eqn:E0.
  - injection Hm as <- <-. rewrite <- Hl.
    split; [done|]. split; [done|]. split; [by intros; apply Hl|].
    left. done.
  - mbind Hm ok s5 H5. unfold calloc in H5.
    destruct (mem s4); injection H5 as <- <-; simpl in Hm;
      [by apply mret_Some in Hm as [? _]|].
    mbind Hm u6 s6 H6. apply modify_Some in H6 as ->.
    mbind Hm u7 s7 H7.
    destruct u7. destruct (map_store_spec _ _ _ _ H7) as (Hsame & Hoth & Hst).
    mbind Hm u8 s8 H8. apply modify_Some in H8 as ->.
    apply mret_Some in Hm as [[= ->] ->]. simpl.
    assert (queues s7 = <[fresh (dom (queues s4)) := new_queue fd]> (queues s4))
      as Hq7 by (rewrite Hst; reflexivity).
    assert (aio_fd_cnt s7 = aio_fd_cnt s4) as Hc7
      by (rewrite Hst; reflexivity).
    assert (maplock s7 = maplock s4) as Hk7 by (rewrite Hst; reflexivity).
    assert (queues s4 !! fresh (dom (queues s4)) = None) as Hfresh.
    { apply not_elem_of_dom. apply is_fresh. }
    remember (fresh (dom (queues s4))) as q eqn:Eq. clear Eq.
    rewrite Hq7, Hc7, Hk7. rewrite Hq in *. rewrite Hc, Hk.
    split; [done|]. split; [by apply Hsame|]. split.
    + intros fd' Hne. rewrite (Hoth fd' Hne). simpl. apply Hl.
    + right. rewrite <- Hl. done.
Qed.

Lemma init_stack_size_ok (u : unit) st st' :
  init_stack_size st = Some (u, st') ->
  queues st' = queues st /\ aio_map st' = aio_map st /\
  aio_fd_cnt st' = aio_fd_cnt st /\ maplock st' = maplock st.
Proof.
  unfold init_stack_size. destruct u.
  destruct (io_thread_stack_size st =? 0); by intros [= <-].
Qed.

(** The invariant of the map across [__aio_get_queue], and the entry of
    the queue it returns. *)
Lemma get_queue_dir_inv fd need env q st st' :
  dir_inv st ->
  (forall s, dir_inv s -> dir_inv (env s)) ->
  __aio_get_queue fd need env st = Some (Some q, st') ->
  dir_inv st' /\
  map_lookup (aio_map st') fd = Some q /\
  exists r, queues st' !! q = Some r /\ q_lock r = true /\
            key (q_fd r) = key fd.
Proof.
  intros Hinv Henv. unfold __aio_get_queue. intros Hm.
  destruct (Z.ltb_spec fd 0) as [Hfd|Hfd].
  { mbind Hm u s1 H1. by apply mret_Some in Hm as [? _]. }
  mbind Hm u1 s1 H1. apply rwlock_rdlock_state in H1 as ->.
  mbind Hm x s2 H2. apply get_Some in H2 as [-> ->].
  simpl in Hm.
  destruct (map_lookup (aio_map st) fd) as [q0|] eqn:Hl.
  - mbind Hm u2 s2 H2. apply mutex_lock_Some in H2 as (r0 & Hr0 & ->).
    mbind Hm u3 s3 H3. apply rwlock_unlock_state in H3 as ->.
    apply mret_Some in Hm as [[= <-] ->]. simpl in Hr0. simpl.
    destruct (proj1 Hinv fd q Hl) as (r1 & Hr1 & Hk).
    assert (r1 = r0) as -> by congruence.
    split.
    { apply (dir_inv_update q r0 (set_q_lock true r0) st); try done.
      by exists fd. }
    split; [done|].
    exists (set_q_lock true r0). by rewrite lookup_insert_eq.
  - destruct need.
    2:{ mbind Hm u2 s2 H2. by apply mret_Some in Hm as [? _]. }
    mbind Hm u2 s2 H2. apply rwlock_unlock_state in H2 as ->.
    mbind Hm ok s3 H3. unfold fcntl_getfd in H3. simpl in H3.
    destruct (fdtab st !! fd) as [d|]; injection H3 as <- <-; simpl in Hm;
      [|by apply mret_Some in Hm as [? _]].
    mbind Hm u4 s4 H4. apply interfere_Some in H4 as ->.
    mbind Hm u5 s5 H5. apply emit_Some in H5 as ->.
    mbind Hm u6 s6 H6. unfold pthread_rwlock_wrlock in H6.
    mbind H6 u6' s6' H6'. apply modify_Some in H6' as ->.
    apply emit_Some in H6 as ->.
    mbind Hm u7 s7 H7.
    apply init_stack_size_ok in H7 as (Hq7 & Hm7 & Hc7 & Hk7).
    mbind Hm oq s8 H8. destruct oq as [q1|].
    2:{ mbind Hm u9 s9 H9. mbind Hm u10 s10 H10.
        by apply mret_Some in Hm as [? _]. }
    apply create_queue_ok in H8 as (Hk8 & Hl8 & Hoth8 & Hcase).
    mbind Hm u9 s9 H9. apply mutex_lock_Some in H9 as (r9 & Hr9 & ->).
    mbind Hm u10 s10 H10. apply rwlock_unlock_state in H10 as ->.
    mbind Hm u11 s11 H11. apply emit_Some in H11 as ->.
    apply mret_Some in Hm as [[= <-] ->]. simpl.
    set (s0 := env (set_trace ((trace st ++ [EvRdLock]) ++ [EvRwUnlock])
                      (set_maplock RwFree
                         (set_trace (trace st ++ [EvRdLock])
                            (set_maplock RwRead st))))) in *.
    assert (dir_inv s0) as Hinv0.
    { apply Henv. by apply (dir_inv_same st). }
    simpl in Hq7, Hm7.
    assert (dir_inv s7) as Hinv7.
    { apply (dir_inv_same s0); [done|by rewrite Hm7|done]. }
    split; [|split; [done|]].
    + destruct Hcase as [(Hold & Hq8 & _)|(Hnone & Hfresh & Hq8 & _)].
      * assert (dir_inv s8) as Hinv8.
        { destruct Hinv7 as [I1 I2]. split.
          - intros fd' q' Hfd'. rewrite Hq8.
            destruct (decide (key fd' = key fd)) as [Ek|Nk].
            + rewrite (map_lookup_key _ _ _ Ek), Hl8 in Hfd'.
              injection Hfd' as <-.
              destruct (I1 fd q Hold) as (r & Hr & Hkr).
              exists r. split; [done|]. congruence.
            + rewrite (Hoth8 fd' Nk) in Hfd'. by apply I1.
          - intros q' r' Hr' Hlock. rewrite Hq8 in Hr'.
            rewrite <- (I2 q' r' Hr' Hlock). unfold in_map.
            split; intros [fd' Hfd']; exists fd'.
            + destruct (decide (key fd' = key fd)) as [Ek|Nk].
              * rewrite (map_lookup_key _ _ _ Ek), Hl8 in Hfd'.
                by rewrite (map_lookup_key _ _ _ Ek), Hold.
              * by rewrite <- (Hoth8 fd' Nk).
            + destruct (decide (key fd' = key fd)) as [Ek|Nk].
              * rewrite (map_lookup_key _ _ _ Ek), Hold in Hfd'.
                by rewrite (map_lookup_key _ _ _ Ek), Hl8.
              * by rewrite (Hoth8 fd' Nk). }
        destruct (proj1 Hinv8 fd q Hl8) as (r1 & Hr1 & Hk1).
        assert (r1 = r9) as -> by congruence.
        apply (dir_inv_update q r9 (set_q_lock true r9) s8); try done.
        by exists fd.
      * rewrite Hq8, lookup_insert_eq in Hr9. injection Hr9 as <-.
        destruct Hinv7 as [I1 I2]. split.
        -- intros fd' q' Hfd'. simpl in Hfd'. simpl.
           destruct (decide (key fd' = key fd)) as [Ek|Nk].
           ++ rewrite (map_lookup_key _ _ _ Ek), Hl8 in Hfd'.
              injection Hfd' as <-. rewrite lookup_insert_eq.
              eexists. split; [done|]. simpl. congruence.
           ++ rewrite (Hoth8 fd' Nk) in Hfd'.
              destruct (I1 fd' q' Hfd') as (r & Hr & Hkr).
              exists r. split; [|done].
              rewrite lookup_insert_ne by congruence.
              rewrite Hq8. rewrite lookup_insert_ne by congruence. done.
        -- intros q' r' Hr' Hlock. simpl in Hr'.
           destruct (decide (q' = q)) as [->|Nq].
           { rewrite lookup_insert_eq in Hr'. injection Hr' as <-. done. }
           rewrite lookup_insert_ne in Hr' by done.
           rewrite Hq8, lookup_insert_ne in Hr' by done.
           rewrite <- (I2 q' r' Hr' Hlock). unfold in_map. simpl.
           split; intros [fd' Hfd']; exists fd'.
           ++ destruct (decide (key fd' = key fd)) as [Ek|Nk].
              ** rewrite (map_lookup_key _ _ _ Ek), Hl8 in Hfd'. congruence.
              ** by rewrite <- (Hoth8 fd' Nk).
           ++ destruct (decide (key fd' = key fd)) as [Ek|Nk].
              ** rewrite (map_lookup_key _ _ _ Ek), Hnone in Hfd'. done.
              ** by rewrite (Hoth8 fd' Nk).
    + exists (set_q_lock true r9). rewrite lookup_insert_eq.
      split; [done|]. split; [done|]. simpl.
      destruct Hcase as [(Hold & Hq8 & _)|(Hnone & Hfresh & Hq8 & _)].
      * destruct (proj1 Hinv7 fd q Hold) as (r1 & Hr1 & Hk1).
        rewrite Hq8 in Hr9. congruence.
      * rewrite Hq8, lookup_insert_eq in Hr9. by injection Hr9 as <-.
Qed.

(** A queue that [__aio_get_queue] returns is in the map under the
    descriptor, exists, and is locked; the map lock is free again; and the
    invariant of the map is kept, if the threads that run while no lock is
    held keep it. *)
Theorem get_queue_registers (fd : Z) (need : bool) (env : state -> state)
    (q : addr) (st st' : state) :
  dir_inv st ->
  (forall s, dir_inv s -> dir_inv (env s)) ->
  __aio_get_queue fd need env st = Some (Some q, st') ->
  0 <= fd /\ dir_inv st' /\ maplock st' = RwFree /\
  map_lookup (aio_map st') fd = Some q /\
  exists r, queues st' !! q = Some r /\ q_lock r = true /\
            key (q_fd r) = key fd.
Proof.
  intros Hinv Henv Hrun.
  destruct (get_queue_dir_inv fd need env q st st' Hinv Henv Hrun)
    as (Hinv' & Hl' & Hr').
  assert (0 <= fd /\ maplock st' = RwFree) as [Hfd Hfree];
    [|by repeat (split; [done|])].
  revert Hrun. unfold __aio_get_queue. intros Hm.
  destruct (Z.ltb_spec fd 0) as [Hfd|Hfd].
  { mbind Hm u s1 H1. by apply mret_Some in Hm as [? _]. }
  split; [done|].
  mbind Hm u1 s1 H1. mbind Hm x s2 H2. apply get_Some in H2 as [-> ->].
  destruct (map_lookup (aio_map s1) fd) as [q0|].
  - mbind Hm u2 s2 H2. mbind Hm u3 s3 H3.
    apply rwlock_unlock_state in H3 as ->.
    by apply mret_Some in Hm as [_ ->].
  - destruct need.
    2:{ mbind Hm u2 s2 H2. by apply mret_Some in Hm as [? _]. }
    mbind Hm u2 s2 H2. mbind Hm ok s3 H3.
    destruct ok; simpl in Hm; [|by apply mret_Some in Hm as [? _]].
    mbind Hm u4 s4 H4. mbind Hm u5 s5 H5. mbind Hm u6 s6 H6.
    mbind Hm u7 s7 H7. mbind Hm oq s8 H8. destruct oq as [q1|].
    2:{ mbind Hm u9 s9 H9. mbind Hm u10 s10 H10.
        by apply mret_Some in Hm as [? _]. }
    mbind Hm u9 s9 H9. mbind Hm u10 s10 H10.
    apply rwlock_unlock_state in H10 as ->.
    mbind Hm u11 s11 H11. apply emit_Some in H11 as ->.
    by apply mret_Some in Hm as [_ ->].
Qed.

(** ** Fork and close *)

Lemma match_fmap {A B C : Type} (f : A -> B) (g : B -> option C)
    (o : option A) :
  match f <$> o with Some x => g x | None => None end
  = match o with Some y => g (f y) | None => None end.
Proof. by destruct o. Qed.

Lemma map_lookup_clear m fd : map_lookup (clear_map <$> m) fd = None.
Proof.
  unfold map_lookup. rewrite match_fmap. destruct m as [t|]; [|done].
  unfold clear_map.
  rewrite lookup_fmap, match_fmap. destruct (t !! idx_a fd) as [ta|]; [|done].
  rewrite lookup_fmap, match_fmap. destruct (ta !! idx_b fd) as [tb|]; [|done].
  rewrite lookup_fmap, match_fmap. destruct (tb !! idx_c fd) as [tc|]; [|done].
  apply lookup_empty.
Qed.

(** [__aio_atfork].  Before the fork and in the parent only the map lock
    changes hands.  In the child no descriptor has a queue any more and
    the queue count is zero, whichever way the lock was found; the queues
    themselves are neither freed nor touched; when the lock could be taken
    the tables of the map stay allocated and the lock is free again,
    otherwise the map is dropped; and [__aio_close] in the child does
    nothing but its barrier. *)
Theorem atfork_child_sees_no_queue (who : Z) (st : state) :
  exists st',
    __aio_atfork who st = Some (tt, st') /\
    queues st' = queues st /\ threads st' = threads st /\
    cbs st' = cbs st /\
    (who < 0 ->
     st' = set_trace (trace st ++ [EvRdLock]) (set_maplock RwRead st)) /\
    (who = 0 ->
     st' = set_trace (trace st ++ [EvRwUnlock]) (set_maplock RwFree st)) /\
    (0 < who ->
     aio_fd_cnt st' = 0 /\
     (forall fd, map_lookup (aio_map st') fd = None) /\
     (maplock st = RwWrite -> aio_map st' = None /\ maplock st' = RwWrite) /\
     (maplock st <> RwWrite ->
      maplock st' = RwFree /\ aio_map st' = clear_map <$> aio_map st /\
      (is_Some (aio_map st) -> is_Some (aio_map st'))) /\
     forall fd env,
       __aio_close fd env st'
       = Some (fd, set_trace (trace st' ++ [EvBarrier]) st')).
Proof.
  unfold __aio_atfork.
  destruct (Z.ltb_spec who 0) as [Hneg|Hnn].
  { eexists. split; [reflexivity|]. simpl.
    split; [done|]. split; [done|]. split; [done|].
    split; [done|]. split; intros; lia. }
  destruct (Z.eqb_spec who 0) as [Hz|Hnz].
  { eexists. split; [reflexivity|]. simpl.
    split; [done|]. split; [done|]. split; [done|].
    split; [intros; lia|]. split; [done|]. intros; lia. }
  assert (forall s, aio_fd_cnt s = 0 -> forall fd env,
            __aio_close fd env s
            = Some (fd, set_trace (trace s ++ [EvBarrier]) s)) as Hclose.
  { intros s Hs fd env. unfold __aio_close, a_barrier. munfold. simpl.
    by rewrite Hs. }
  unfold pthread_rwlock_tryrdlock, pthread_rwlock_init. munfold. simpl.
  destruct (maplock st) eqn:Hl; simpl.
  - eexists. split; [reflexivity|]. simpl.
    split; [done|]. split; [done|]. split; [done|].
    split; [intros; lia|]. split; [intros; lia|]. intros _.
    split; [done|]. split; [apply map_lookup_clear|]. split; [done|].
    split; [|by apply Hclose]. intros _. split; [done|]. split; [done|].
    intros [t ->]. by eexists.
  - eexists. split; [reflexivity|]. simpl.
    split; [done|]. split; [done|]. split; [done|].
    split; [intros; lia|]. split; [intros; lia|]. intros _.
    split; [done|]. split; [apply map_lookup_clear|]. split; [done|].
    split; [|by apply Hclose]. intros _. split; [done|]. split; [done|].
    intros [t ->]. by eexists.
  - eexists. split; [reflexivity|]. simpl.
    split; [done|]. split; [done|]. split; [done|].
    split; [intros; lia|]. split; [intros; lia|]. intros _.
    split; [done|]. split; [done|]. split; [done|].
    split; [done|]. intros fd env.
    by rewrite (Hclose (set_aio_map None (set_aio_fd_cnt 0 st)) eq_refl fd env).
Qed.

(** [__aio_close] always returns the descriptor it was given.  It costs a
    barrier and nothing else while the process has no queue; and when it
    does look for a queue and the (non-negative) descriptor has none, it
    leaves [errno] at [ENOENT]. *)
Theorem aio_close_returns_fd (fd : Z) (env : nat -> state -> state)
    (r : Z) (st st' : state) :
  __aio_close fd env st = Some (r, st') ->
  r = fd /\
  (aio_fd_cnt st = 0 -> st' = set_trace (trace st ++ [EvBarrier]) st) /\
  (aio_fd_cnt st <> 0 -> 0 <= fd ->
   map_lookup (aio_map st) fd = None ->
   errno st' = ENOENT /\ queues st' = queues st /\ cbs st' = cbs st /\
   threads st' = threads st).
Proof.
  unfold __aio_close. intros Hm.
  mbind Hm u1 s1 H1. apply emit_Some in H1 as ->.
  mbind Hm x s2 H2. apply get_Some in H2 as [-> ->]. simpl in Hm.
  destruct (Z.eqb_spec (aio_fd_cnt st) 0) as [Hz|Hnz]; simpl in Hm.
  - apply mret_Some in Hm as [-> ->]. split; [done|]. split; [done|].
    intros; lia.
  - mbind Hm c s3 H3. apply mret_Some in Hm as [-> ->].
    split; [done|]. split; [intros; lia|].
    intros _ Hfd Hl.
    rewrite aio_cancel_past_check in H3 by done.
    mbind H3 u4 s4 H4. apply emit_Some in H4 as ->.
    mbind H3 u5 s5 H5. apply modify_Some in H5 as ->.
    mbind H3 oq s6 H6.
    rewrite get_queue_absent in H6 by done. injection H6 as <- <-.
    mbind H3 e s7 H7. unfold get_errno in H7. injection H7 as <- <-.
    mbind H3 u8 s8 H8. apply emit_Some in H8 as ->.
    apply mret_Some in H3 as [_ ->]. done.
Qed.

(** ** The system call of a worker *)

(** The first worker of a queue classifies the descriptor (lines 333-338),
    and the classification decides the call (lines 353-366): a write goes
    through [pwrite], at the handle's offset, exactly when the descriptor
    is seekable and not in append mode, and through [write] otherwise; a
    read goes through [pread] exactly when the descriptor is seekable; and
    the write is sequenced behind earlier writes exactly when it goes
    through [write].  A queue that is classified already is left as it
    is. *)
Theorem classification_selects_call (fd : Z) (q : addr) (r : aio_queue)
    (d : fdesc) (st : state) :
  queues st !! q = Some r -> fdtab st !! fd = Some d ->
  exists r' st',
    classify fd q st = Some (tt, st') /\
    queues st' = <[q := r']> (queues st) /\
    q_init r' <> 0 /\ q_head r' = q_head r /\ q_ref r' = q_ref r /\
    q_lock r' = q_lock r /\
    (q_init r <> 0 -> r' = r) /\
    (q_init r = 0 ->
     io_call_of LIO_WRITE r'
     = Some (if fd_seekable d && (Z.land (fd_flags d) O_APPEND =? 0)
             then Sys_pwrite else Sys_write) /\
     io_call_of LIO_READ r'
     = Some (if fd_seekable d then Sys_pread else Sys_read) /\
     sequenced LIO_WRITE r'
     = negb (fd_seekable d && (Z.land (fd_flags d) O_APPEND =? 0)) /\
     sequenced LIO_READ r' = false).
Proof.
  intros Hr Hd. unfold classify.
  rewrite (bind_run _ _ _ _ _ (load_queue_run _ _ _ Hr)).
  destruct (Z.eqb_spec (q_init r) 0) as [Hi|Hi].
  - unfold get. rewrite (bind_run _ _ st st st) by done. rewrite Hd.
    rewrite (store_queue_run _ _ _ _ Hr).
    eexists _, _. split; [reflexivity|]. simpl.
    split; [done|]. split; [done|]. split; [done|]. split; [done|].
    split; [done|]. split; [done|]. intros _.
    unfold io_call_of, sequenced. simpl.
    destruct (fd_seekable d); simpl;
      destruct (Z.land (fd_flags d) O_APPEND =? 0); done.
  - exists r, st. split; [done|]. split; [by rewrite insert_id|].
    split; [done|]. split; [done|]. split; [done|]. split; [done|].
    split; [done|]. done.
Qed.

(** ** The running word across the steps *)

Lemma record_step_refl w pc : record_step w w pc pc.
Proof. split; [done|]. by left. Qed.

Lemma worker_inv_upd c c' a w wa' pc pca' :
  worker_inv c ->
  threads (shared c) !! a = Some w -> pcs c !! a = Some pc ->
  threads (shared c') = <[a := wa']> (threads (shared c)) ->
  pcs c' = <[a := pca']> (pcs c) ->
  (forall q, is_Some (queues (shared c') !! q)
             <-> is_Some (queues (shared c) !! q)) ->
  record_step w wa' pc pca' ->
  worker_inv c'.
Proof.
  intros Hinv Hw Hpc Ht Hp Hq (Hqa & Hrel) x w' pc' Hw' Hpc'.
  rewrite Ht in Hw'. rewrite Hp in Hpc'. rewrite Hq.
  destruct (decide (x = a)) as [->|Hne].
  - rewrite lookup_insert_eq in Hw'. rewrite lookup_insert_eq in Hpc'.
    injection Hw' as <-. injection Hpc' as <-.
    destruct (Hinv a w pc Hw Hpc) as [Hrun Hqe].
    rewrite Hqa. split; [|done].
    destruct Hrel as [[Hr Hs]|(-> & -> & Hr)].
    + by rewrite Hr, Hs.
    + done.
  - rewrite lookup_insert_ne in Hw' by done.
    rewrite lookup_insert_ne in Hpc' by done.
    exact (Hinv x w' pc' Hw' Hpc').
Qed.

Lemma worker_inv_ext c c' :
  worker_inv c ->
  threads (shared c') = threads (shared c) -> pcs c' = pcs c ->
  (forall q, is_Some (queues (shared c') !! q)
             <-> is_Some (queues (shared c) !! q)) ->
  worker_inv c'.
Proof.
  intros Hinv Ht Hp Hq x w' pc' Hw' Hpc'.
  rewrite Ht in Hw'. rewrite Hp in Hpc'. rewrite Hq.
  exact (Hinv x w' pc' Hw' Hpc').
Qed.

Lemma is_Some_insert_same (qs : gmap addr aio_queue) q0 r r' :
  qs !! q0 = Some r ->
  forall q, is_Some (<[q0 := r']> qs !! q) <-> is_Some (qs !! q).
Proof.
  intros Hr q. destruct (decide (q = q0)) as [->|Hne].
  - rewrite lookup_insert_eq, Hr. split; by eauto.
  - by rewrite lookup_insert_ne.
Qed.

Lemma worker_inv_step c l c' :
  inv c -> worker_inv c -> step l c = Some c' -> worker_inv c'.
Proof.
  intros Hinv Hwi Hs. destruct l as [a td args|a|a ret e|a|a|p|cb v|v];
    simpl in Hs.
  - (* a worker enters *)
    destruct (pcs c !! a) eqn:Hpa; [discriminate Hs|].
    apply run_worker_Some in Hs as (pc' & st' & Hm & Hsh & Hp).
    apply enter_step_effect in Hm
      as (Ha & r & r' & Hr & Ht & Hq & _ & _ & _ & Hpc & _).
    intros x w' pcx Hw' Hpcx. rewrite Hsh in *. rewrite Ht in Hw'.
    rewrite Hp in Hpcx. rewrite Hq.
    rewrite (is_Some_insert_same _ _ _ r' Hr).
    apply link_heap_inv in Hw' as Hold.
    destruct (decide (x = a)) as [->|Hne].
    + rewrite lookup_insert_eq in Hpcx. injection Hpcx as <-.
      assert (at_running w' = 1 /\ at_q w' = args_q args) as [Hr1 Hq1].
      { unfold link_heap in Hw'.
        destruct (at_next (fresh_at td args (q_head r))) as [n|].
        - destruct (decide (n = a)) as [->|Hn].
          + rewrite lookup_alter_eq, lookup_insert_eq in Hw'.
            by injection Hw' as <-.
          + rewrite lookup_alter_ne, lookup_insert_eq in Hw' by done.
            by injection Hw' as <-.
        - rewrite lookup_insert_eq in Hw'. by injection Hw' as <-. }
      rewrite Hr1, Hq1, Hr. split; [|by eauto].
      destruct Hpc as [-> | ->]; done.
    + rewrite lookup_insert_ne in Hpcx by done.
      destruct Hold as [->|(wb & Hwb & Hqb & _ & Hrb)]; [done|].
      rewrite Hqb, Hrb. exact (Hwi x wb pcx Hwb Hpcx).
  - (* a waiter wakes *)
    destruct (pcs c !! a) as [[]|] eqn:Hpc; try discriminate Hs.
    apply run_worker_Some in Hs as (pc' & st' & Hm & Hsh & Hp).
    unfold wake_step in Hm.
    mbind Hm w s1 Hw. apply load_thread_Some in Hw as [-> Hw].
    mbind Hm u s1 Hl. apply store_queue_Some in Hl as (r & Hr & ->).
    apply seq_test_effect in Hm
      as (Ht & (r1 & Hr1 & Hq) & (p & Hscan & Hpc')).
    simpl in Ht, Hr1, Hq. rewrite lookup_insert_eq in Hr1.
    injection Hr1 as <-. rewrite insert_insert_eq in Hq.
    eapply (worker_inv_upd c c' a w w W_wait pc' Hwi Hw Hpc);
      [by rewrite Hsh, Ht, insert_id|done| |].
    + intros q. rewrite Hsh, Hq. by apply (is_Some_insert_same _ _ r).
    + split; [done|]. left. split; [done|]. by destruct p; subst pc'.
  - (* the I/O call returns *)
    destruct (pcs c !! a) as [[]|] eqn:Hpc; try discriminate Hs.
    apply run_worker_Some in Hs as (pc' & st' & Hm & Hsh & Hp).
    mbind Hm b s1 Hio. apply mret_Some in Hm as [-> ->].
    apply io_perform_effect in Hio as (w & Hw & Hq & Ht).
    eapply (worker_inv_upd c c' a w _ W_io C_ret Hwi Hw Hpc);
      [by rewrite Hsh, Ht|done| |].
    + intros q. by rewrite Hsh, Hq.
    + split; [done|]. by left.
  - (* the worker is cancelled *)
    destruct (pcs c !! a) as [pc|] eqn:Hpc; [|discriminate Hs].
    apply run_worker_Some in Hs as (pc' & st' & Hm & Hsh & Hp).
    destruct (inv_record c a _ Hinv Hpc) as (w & Hw & _).
    destruct pc; simpl in Hm; try discriminate Hm.
    + apply mret_Some in Hm as [-> ->].
      eapply (worker_inv_upd c c' a w w W_wait C_ret Hwi Hw Hpc);
        [by rewrite Hsh, insert_id|done| |].
      * intros q. by rewrite Hsh.
      * split; [done|]. by left.
    + mbind Hm b s1 Hio. apply mret_Some in Hm as [-> ->].
      apply io_perform_effect in Hio as (w' & Hw' & Hq & Ht).
      assert (w' = w) as -> by congruence.
      eapply (worker_inv_upd c c' a w w W_io C_ret Hwi Hw Hpc);
        [by rewrite Hsh, Ht|done| |].
      * intros q. by rewrite Hsh, Hq.
      * split; [done|]. by left.
  - (* a step of cleanup *)
    destruct (pcs c !! a) as [pc|] eqn:Hpc; [|discriminate Hs].
    pose proof Hs as Hs0.
    apply run_worker_Some in Hs as (pc' & st' & Hm & Hsh & Hp).
    unfold cleanup_step in Hm.
    mbind Hm w s1 Hw. apply load_thread_Some in Hw as [-> Hw].
    destruct pc; try discriminate Hm.
    + mbind Hm u s1 Hc. destruct u. apply mret_Some in Hm as [-> ->].
      apply cleanup_ret_effect in Hc as [Ht Hq].
      eapply (worker_inv_upd c c' a w w C_ret C_running Hwi Hw Hpc);
        [by rewrite Hsh, Ht, insert_id|done| |].
      * intros q. by rewrite Hsh, Hq.
      * split; [done|]. by left.
    + mbind Hm u s1 Hc. destruct u. apply mret_Some in Hm as [-> ->].
      apply cleanup_running_effect in Hc as (w' & Hw' & Ht & Hq).
      assert (w' = w) as -> by congruence.
      eapply (worker_inv_upd c c' a w _ C_running C_err Hwi Hw Hpc);
        [by rewrite Hsh, Ht|done| |].
      * intros q. by rewrite Hsh, Hq.
      * split; [done|]. by right.
    + mbind Hm u s1 Hc. destruct u. apply mret_Some in Hm as [-> ->].
      apply cleanup_err_effect in Hc as [Ht Hq].
      eapply (worker_inv_upd c c' a w w C_err C_fut Hwi Hw Hpc);
        [by rewrite Hsh, Ht, insert_id|done| |].
      * intros q. by rewrite Hsh, Hq.
      * split; [done|]. by left.
    + mbind Hm u s1 Hc. destruct u. apply mret_Some in Hm as [-> ->].
      apply cleanup_fut_effect in Hc as [Ht Hq].
      eapply (worker_inv_upd c c' a w w C_fut C_unlink Hwi Hw Hpc);
        [by rewrite Hsh, Ht, insert_id|done| |].
      * intros q. by rewrite Hsh, Hq.
      * split; [done|]. by left.
    + mbind Hm u s1 Hc. mbind Hm u2 s2 Hu.
      apply mutex_unlock_Some in Hu as (r2 & Hr2 & ->).
      apply mret_Some in Hm as [-> ->].
      assert (at_next w <> Some a) as Hna.
      { destruct Hinv as (Hqs & Hth & Hpt).
        intros Hn.
        assert (exists r, queues (shared c) !! at_q w = Some r) as [r Hr].
        { unfold cleanup_unlink in Hc. mbind Hc u3 s3 Hl.
          apply mutex_lock_Some in Hl as (r & Hr & _). eauto. }
        destruct (Hqs _ r Hr) as (l & Hdll & Hnd & Hmem & _).
        assert (a ∈ l) as Hal by (apply Hmem; by exists w, C_unlink).
        apply list_elem_of_split in Hal as (l1 & l2 & ->).
        destruct (dll_split _ _ _ _ _ _ Hdll) as (w0 & Hw0 & _ & Hnx & _).
        assert (w0 = w) as -> by congruence.
        rewrite Hnx in Hn. destruct l2 as [|y l2]; [done|].
        injection Hn as ->.
        apply NoDup_app in Hnd as (_ & _ & Hnd).
        apply NoDup_cons in Hnd as [Hnd _]. apply Hnd. left. }
      apply (cleanup_unlink_effect a (at_q w) w u _ _ Hc Hw) in Hna
        as (Ht & r & Hr & Hq).
      intros x w' pcx Hw' Hpcx. rewrite Hsh in *. simpl in Hw'. simpl.
      rewrite Ht in Hw'. rewrite Hp in Hpcx.
      rewrite Hq, insert_insert_eq.
      rewrite (is_Some_insert_same _ _ _ _ Hr).
      apply unlink_heap_inv in Hw' as (wb & Hwb & Hqb & _ & Hrb).
      rewrite Hqb, Hrb.
      destruct (decide (x = a)) as [->|Hne].
      * rewrite lookup_insert_eq in Hpcx. injection Hpcx as <-.
        assert (wb = w) as -> by congruence.
        destruct (Hwi a w C_unlink Hw Hpc) as [Hrun Hqe].
        split; [|done]. by rewrite Hrun.
      * rewrite lookup_insert_ne in Hpcx by done.
        exact (Hwi x wb pcx Hwb Hpcx).
  - (* a canceller's compare-and-swap *)
    destruct (pcs c !! p) as [pc|] eqn:Hpc; [|discriminate Hs].
    assert (run_shared (a_cas_running p 1 (-1);; mret tt) c = Some c') as Hs'.
    { by destruct pc. }
    clear Hs. apply run_shared_Some in Hs' as (u & st' & Hm & Hsh & Hp).
    mbind Hm old s1 Hcas. apply mret_Some in Hm as [_ ->].
    apply a_cas_running_effect in Hcas as (w & Hw & _ & Ht & Hq).
    eapply (worker_inv_upd c c' p w _ pc pc Hwi Hw Hpc);
      [by rewrite Hsh, Ht|by rewrite Hp, insert_id| |].
    + intros q. by rewrite Hsh, Hq.
    + destruct (Z.eqb_spec (at_running w) 1) as [E|E].
      * split; [done|]. left. split; [|done]. simpl. rewrite E. lia.
      * by apply record_step_refl.
  - apply run_shared_Some in Hs as (u & st' & Hm & Hsh & Hp).
    apply store_cb_Some in Hm as (r & _ & ->).
    apply (worker_inv_ext c c' Hwi); try done; by rewrite Hsh.
  - apply run_shared_Some in Hs as (u & st' & Hm & Hsh & Hp).
    apply modify_Some in Hm as ->.
    apply (worker_inv_ext c c' Hwi); try done; by rewrite Hsh.
Qed.

Lemma reachable_worker_inv c : reachable c -> worker_inv c.
Proof.
  induction 1 as [c (Ht & _)|c l c' Hr IH Hs].
  - intros a w pc Hw. by rewrite Ht in Hw.
  - exact (worker_inv_step c l c' (reachable_inv c Hr) IH Hs).
Qed.

(** ** What the invariants give *)


Lemma first_write_Some th l b :
  first_write th l = Some b -> b ∈ l /\ is_write th b = true.
Proof.
  induction l as [|x l IH]; [done|]. simpl.
  destruct (is_write th x) eqn:E.
  - intros [= <-]. split; [left|done].
  - intros Hf. destruct (IH Hf). split; [by right|done].
Qed.

(** The scan of line 345 is safe in every reachable configuration: from a
    worker that is still linked it follows valid pointers only, ends, and
    leaves the state alone; and what it returns, if anything, is another
    worker of the same queue that is a write and is still linked, so its
    cleanup, with the broadcast of line 276, is still to come. *)
Theorem sequencing_scan_is_safe (c : config) (a : addr) (w : aio_thread)
    (pc : wpc) :
  reachable c ->
  threads (shared c) !! a = Some w -> pcs c !! a = Some pc ->
  linked pc = true ->
  exists p,
    scan_from a (shared c) = Some (p, shared c) /\
    forall b, p = Some b ->
      b <> a /\ is_write (threads (shared c)) b = true /\
      exists wb pcb,
        threads (shared c) !! b = Some wb /\ at_q wb = at_q w /\
        pcs c !! b = Some pcb /\ linked pcb = true.
Proof.
  intros Hreach Hw Hpc Hl.
  destruct (reachable_inv c Hreach) as (Hqs & _ & _).
  destruct (reachable_worker_inv c Hreach a w pc Hw Hpc) as [_ [r Hr]].
  destruct (Hqs _ r Hr) as (l & Hdll & Hnd & Hmem & _).
  assert (a ∈ l) as Hal by (apply Hmem; by exists w, pc).
  apply list_elem_of_split in Hal as (l1 & l2 & ->).
  exists (first_write (threads (shared c)) l2).
  split; [exact (scan_from_dll _ a w l1 l2 _ _ Hdll Hnd Hw)|].
  intros b Hb. apply first_write_Some in Hb as [Hin Hwr].
  split; [|split; [done|]].
  - intros ->. apply NoDup_app in Hnd as (_ & _ & Hnd).
    by apply NoDup_cons in Hnd as [Hnd _].
  - assert (b ∈ l1 ++ a :: l2) as Hbl.
    { apply elem_of_app. right. by right. }
    apply Hmem in Hbl as (wb & pcb & Hwb & Hqb & Hpcb & Hlb).
    by exists wb, pcb.
Qed.





(** ** From the I/O call to [aio_error] and [aio_return] *)

Lemma preserves_ret {X A : Type} (f : state -> X) (a : A) :
  preserves f (mret a : M A).
Proof. intros st b st' Hm. by apply mret_Some in Hm as [_ ->]. Qed.

Lemma preserves_bind {X A B : Type} (f : state -> X) (m : M A)
    (k : A -> M B) :
  preserves f m -> (forall a, preserves f (k a)) -> preserves f (m ≫= k).
Proof.
  intros Hm Hk st b st' Hr. mbind Hr a s1 H1.
  rewrite (Hk a _ _ _ Hr). by apply (Hm _ _ _ H1).
Qed.

Lemma preserves_modify {X : Type} (f : state -> X) (g : state -> state) :
  (forall s, f (g s) = f s) -> preserves f (modify g).
Proof. intros Hg st u st' Hm. apply modify_Some in Hm as ->. apply Hg. Qed.

Lemma preserves_get {X : Type} (f : state -> X) : preserves f get.
Proof. intros st x st' Hm. by apply get_Some in Hm as [_ ->]. Qed.

Lemma preserves_load_cb {X : Type} (f : state -> X) c :
  preserves f (load_cb c).
Proof. intros st x st' Hm. by apply load_cb_Some in Hm as [-> _]. Qed.

Lemma preserves_load_thread {X : Type} (f : state -> X) a :
  preserves f (load_thread a).
Proof. intros st x st' Hm. by apply load_thread_Some in Hm as [-> _]. Qed.

Lemma preserves_load_queue {X : Type} (f : state -> X) q :
  preserves f (load_queue q).
Proof. intros st x st' Hm. by apply load_queue_Some in Hm as [-> _]. Qed.

Lemma preserves_fault {X A : Type} (f : state -> X) :
  preserves f (fault : M A).
Proof. by intros st x st' Hm. Qed.

Lemma preserves_map_store fd v : preserves cbs (map_store fd v).
Proof.
  intros st [] st' Hm. apply map_store_spec in Hm as (_ & _ & ->). done.
Qed.

(** The statements below decompose into the ones above. *)
Ltac keeps :=
  repeat first
    [ apply preserves_ret
    | apply preserves_get
    | apply preserves_load_cb
    | apply preserves_load_thread
    | apply preserves_load_queue
    | apply preserves_fault
    | apply preserves_map_store
    | apply preserves_modify; intros ?; reflexivity
    | apply preserves_bind; [|intros ?]
    | match goal with
      | |- preserves _ (if ?b then _ else _) => destruct b
      | |- preserves _ (match ?x with _ => _ end) => destruct x
      end ].

Lemma cbs_store_thread a g : preserves cbs (store_thread a g).
Proof. unfold store_thread. keeps. Qed.

Lemma cbs_store_queue q g : preserves cbs (store_queue q g).
Proof. unfold store_queue. keeps. Qed.

Lemma cbs_emit e : preserves cbs (emit e).
Proof. unfold emit. keeps. Qed.

Lemma cbs_mutex_lock q : preserves cbs (pthread_mutex_lock q).
Proof.
  unfold pthread_mutex_lock.
  apply preserves_bind; [apply cbs_store_queue|intros ?; apply cbs_emit].
Qed.

Lemma cbs_mutex_unlock q : preserves cbs (pthread_mutex_unlock q).
Proof.
  unfold pthread_mutex_unlock.
  apply preserves_bind; [apply cbs_store_queue|intros ?; apply cbs_emit].
Qed.

Lemma cbs_classify fd q : preserves cbs (classify fd q).
Proof.
  unfold classify. apply preserves_bind; [keeps|]. intros r.
  destruct (q_init r =? 0); [|keeps].
  apply preserves_bind; [keeps|]. intros ?. apply cbs_store_queue.
Qed.

Lemma cbs_io_thread_enter a td args :
  preserves cbs (io_thread_enter a td args).
Proof.
  unfold io_thread_enter.
  apply preserves_bind; [keeps|]. intros cb.
  apply preserves_bind; [apply cbs_mutex_lock|]. intros _.
  apply preserves_bind; [apply cbs_emit|]. intros _.
  apply preserves_bind; [keeps|]. intros st0.
  destruct (threads st0 !! a); [keeps|].
  apply preserves_bind; [keeps|]. intros r.
  apply preserves_bind; [keeps|]. intros _.
  apply preserves_bind.
  { destruct (q_head r); [apply cbs_store_thread|keeps]. }
  intros _.
  apply preserves_bind; [apply cbs_store_queue|]. intros _.
  apply preserves_bind; [apply cbs_emit|]. intros _.
  apply cbs_classify.
Qed.

Lemma cbs_scan fuel : forall p, preserves cbs (scan fuel p).
Proof.
  intros p st r st' Hm. by apply scan_state in Hm as ->.
Qed.

Lemma cbs_cond_wait q env :
  (forall s, cbs (env s) = cbs s) -> preserves cbs (pthread_cond_wait q env).
Proof.
  intros Henv. unfold pthread_cond_wait.
  apply preserves_bind; [apply cbs_emit|]. intros _.
  apply preserves_bind; [apply cbs_store_queue|]. intros _.
  apply preserves_bind; [by apply preserves_modify|]. intros _.
  apply cbs_store_queue.
Qed.

Lemma cbs_seq_wait wakes f a q env :
  (forall n s, cbs (env n s) = cbs s) ->
  preserves cbs (seq_wait wakes f a q env).
Proof.
  intros Henv. induction wakes as [|n IH]; simpl.
  - apply preserves_bind.
    { intros st r st' Hm. by apply scan_from_state in Hm as ->. }
    intros [p|]; [|keeps]. destruct f; [keeps|keeps|].
    apply preserves_bind; [by apply cbs_cond_wait|]. intros _. keeps.
  - apply preserves_bind.
    { intros st r st' Hm. by apply scan_from_state in Hm as ->. }
    intros [p|]; [|keeps].
    apply preserves_bind; [by apply cbs_cond_wait|]. intros _. exact IH.
Qed.

Lemma cbs_io_perform a f : preserves cbs (io_perform a f).
Proof.
  unfold io_perform.
  apply preserves_bind; [keeps|]. intros w.
  apply preserves_bind; [keeps|]. intros r.
  apply preserves_bind; [keeps|]. intros c.
  destruct (io_call_of (at_op w) r); [|keeps].
  apply preserves_bind; [apply cbs_emit|]. intros _.
  destruct f; [|keeps|keeps].
  apply preserves_bind; [apply cbs_store_thread|]. intros _. keeps.
Qed.

Lemma cbs_cleanup_running a : preserves cbs (cleanup_running a).
Proof.
  unfold cleanup_running, a_swap_running, __wake.
  apply preserves_bind.
  { apply preserves_bind; [keeps|]. intros w.
    apply preserves_bind; [apply cbs_store_thread|]. intros _.
    apply preserves_bind; [apply cbs_emit|]. intros _. keeps. }
  intros old. destruct (old <? 0); [apply cbs_emit|keeps].
Qed.

Lemma cbs_cleanup_fut : preserves cbs cleanup_fut.
Proof.
  unfold cleanup_fut, __wake. apply preserves_bind.
  { intros st old st'. unfold a_swap_fut. by intros [= _ <-]. }
  intros old. destruct (negb (old =? 0)); [apply cbs_emit|keeps].
Qed.

Lemma cbs_cleanup_unlink a q : preserves cbs (cleanup_unlink a q).
Proof.
  unfold cleanup_unlink, unlink, pthread_cond_broadcast.
  apply preserves_bind; [apply cbs_mutex_lock|]. intros _.
  apply preserves_bind; [|intros _; apply cbs_emit].
  apply preserves_bind; [keeps|]. intros w.
  apply preserves_bind.
  { destruct (at_next w); [apply cbs_store_thread|keeps]. }
  intros _. apply preserves_bind; [keeps|]. intros w2.
  apply preserves_bind; [|intros _; apply cbs_emit].
  destruct (at_prev w2); [apply cbs_store_thread|apply cbs_store_queue].
Qed.

Lemma cbs_rwlock_wrlock : preserves cbs pthread_rwlock_wrlock.
Proof.
  unfold pthread_rwlock_wrlock.
  apply preserves_bind; [keeps|intros _; apply cbs_emit].
Qed.

Lemma cbs_rwlock_unlock : preserves cbs pthread_rwlock_unlock.
Proof.
  unfold pthread_rwlock_unlock.
  apply preserves_bind; [keeps|intros _; apply cbs_emit].
Qed.

Lemma cbs_unref_queue q env :
  (forall s, cbs (env s) = cbs s) ->
  preserves cbs (__aio_unref_queue q env).
Proof.
  intros Henv. unfold __aio_unref_queue.
  apply preserves_bind; [keeps|]. intros r.
  destruct (1 <? q_ref r).
  { apply preserves_bind; [apply cbs_store_queue|].
    intros _. apply cbs_mutex_unlock. }
  apply preserves_bind; [apply cbs_mutex_unlock|]. intros _.
  apply preserves_bind; [by apply preserves_modify|]. intros _.
  apply preserves_bind; [apply cbs_rwlock_wrlock|]. intros _.
  apply preserves_bind; [apply cbs_mutex_lock|]. intros _.
  apply preserves_bind; [keeps|]. intros r2.
  destruct (q_ref r2 =? 1).
  - apply preserves_bind; [apply preserves_map_store|]. intros _.
    apply preserves_bind; [keeps|]. intros _.
    apply preserves_bind; [apply cbs_rwlock_unlock|]. intros _.
    apply preserves_bind; [apply cbs_mutex_unlock|]. intros _.
    apply preserves_bind; [keeps|]. intros _. apply cbs_emit.
  - apply preserves_bind; [apply cbs_store_queue|]. intros _.
    apply preserves_bind; [apply cbs_rwlock_unlock|]. intros _.
    apply cbs_mutex_unlock.
Qed.

Lemma cbs_notify sev : preserves cbs (notify sev).
Proof.
  unfold notify. apply preserves_bind.
  - destruct (sigev_notify sev =? SIGEV_SIGNAL); [apply cbs_emit|keeps].
  - intros _.
    destruct (sigev_notify sev =? SIGEV_THREAD); [apply cbs_emit|keeps].
Qed.

(** The handle after [cleanup]: its [__ret] and [__err] hold the worker's
    [ret] and [err], when the other threads leave the handles alone. *)
Lemma cleanup_publishes a w env (u : unit) st st' :
  (forall k, worker_rely a (env k)) ->
  (forall k s, cbs (env k s) = cbs s) ->
  threads st !! a = Some w ->
  cleanup a env st = Some (u, st') ->
  exists r, cbs st' !! at_cb w = Some r /\
            __ret r = at_ret w /\ __err r = at_err w.
Proof.
  intros Hrely Hcbs Hw. unfold cleanup. intros Hm.
  mbind Hm w0 s0 Hl. apply load_thread_Some in Hl as [-> Hw0].
  assert (w0 = w) as -> by congruence.
  mbind Hm r0 s0 Hl. apply load_cb_Some in Hl as [-> Hr0].
  mbind Hm u1 s1 H1.
  assert (exists r1, cbs s1 !! at_cb w = Some r1 /\ __ret r1 = at_ret w /\
                     threads s1 = threads st) as (r1 & Hr1 & Hret1 & Ht1).
  { unfold cleanup_ret, store_ret in H1.
    mbind H1 w1 s Hl. apply load_thread_Some in Hl as [-> Hw1].
    assert (w1 = w) as -> by congruence.
    mbind H1 u2 s2 H2. apply store_cb_Some in H2 as (r & Hr & ->).
    apply emit_Some in H1 as ->. simpl.
    eexists. by rewrite lookup_insert_eq. }
  mbind Hm u2 s2 Hi. apply interfere_Some in Hi as ->.
  rewrite <- Ht1 in Hw.
  destruct (proj2 (Hrely 0%nat) s1 w Hw) as (w2 & Hw2 & Ho2).
  mbind Hm u3 s3 H3.
  pose proof (cbs_cleanup_running a _ _ _ H3) as Hc3.
  apply cleanup_running_trace in H3 as (w2' & Hw2' & _ & Ht3).
  assert (w2' = w2) as -> by congruence.
  mbind Hm u4 s4 Hi. apply interfere_Some in Hi as ->.
  assert (threads s3 !! a = Some (set_at_running 0 w2)) as Hw3.
  { by rewrite Ht3, lookup_insert_eq. }
  destruct (proj2 (Hrely 1%nat) s3 _ Hw3) as (w4 & Hw4 & Ho4).
  mbind Hm u5 s5 H5.
  assert (exists r5, cbs s5 !! at_cb w = Some r5 /\ __ret r5 = at_ret w /\
                     __err r5 = at_err w) as (r5 & Hr5 & Hret5 & Herr5).
  { unfold cleanup_err, a_swap_err in H5.
    mbind H5 w5 s Hl. apply load_thread_Some in Hl as [-> Hw5].
    assert (w5 = w4) as -> by congruence.
    mbind H5 old s6 H6.
    mbind H6 r s7 Hl. apply load_cb_Some in Hl as [-> Hr].
    mbind H6 u7 s8 H7. apply store_cb_Some in H7 as (r' & Hr' & ->).
    assert (r' = r) as -> by congruence.
    mbind H6 u8 s9 H8. apply emit_Some in H8 as ->.
    apply mret_Some in H6 as [-> ->].
    assert (cbs s5 = <[at_cb w := set___err (at_err w4) r]>
                       (cbs (env 1%nat s3))) as Hc5.
    { destruct (negb (__err r =? EINPROGRESS)).
      - unfold __wake in H5. by apply emit_Some in H5 as ->.
      - by apply mret_Some in H5 as [_ ->]. }
    rewrite Hcbs, Hc3, Hcbs in Hr. rewrite Hr1 in Hr. injection Hr as <-.
    rewrite Hc5, lookup_insert_eq. eexists. split; [done|].
    destruct Ho2 as (_ & _ & _ & He2 & _).
    destruct Ho4 as (_ & _ & _ & He4 & _). simpl in He4.
    split; [done|]. simpl. congruence. }
  mbind Hm u6 s6 Hi. apply interfere_Some in Hi as ->.
  mbind Hm u7 s7 H7. apply cbs_cleanup_fut in H7.
  mbind Hm u8 s8 Hi. apply interfere_Some in Hi as ->.
  mbind Hm u9 s9 H9. apply cbs_cleanup_unlink in H9.
  mbind Hm u10 s10 H10. apply cbs_unref_queue in H10; [|apply Hcbs].
  mbind Hm u11 s11 Hi. apply interfere_Some in Hi as ->.
  apply cbs_notify in Hm.
  exists r5. rewrite Hm, Hcbs, H10, H9, Hcbs, H7, Hcbs. done.
Qed.

(** The state in which a worker that runs to the end enters [cleanup], and
    its record there. *)
Lemma io_thread_func_cleanup_point a td args wakes f env st st' :
  (forall p, worker_rely a (env p)) ->
  io_thread_func a td args wakes f env st = Some (true, st') ->
  exists s w,
    cleanup a (fun n => env (P_cleanup n)) s = Some (tt, st') /\
    threads s !! a = Some w /\ at_cb w = args_cb args /\
    at_ret w = match f with Completed r _ => r | _ => -1 end /\
    at_err w = match f with
               | Completed r e => if r <? 0 then e else 0
               | _ => ECANCELED
               end.
Proof.
  intros Hrely. unfold io_thread_func. intros Hm.
  mbind Hm u1 s1 H1.
  apply io_thread_enter_trace in H1
    as (_ & w1 & Hw1 & Hcb1 & Hq1 & Hop1 & He1 & Hr1 & Hrun1).
  mbind Hm r s2 H2. apply load_queue_Some in H2 as [-> _].
  mbind Hm res s3 H3.
  assert (exists w3, threads s3 !! a = Some w3 /\ own_fields w1 w3 /\
            (res = Canceled -> f = CanceledInWait))
    as (w3 & Hw3 & Ho3 & Hcan).
  { destruct (sequenced (args_op args) r).
    - eapply seq_wait_trace in H3 as (? & w3 & _ & _ & ? & ? & ?);
        [by exists w3| |exact Hw1].
      intros n. apply Hrely.
    - apply mret_Some in H3 as [-> ->]. exists w1.
      by auto using own_fields_refl. }
  destruct Ho3 as (Hcb3 & Hq3 & Hop3 & He3 & Hr3 & Hd3).
  destruct res.
  - mbind Hm u4 s4 H4. apply mutex_unlock_Some in H4 as (r4 & _ & ->).
    mbind Hm u5 s5 H5. apply interfere_Some in H5 as ->.
    destruct (Hrely P_io) as [_ Hrec].
    destruct (Hrec (after_unlock (args_q args) r4 s3) w3 Hw3)
      as (w5 & Hw5 & Hcb5 & Hq5 & Hop5 & He5 & Hr5 & Hd5).
    mbind Hm b6 s6 H6.
    apply io_perform_trace in H6 as (w6 & call & fd & Hw6 & _ & Hw6').
    assert (w6 = w5) as -> by congruence.
    mbind Hm u7 s7 H7. destruct u7.
    apply mret_Some in Hm as [_ ->].
    eexists s6, _. split; [exact H7|]. split; [exact Hw6'|].
    destruct f; simpl; repeat split; congruence.
  - by apply mret_Some in Hm as [? _].
  - mbind Hm u7 s7 H7. destruct u7.
    apply mret_Some in Hm as [_ ->].
    exists s3, w3. split; [exact H7|]. split; [exact Hw3|].
    rewrite (Hcan eq_refl). repeat split; congruence.
Qed.

(** What the user reads after the worker has finished.  When the other
    threads leave the handle alone, [aio_return] gives what the I/O call
    returned (-1 for a cancelled worker) and [aio_error] gives 0 after a
    successful call, the call's [errno] after a failed one, and
    [ECANCELED] for a cancelled worker. *)
Theorem finished_request_reports_result (a : addr) (td : Z)
    (args : aio_args) (wakes : nat) (f : fate)
    (env : point -> state -> state) (st st' : state) :
  (forall p, worker_rely a (env p)) ->
  (forall p s, cbs (env p s) = cbs s) ->
  0 <= match f with
       | Completed r e => if r <? 0 then e else 0
       | _ => ECANCELED
       end < 2 ^ 31 ->
  io_thread_func a td args wakes f env st = Some (true, st') ->
  aio_return (args_cb args) st'
  = Some (match f with Completed r _ => r | _ => -1 end, st') /\
  aio_error (args_cb args) st'
  = Some (match f with
          | Completed r e => if r <? 0 then e else 0
          | _ => ECANCELED
          end, set_trace (trace st' ++ [EvBarrier]) st').
Proof.
  intros Hrely Hcbs Hrange Hm.
  destruct (io_thread_func_cleanup_point _ _ _ _ _ _ _ _ Hrely Hm)
    as (s & w & Hc & Hw & Hcb & Hret & Herr).
  destruct (cleanup_publishes a w _ tt s st'
              (fun k => Hrely (P_cleanup k)) (fun k => Hcbs (P_cleanup k))
              Hw Hc) as (r & Hr & Hr1 & Hr2).
  rewrite Hcb in Hr. split.
  - unfold aio_return.
    rewrite (bind_run _ _ _ _ _ (load_cb_run _ _ _ Hr)).
    by rewrite Hr1, Hret.
  - unfold aio_error, a_barrier.
    rewrite (bind_run _ _ _ _ _ (eq_refl : emit EvBarrier st' = Some (tt, _))).
    rewrite (bind_run _ _ _ _ _
               (load_cb_run _ _ (set_trace (trace st' ++ [EvBarrier]) st') Hr)).
    rewrite Hr2, Herr. unfold mret, M_ret. do 2 f_equal.
    rewrite (proj1 (land_low31 _)). apply Z.mod_small. done.
Qed.

(** ** When a queue is always obtained *)










(** ** Whom [aio_cancel] cancels *)

Lemma cancel_loop_visits (fuel : nat) :
  forall cb env p ret st r st',
    (forall k, keeps_workers (env k)) ->
    cancel_loop fuel cb env p ret st = Some (r, st') ->
    exists visits,
      trace st' = trace st ++ flat_map visit_events visits /\
      (forall a w, threads st !! a = Some w ->
         exists w', threads st' !! a = Some w' /\
                    at_td w' = at_td w /\ at_cb w' = at_cb w) /\
      Forall (fun v =>
                exists w, threads st' !! v.1.1 = Some w /\
                          at_td w = v.2 /\
                          forall c, cb = Some c -> at_cb w = c) visits /\
      (r = ret \/
       (r = AIO_CANCELED /\ exists v, v ∈ visits /\ v.1.2 <> 0)).
Proof.
  induction fuel as [|f IH]; intros cb env p ret st r st' Henv Hrun.
  - destruct p; simpl in Hrun; [done|]. injection Hrun as <- <-.
    exists []. rewrite app_nil_r. split; [done|].
    split; [by eauto|]. split; [done|by left].
  - destruct p as [pa|]; simpl in Hrun.
    2:{ injection Hrun as <- <-. exists []. rewrite app_nil_r.
        split; [done|]. split; [by eauto|].
        split; [done|by left]. }
    mbind Hrun w s1 Hl. apply load_thread_Some in Hl as [-> Hw].
    destruct (match cb with
              | Some c => negb (Pos.eqb c (at_cb w))
              | None => false
              end) eqn:Hmis.
    { exact (IH _ _ _ _ _ _ _ Henv Hrun). }
    assert (forall c, cb = Some c -> at_cb w = c) as Hcb.
    { intros c ->. apply negb_false_iff in Hmis.
      by apply Pos.eqb_eq in Hmis. }
    mbind Hrun old s1 Hcas.
    assert (old = at_running w /\
            trace s1 = trace st ++ [EvCasRunning pa old] /\
            (forall a w0, threads st !! a = Some w0 ->
               exists w', threads s1 !! a = Some w' /\
                          at_td w' = at_td w0 /\ at_cb w' = at_cb w0))
      as (Hold & Ht1 & Hk1).
    { unfold a_cas_running in Hcas.
      mbind Hcas w0 s Hl. apply load_thread_Some in Hl as [-> Hw0].
      assert (w0 = w) as -> by congruence.
      mbind Hcas u s2 Hst. mbind Hcas u3 s3 He.
      apply emit_Some in He as ->. apply mret_Some in Hcas as [-> ->].
      split; [done|]. simpl.
      destruct (at_running w =? 1).
      - apply store_thread_Some in Hst as (w1 & Hw1 & ->). simpl.
        split; [done|]. intros a w0 Ha.
        destruct (decide (a = pa)) as [->|Hne].
        + rewrite lookup_insert_eq. eexists. split; [done|].
          assert (w0 = w1) as -> by congruence. done.
        + rewrite lookup_insert_ne by done. by exists w0.
      - apply mret_Some in Hst as [_ ->]. split; [done|]. by eauto. }
    destruct (Z.eqb_spec old 0) as [Hz|Hnz]; simpl in Hrun.
    + destruct (IH _ _ _ _ _ _ _ Henv Hrun)
        as (vs & Ht & Hk & Hall & Hres).
      exists ((pa, old, at_td w) :: vs). split; [|split; [|split]].
      * rewrite Ht, Ht1. simpl. destruct (Z.eqb_spec old 0); [|done].
        by rewrite <- app_assoc.
      * intros a w0 Ha. destruct (Hk1 a w0 Ha) as (w1 & Hw1 & Htd1 & Hcb1).
        destruct (Hk a w1 Hw1) as (w2 & Hw2 & Htd2 & Hcb2).
        exists w2. split; [done|]. split; congruence.
      * constructor; [|done]. simpl.
        destruct (Hk1 pa w Hw) as (w1 & Hw1 & Htd1 & Hcb1).
        destruct (Hk pa w1 Hw1) as (w2 & Hw2 & Htd2 & Hcb2).
        exists w2. split; [done|]. split; [congruence|].
        intros c Hc. rewrite Hcb2, Hcb1. by apply Hcb.
      * destruct Hres as [->|(-> & v & Hv & Hvn)]; [by left|].
        right. split; [done|]. exists v. split; [by right|done].
    + mbind Hrun u2 s2 He. apply emit_Some in He as ->.
      mbind Hrun u3 s3 Hwt.
      assert (trace s3 = trace s1 ++ [EvCancel (at_td w);
                                      EvWait (W_running pa)] /\
              (forall a w0, threads s1 !! a = Some w0 ->
                 exists w', threads s3 !! a = Some w' /\
                            at_td w' = at_td w0 /\ at_cb w' = at_cb w0))
        as [Ht3 Hk3].
      { unfold __wait_running in Hwt.
        mbind Hwt u4 s4 He. apply emit_Some in He as ->.
        mbind Hwt u5 s5 Hi. apply interfere_Some in Hi as ->.
        mbind Hwt w5 s6 Hl. apply load_thread_Some in Hl as [-> _].
        destruct (at_running w5 =? -1); [done|].
        apply mret_Some in Hwt as [_ ->].
        destruct (Henv f) as [Htr Hkeep]. split.
        - rewrite Htr. simpl. by rewrite <- app_assoc.
        - intros a w0 Ha. by apply Hkeep. }
      mbind Hrun w' s4 Hl. apply load_thread_Some in Hl as [-> Hw'].
      destruct (IH _ _ _ _ _ _ _ Henv Hrun)
        as (vs & Ht & Hk & Hall & Hres).
      exists ((pa, old, at_td w) :: vs). split; [|split; [|split]].
      * rewrite Ht, Ht3, Ht1. simpl. destruct (Z.eqb_spec old 0); [done|].
        by rewrite <- !app_assoc.
      * intros a w0 Ha. destruct (Hk1 a w0 Ha) as (w1 & Hw1 & Htd1 & Hcb1).
        destruct (Hk3 a w1 Hw1) as (w2 & Hw2 & Htd2 & Hcb2).
        destruct (Hk a w2 Hw2) as (w3 & Hw3 & Htd3 & Hcb3).
        exists w3. split; [done|]. split; congruence.
      * constructor; [|done]. simpl.
        destruct (Hk1 pa w Hw) as (w1 & Hw1 & Htd1 & Hcb1).
        destruct (Hk3 pa w1 Hw1) as (w2 & Hw2 & Htd2 & Hcb2).
        destruct (Hk pa w2 Hw2) as (w3 & Hw3 & Htd3 & Hcb3).
        exists w3. split; [done|]. split; [congruence|].
        intros c Hc. rewrite Hcb3, Hcb2, Hcb1. by apply Hcb.
      * destruct Hres as [->|(-> & v & Hv & Hvn)].
        -- destruct (at_err w' =? ECANCELED); [|by left].
           right. split; [done|]. exists (pa, old, at_td w).
           split; [left|done].
        -- right. split; [done|]. exists v. split; [by right|done].
Qed.

Lemma get_queue_lookup_trace fd env r st st' :
  __aio_get_queue fd false env st = Some (r, st') ->
  threads st' = threads st /\
  trace st' = trace st ++
    (if fd <? 0 then []
     else match r with
          | Some q => [EvRdLock; EvMutexLock q; EvRwUnlock]
          | None => [EvRdLock; EvRwUnlock]
          end).
Proof.
  unfold __aio_get_queue. intros Hm.
  destruct (fd <? 0).
  { mbind Hm u s1 H1. apply modify_Some in H1 as ->.
    apply mret_Some in Hm as [-> ->]. by rewrite app_nil_r. }
  mbind Hm u1 s1 H1. apply rwlock_rdlock_state in H1 as ->.
  mbind Hm x s2 H2. apply get_Some in H2 as [-> ->].
  simpl in Hm.
  destruct (map_lookup (aio_map st) fd) as [q0|].
  - mbind Hm u2 s2 H2. apply mutex_lock_Some in H2 as (r0 & _ & ->).
    mbind Hm u3 s3 H3. apply rwlock_unlock_state in H3 as ->.
    apply mret_Some in Hm as [-> ->]. simpl. by rewrite <- !app_assoc.
  - mbind Hm u2 s2 H2. apply rwlock_unlock_state in H2 as ->.
    apply mret_Some in Hm as [-> ->]. simpl. by rewrite <- !app_assoc.
Qed.

Lemma omap_visit_events visits :
  omap cancel_of (flat_map visit_events visits) = omap visit_cancels visits.
Proof.
  induction visits as [|[[a old] td] vs IH]; [done|].
  cbn [flat_map]. rewrite omap_app, IH.
  unfold visit_events. cbn [omap list_omap]. unfold visit_cancels at 2.
  cbn [fst snd]. by destruct (old =? 0).
Qed.

(** ** The life of a request, seen by the user *)

(** Right after an accepted submission [aio_error] reports
    [EINPROGRESS], as long as the worker has not finished (the threads that
    run while the submitter waits for the semaphore have not written the
    handle). *)
Theorem accepted_request_is_in_progress (c : addr) (op : Z)
    (spawn_ok : bool) (env : spoint -> state -> state) (st st' : state) :
  (forall s, cbs (env S_sem s) = cbs s) ->
  0 <= EINPROGRESS < 2 ^ 31 ->
  submit c op spawn_ok env st = Some (0, st') ->
  spawn_ok = true /\
  (exists r, cbs st' !! c = Some r /\ __err r = EINPROGRESS) /\
  aio_error c st'
  = Some (EINPROGRESS, set_trace (trace st' ++ [EvBarrier]) st').
Proof.
  intros Henv Hrange. unfold submit. intros Hm.
  mbind Hm cb s1 H1. apply load_cb_Some in H1 as [-> Hcb].
  mbind Hm oq s2 H2. destruct oq as [q|].
  2:{ mbind Hm e s3 H3. mbind Hm u4 s4 H4. mbind Hm u5 s5 H5.
      mbind Hm e6 s6 H6. mbind Hm u7 s7 H7.
      by apply mret_Some in Hm as [? _]. }
  mbind Hm r s3 H3. mbind Hm u4 s4 H4. mbind Hm u5 s5 H5.
  mbind Hm x s6 H6. mbind Hm u7 s7 H7. mbind Hm u8 s8 H8.
  mbind Hm u9 s9 H9.
  unfold store_err in H9. mbind H9 u9' s9' Hst.
  apply store_cb_Some in Hst as (r9 & Hr9 & ->).
  apply emit_Some in H9 as ->.
  destruct spawn_ok.
  2:{ mbind Hm u10 s10 H10. mbind Hm u11 s11 H11. mbind Hm u12 s12 H12.
      mbind Hm u13 s13 H13. mbind Hm u14 s14 H14. mbind Hm u15 s15 H15.
      by apply mret_Some in Hm as [? _]. }
  mbind Hm u10 s10 H10. apply cbs_emit in H10.
  mbind Hm u11 s11 H11. apply cbs_emit in H11.
  mbind Hm u12 s12 H12. apply interfere_Some in H12 as ->.
  mbind Hm u13 s13 H13. apply cbs_emit in H13.
  apply mret_Some in Hm as [_ ->].
  assert (cbs s13 !! c = Some (set___err EINPROGRESS r9)) as Hfin.
  { rewrite H13, Henv, H11, H10. cbn [cbs set_trace set_cbs].
    apply lookup_insert_eq. }
  split; [done|]. split; [by eexists|].
  unfold aio_error, a_barrier.
  rewrite (bind_run _ _ _ _ _ (eq_refl : emit EvBarrier s13 = Some (tt, _))).
  rewrite (bind_run _ _ _ _ _
             (load_cb_run _ _ (set_trace (trace s13 ++ [EvBarrier]) s13) Hfin)).
  unfold mret, M_ret. do 2 f_equal. cbn [__err set___err].
  rewrite (proj1 (land_low31 _)). by apply Z.mod_small.
Qed.

(** ** The list of a queue *)

(** In every reachable configuration the list of a queue is a proper
    doubly linked list: following [next] from the head ends at a null
    pointer, every [prev] points back, no record occurs twice, and the
    records on it are exactly the workers of this queue that have not yet
    unlinked themselves.  A queue with a worker on its list has been
    classified. *)
Theorem queue_list_is_exact (c : config) (q : addr) (r : aio_queue) :
  reachable c -> queues (shared c) !! q = Some r ->
  exists l,
    dll (threads (shared c)) None (q_head r) l /\
    (forall l', dll (threads (shared c)) None (q_head r) l' -> l' = l) /\
    NoDup l /\
    (forall a, a ∈ l <->
       exists w pc, threads (shared c) !! a = Some w /\ at_q w = q /\
                    pcs c !! a = Some pc /\ linked pc = true) /\
    (l <> [] -> q_init r <> 0).
Proof.
  intros Hreach Hr.
  destruct (reachable_inv c Hreach) as (Hqs & _ & _).
  destruct (Hqs q r Hr) as (l & Hdll & Hnd & Hmem & Hinit & _).
  exists l. split; [done|]. split; [|done].
  intros l' Hd'. by apply (dll_functional _ _ _ _ _ Hd' Hdll).
Qed.

(** A worker registers itself at the head of the list (lines 319-338): the
    list of its queue is the old list with the new record in front, the
    record starts with [running = 1], [err = ECANCELED] and [ret = -1],
    the queue is classified and its lock released, and the worker is
    either in its I/O call or in the sequencing wait. *)
Theorem registration_is_at_head (c c' : config) (a : addr) (td : Z)
    (args : aio_args) (r : aio_queue) (l : list addr) :
  reachable c ->
  queues (shared c) !! args_q args = Some r ->
  dll (threads (shared c)) None (q_head r) l ->
  step (L_enter a td args) c = Some c' ->
  exists r' w,
    queues (shared c') !! args_q args = Some r' /\
    dll (threads (shared c')) None (q_head r') (a :: l) /\
    q_init r' <> 0 /\ q_lock r' = false /\ q_ref r' = q_ref r /\
    threads (shared c') !! a = Some w /\
    at_td w = td /\ at_cb w = args_cb args /\ at_op w = args_op args /\
    at_running w = 1 /\ at_err w = ECANCELED /\ at_ret w = -1 /\
    (pcs c' !! a = Some W_io \/ pcs c' !! a = Some W_wait).
Proof.
  intros Hreach Hr Hdll Hs.
  destruct (reachable_inv c Hreach) as (Hqs & _ & _).
  destruct (Hqs _ r Hr) as (l0 & Hdll0 & Hnd & _).
  pose proof (dll_functional _ _ _ _ _ Hdll0 Hdll) as ->.
  pose proof (reachable_step c _ c' Hreach Hs) as Hreach'.
  simpl in Hs. destruct (pcs c !! a) eqn:Hpa; [discriminate Hs|].
  apply run_worker_Some in Hs as (pc' & st' & Hm & Hsh & Hp).
  pose proof Hm as Hm0.
  apply enter_step_effect in Hm
    as (Ha & r0 & r' & Hr0 & Ht & Hq & Hh & Hl & _ & Hpc & _).
  assert (r0 = r) as -> by congruence.
  set (wnew := fresh_at td args (q_head r)) in *.
  assert (a ∉ l) as Hal.
  { intros Hin. destruct (dll_lookup _ _ _ _ _ Hdll Hin). congruence. }
  assert (threads st' !! a = Some wnew) as Hnew.
  { rewrite Ht. apply link_heap_new; [done|]. intros n Hn. simpl in Hn.
    apply (dll_lookup _ _ _ _ _ Hdll). apply dll_head in Hdll.
    rewrite Hdll in Hn. destruct l; [done|]. injection Hn as ->. left. }
  assert (dll (threads st') (Some a) (q_head r) l) as Hd'.
  { rewrite Ht. unfold link_heap. simpl.
    apply (dll_set_prev (<[a := wnew]> (threads (shared c))) None (Some a));
      [|done].
    apply (dll_frame (threads (shared c))); [done|].
    intros x wx Hx Hwx. exists wx. rewrite lookup_insert_ne; [done|].
    intros ->. done. }
  assert (q_ref r' = q_ref r) as Href.
  { unfold enter_step in Hm0. mbind Hm0 u s1 He.
    unfold io_thread_enter in He.
    mbind He cb s Hl1. apply load_cb_Some in Hl1 as [-> _].
    mbind He u2 s2 H2. apply mutex_lock_Some in H2 as (r2 & Hr2 & ->).
    mbind He u3 s3 H3. apply emit_Some in H3 as ->.
    mbind He x s4 H4. apply get_Some in H4 as [-> ->].
    simpl in He. rewrite Ha in He.
    mbind He r5 s5 H5. apply load_queue_Some in H5 as [-> Hr5].
    simpl in Hr5. rewrite lookup_insert_eq in Hr5. injection Hr5 as <-.
    assert (r2 = r) as -> by congruence.
    mbind He u6 s6 H6. apply modify_Some in H6 as ->.
    mbind He u7 s7 H7.
    assert (queues s7 = <[args_q args := set_q_lock true r]>
                          (queues (shared c))) as Hq7.
    { simpl in H7. destruct (q_head r).
      - by apply store_thread_Some in H7 as (? & _ & ->).
      - by apply mret_Some in H7 as [_ ->]. }
    mbind He u8 s8 H8. apply store_queue_Some in H8 as (r8 & Hr8 & ->).
    rewrite Hq7, lookup_insert_eq in Hr8. injection Hr8 as <-.
    mbind He u9 s9 H9. apply emit_Some in H9 as ->.
    assert (exists r10, queues s1 !! args_q args = Some r10 /\
                        q_ref r10 = q_ref r) as (r10 & Hr10 & Href10).
    { unfold classify in He.
      mbind He r11 s11 H11. apply load_queue_Some in H11 as [-> Hr11].
      simpl in Hr11. rewrite lookup_insert_eq in Hr11.
      injection Hr11 as <-.
      destruct (q_init (set_q_head (Some a) (set_q_lock true r)) =? 0).
      - mbind He x2 s12 H12. apply get_Some in H12 as [-> ->].
        apply store_queue_Some in He as (r13 & Hr13 & ->).
        simpl in Hr13. rewrite lookup_insert_eq in Hr13.
        injection Hr13 as <-. simpl. rewrite lookup_insert_eq.
        by eexists.
      - apply mret_Some in He as [_ ->]. simpl. rewrite lookup_insert_eq.
        by eexists. }
    mbind Hm0 r12 s12 H12. apply load_queue_Some in H12 as [-> Hr12].
    assert (r12 = r10) as -> by congruence.
    assert (exists r13, queues st' !! args_q args = Some r13 /\
                        q_ref r13 = q_ref r10) as (r13 & Hr13 & Href13).
    { destruct (sequenced (args_op args) r10).
      - apply seq_test_effect in Hm0 as (_ & (r14 & Hr14 & Hq14) & _).
        assert (r14 = r10) as -> by congruence.
        rewrite Hq14, lookup_insert_eq. by eexists.
      - mbind Hm0 u13 s13 H13.
        apply mutex_unlock_Some in H13 as (r14 & Hr14 & ->).
        assert (r14 = r10) as -> by congruence.
        apply mret_Some in Hm0 as [_ ->]. simpl.
        rewrite lookup_insert_eq. by eexists. }
    rewrite Hq, lookup_insert_eq in Hr13. injection Hr13 as <-.
    congruence. }
  assert (dll (threads (shared c')) None (q_head r') (a :: l)) as Hdfin.
  { rewrite Hsh, Hh. simpl. split; [done|]. exists wnew. by split. }
  assert (queues (shared c') !! args_q args = Some r') as Hr'.
  { by rewrite Hsh, Hq, lookup_insert_eq. }
  assert (q_init r' <> 0) as Hi.
  { destruct (reachable_inv c' Hreach') as (Hqs' & _ & _).
    destruct (Hqs' _ r' Hr') as (l' & Hd'' & _ & _ & Hinit' & _).
    pose proof (dll_functional _ _ _ _ _ Hd'' Hdfin) as ->.
    by apply Hinit'. }
  exists r', wnew. split; [done|]. split; [done|]. split; [done|].
  split; [done|]. split; [done|]. rewrite Hsh.
  repeat (split; [done|]).
  rewrite Hp, lookup_insert_eq. destruct Hpc as [-> | ->]; [by left|by right].
Qed.

(** ** The references a submission takes *)

Lemma same_directory_refl st : same_directory st st.
Proof. by split. Qed.

Lemma same_directory_trans s1 s2 s3 :
  same_directory s1 s2 -> same_directory s2 s3 -> same_directory s1 s3.
Proof.
  intros (Hq & Hl & Hc) (Hq' & Hl' & Hc'). split; [congruence|].
  split; [|congruence]. intros fd. by rewrite Hl', Hl.
Qed.

Lemma same_directory_fields st st' :
  queues st' = queues st -> aio_map st' = aio_map st ->
  aio_fd_cnt st' = aio_fd_cnt st -> same_directory st st'.
Proof. intros Hq Hm Hc. split; [done|]. split; [|done]. by rewrite Hm. Qed.

Lemma keeps_directory_same env st :
  keeps_directory env -> same_directory st (env st).
Proof. intros He. destruct (He st) as (Hq & Hm & Hc). by apply same_directory_fields. Qed.

Lemma store_err_directory c v (u : unit) st st' :
  store_err c v st = Some (u, st') -> same_directory st st'.
Proof.
  unfold store_err. intros Hm.
  mbind Hm u1 s1 H1. apply store_cb_Some in H1 as (r & _ & ->).
  apply emit_Some in Hm as ->. by apply same_directory_fields.
Qed.

Lemma store_ret_directory c v (u : unit) st st' :
  store_ret c v st = Some (u, st') -> same_directory st st'.
Proof.
  unfold store_ret. intros Hm.
  mbind Hm u1 s1 H1. apply store_cb_Some in H1 as (r & _ & ->).
  apply emit_Some in Hm as ->. by apply same_directory_fields.
Qed.

(** A failed allocation leaves everything but [errno] as it was. *)
Lemma alloc_directory v b st st' :
  (ok ← calloc;
   if ok : bool then modify (set_aio_map v);; mret true
   else mret false) st = Some (b, st') ->
  b = false -> same_directory st st'.
Proof.
  intros Hm ->. mbind Hm ok s1 H1. unfold calloc in H1.
  destruct (mem st); injection H1 as <- <-; simpl in Hm.
  - apply mret_Some in Hm as [_ ->]. by apply same_directory_fields.
  - mbind Hm u s2 H2. by apply mret_Some in Hm as [? _].
Qed.

Lemma same_directory_lookups st st' :
  queues st' = queues st -> aio_fd_cnt st' = aio_fd_cnt st ->
  (forall fd, map_lookup (aio_map st') fd = map_lookup (aio_map st) fd) ->
  same_directory st st'.
Proof. by intros Hq Hc Hl. Qed.

Lemma ensure_map_directory b st st' :
  ensure_map st = Some (b, st') -> same_directory st st'.
Proof.
  destruct b.
  - intros Hm. apply ensure_map_ok in Hm as (Hq & Hc & _ & Hl & _).
    by apply same_directory_lookups.
  - unfold ensure_map. destruct (aio_map st); [done|].
    intros Hm. by apply alloc_directory in Hm.
Qed.

Lemma ensure_a_directory fd b st st' :
  ensure_a fd st = Some (b, st') -> same_directory st st'.
Proof.
  destruct b.
  - intros Hm. apply ensure_a_ok in Hm as (Hq & Hc & _ & Hl & _).
    by apply same_directory_lookups.
  - unfold ensure_a. destruct (aio_map st) as [t|]; [|done].
    destruct (t !! idx_a fd); [done|].
    intros Hm. by apply alloc_directory in Hm.
Qed.

Lemma ensure_b_directory fd b st st' :
  ensure_b fd st = Some (b, st') -> same_directory st st'.
Proof.
  destruct b.
  - intros Hm. apply ensure_b_ok in Hm as (Hq & Hc & _ & Hl & _).
    by apply same_directory_lookups.
  - unfold ensure_b. destruct (aio_map st) as [t|]; [|done].
    destruct (t !! idx_a fd) as [ta|]; [|done].
    destruct (ta !! idx_b fd); [done|].
    intros Hm. by apply alloc_directory in Hm.
Qed.

Lemma ensure_c_directory fd b st st' :
  ensure_c fd st = Some (b, st') -> same_directory st st'.
Proof.
  destruct b.
  - intros Hm. apply ensure_c_ok in Hm as (Hq & Hc & _ & Hl & _).
    by apply same_directory_lookups.
  - unfold ensure_c. destruct (aio_map st) as [t|]; [|done].
    destruct (t !! idx_a fd) as [ta|]; [|done].
    destruct (ta !! idx_b fd) as [tb|]; [|done].
    destruct (tb !! idx_c fd); [done|].
    intros Hm. by apply alloc_directory in Hm.
Qed.

(** [create_queue] that gives up has changed no entry of the map: the
    tables it may have allocated on the way are empty. *)
Lemma create_queue_directory fd st st' :
  create_queue fd st = Some (None, st') -> same_directory st st'.
Proof.
  unfold create_queue. intros Hm.
  mbind Hm ok1 s1 H1. apply ensure_map_directory in H1.
  destruct ok1; simpl in Hm; [|by apply mret_Some in Hm as [_ ->]].
  mbind Hm ok2 s2 H2. apply ensure_a_directory in H2.
  pose proof (same_directory_trans _ _ _ H1 H2) as H12.
  destruct ok2; simpl in Hm; [|by apply mret_Some in Hm as [_ ->]].
  mbind Hm ok3 s3 H3. apply ensure_b_directory in H3.
  pose proof (same_directory_trans _ _ _ H12 H3) as H13.
  destruct ok3; simpl in Hm; [|by apply mret_Some in Hm as [_ ->]].
  mbind Hm ok4 s4 H4. apply ensure_c_directory in H4.
  pose proof (same_directory_trans _ _ _ H13 H4) as H14.
  destruct ok4; simpl in Hm; [|by apply mret_Some in Hm as [_ ->]].
  apply (same_directory_trans _ _ _ H14).
  unfold ensure_queue in Hm.
  destruct (map_lookup (aio_map s4) fd); [done|].
  mbind Hm ok s5 H5. unfold calloc in H5.
  destruct (mem s4); injection H5 as <- <-; simpl in Hm.
  - apply mret_Some in Hm as [_ ->]. by apply same_directory_fields.
  - mbind Hm u6 s6 H6. mbind Hm u7 s7 H7. mbind Hm u8 s8 H8.
    by apply mret_Some in Hm as [? _].
Qed.

(** What [__aio_get_queue] does to the directory: nothing when it returns
    null; otherwise the queue it returns is the one the map held, now
    locked, or a new one, locked and counted. *)
Lemma get_queue_directory fd need env oq st st' :
  keeps_directory env ->
  __aio_get_queue fd need env st = Some (oq, st') ->
  match oq with
  | None => same_directory st st'
  | Some q =>
      map_lookup (aio_map st') fd = Some q /\
      (forall fd', key fd' <> key fd ->
         map_lookup (aio_map st') fd' = map_lookup (aio_map st) fd') /\
      ((exists r0, map_lookup (aio_map st) fd = Some q /\
          queues st !! q = Some r0 /\
          queues st' = <[q := set_q_lock true r0]> (queues st) /\
          aio_fd_cnt st' = aio_fd_cnt st) \/
       (map_lookup (aio_map st) fd = None /\ queues st !! q = None /\
        queues st' = <[q := set_q_lock true (new_queue fd)]> (queues st) /\
        aio_fd_cnt st' = aio_fd_cnt st + 1))
  end.
Proof.
  intros Henv. unfold __aio_get_queue. intros Hm.
  destruct (fd <? 0).
  { mbind Hm u s1 H1. apply modify_Some in H1 as ->.
    apply mret_Some in Hm as [-> ->]. by apply same_directory_fields. }
  mbind Hm u1 s1 H1. apply rwlock_rdlock_state in H1 as ->.
  mbind Hm x s2 H2. apply get_Some in H2 as [-> ->].
  simpl in Hm.
  destruct (map_lookup (aio_map st) fd) as [q0|] eqn:Hl.
  { mbind Hm u2 s2 H2. apply mutex_lock_Some in H2 as (r0 & Hr0 & ->).
    mbind Hm u3 s3 H3. apply rwlock_unlock_state in H3 as ->.
    apply mret_Some in Hm as [-> ->]. simpl in *.
    split; [done|]. split; [done|]. left. by exists r0. }
  destruct need.
  2:{ mbind Hm u2 s2 H2. apply rwlock_unlock_state in H2 as ->.
      apply mret_Some in Hm as [-> ->]. by apply same_directory_fields. }
  mbind Hm u2 s2 H2. apply rwlock_unlock_state in H2 as ->.
  mbind Hm ok s3 H3. unfold fcntl_getfd in H3. simpl in H3.
  destruct (fdtab st !! fd) as [d|]; injection H3 as <- <-; simpl in Hm.
  2:{ apply mret_Some in Hm as [-> ->]. by apply same_directory_fields. }
  mbind Hm u4 s4 H4. apply interfere_Some in H4 as ->.
  match type of Hm with context [env ?s] =>
    destruct (Henv s) as (Eq & Em & Ec); set (s0 := env s) in *
  end.
  simpl in Eq, Em, Ec.
  mbind Hm u5 s5 H5. apply emit_Some in H5 as ->.
  mbind Hm u6 s6 H6. unfold pthread_rwlock_wrlock in H6.
  mbind H6 u6' s6' H6'. apply modify_Some in H6' as ->.
  apply emit_Some in H6 as ->.
  mbind Hm u7 s7 H7.
  apply init_stack_size_ok in H7 as (Hq7 & Hm7 & Hc7 & _).
  simpl in Hq7, Hm7, Hc7.
  mbind Hm oq' s8 H8. destruct oq' as [q1|].
  - pose proof H8 as H8'.
    apply create_queue_ok in H8 as (_ & Hl8 & Hoth8 & Hcase).
    mbind Hm u9 s9 H9. apply mutex_lock_Some in H9 as (r9 & Hr9 & ->).
    mbind Hm u10 s10 H10. apply rwlock_unlock_state in H10 as ->.
    mbind Hm u11 s11 H11. apply emit_Some in H11 as ->.
    apply mret_Some in Hm as [-> ->]. simpl.
    split; [done|]. split.
    { intros fd' Hne. by rewrite (Hoth8 fd' Hne), Hm7, Em. }
    destruct Hcase as [(Hold & _)|(_ & Hfresh & Hq8 & Hc8)].
    { rewrite Hm7, Em, Hl in Hold. discriminate Hold. }
    right. rewrite Hq7, Eq in Hfresh. split; [done|]. split; [done|].
    rewrite Hq8, lookup_insert_eq in Hr9. injection Hr9 as <-.
    rewrite Hq8, insert_insert_eq, Hq7, Eq. split; [done|].
    by rewrite Hc8, Hc7, Ec.
  - apply create_queue_directory in H8 as (Hq8 & Hl8 & Hc8).
    mbind Hm u9 s9 H9. apply rwlock_unlock_state in H9 as ->.
    mbind Hm u10 s10 H10. apply emit_Some in H10 as ->.
    apply mret_Some in Hm as [-> ->].
    apply same_directory_lookups; simpl.
    + by rewrite Hq8, Hq7, Eq.
    + by rewrite Hc8, Hc7, Ec.
    + intros fd'. by rewrite Hl8, Hm7, Em.
Qed.

(** ** What the swaps of [cleanup] leave in the three words *)

Lemma cleanup_ret_state a cb (u : unit) st st' :
  cleanup_ret a cb st = Some (u, st') ->
  exists w r, threads st !! a = Some w /\ cbs st !! cb = Some r /\
    cbs st' = <[cb := set___ret (at_ret w) r]> (cbs st).
Proof.
  unfold cleanup_ret, store_ret. intros Hm.
  mbind Hm w s1 H1. apply load_thread_Some in H1 as [-> Hw].
  mbind Hm u1 s2 H2. apply store_cb_Some in H2 as (r & Hr & ->).
  apply emit_Some in Hm as ->. by exists w, r.
Qed.

Lemma cleanup_err_state a cb (u : unit) st st' :
  cleanup_err a cb st = Some (u, st') ->
  exists w r, threads st !! a = Some w /\ cbs st !! cb = Some r /\
    cbs st' = <[cb := set___err (at_err w) r]> (cbs st).
Proof.
  unfold cleanup_err, a_swap_err. intros Hm.
  mbind Hm w s1 H1. apply load_thread_Some in H1 as [-> Hw].
  mbind Hm old s2 H2.
  mbind H2 r s3 H3. apply load_cb_Some in H3 as [-> Hr].
  mbind H2 u1 s4 H4. apply store_cb_Some in H4 as (r' & Hr' & ->).
  assert (r' = r) as -> by congruence.
  mbind H2 u2 s5 H5. apply emit_Some in H5 as ->.
  apply mret_Some in H2 as [-> ->].
  exists w, r. split; [done|]. split; [done|].
  destruct (negb (__err r =? EINPROGRESS)).
  - by apply emit_Some in Hm as ->.
  - by apply mret_Some in Hm as [_ ->].
Qed.

Lemma cleanup_fut_state (u : unit) st st' :
  cleanup_fut st = Some (u, st') -> __aio_fut st' = 0.
Proof.
  unfold cleanup_fut, a_swap_fut. intros Hm.
  mbind Hm old s1 H1. injection H1 as <- <-.
  destruct (negb (__aio_fut st =? 0)).
  - by apply emit_Some in Hm as ->.
  - by apply mret_Some in Hm as [_ ->].
Qed.

(** The run of [cleanup] passes through the four stores one after the
    other, each from the state in which the other threads left the one
    before. *)
Lemma cleanup_stages a w env (u : unit) st st' :
  threads st !! a = Some w ->
  cleanup a env st = Some (u, st') ->
  exists r s0 s1 s2 s3,
    cbs st !! at_cb w = Some r /\
    cleanup_ret a (at_cb w) st = Some (tt, s0) /\
    cleanup_running a (env 0%nat s0) = Some (tt, s1) /\
    cleanup_err a (at_cb w) (env 1%nat s1) = Some (tt, s2) /\
    cleanup_fut (env 2%nat s2) = Some (tt, s3) /\
    (cleanup_unlink a (at_q w);;
     __aio_unref_queue (at_q w) (env 4%nat);;
     interfere (env 5%nat);;
     notify (aio_sigevent r)) (env 3%nat s3) = Some (u, st').
Proof.
  intros Hw. unfold cleanup. intros Hm.
  mbind Hm w0 s Hl. apply load_thread_Some in Hl as [-> Hw0].
  assert (w0 = w) as -> by congruence.
  mbind Hm r s Hl. apply load_cb_Some in Hl as [-> Hr].
  mbind Hm u0 s0 H0. destruct u0.
  mbind Hm u1 s1 Hi. apply interfere_Some in Hi as ->.
  mbind Hm u1' s1 H1. destruct u1'.
  mbind Hm u2 s2 Hi. apply interfere_Some in Hi as ->.
  mbind Hm u2' s2 H2. destruct u2'.
  mbind Hm u3 s3 Hi. apply interfere_Some in Hi as ->.
  mbind Hm u3' s3 H3. destruct u3'.
  mbind Hm u4 s4 Hi. apply interfere_Some in Hi as ->.
  by exists r, s0, s1, s2, s3.
Qed.

(** C2.  [cleanup] stores the result, then swaps [running] to 0 and wakes
    its waiters exactly when it held -1, then swaps the handle's [__err] to
    the worker's [err] and wakes its waiters exactly when it did not hold
    [EINPROGRESS], then swaps [__aio_fut] to 0 and wakes its waiters exactly
    when it was not 0; only then does it take the queue lock, unlink the
    worker and broadcast, drop its reference, and send the notification.
    The run goes through the states [s0], [s1], [s2] and [s3] that the four
    stores leave: in [s0] the handle's [__ret] holds the worker's [ret]; in
    [s1] the worker's [running] holds 0, and the value logged as the old
    one is what the word held when the swap began; in [s2] the handle's
    [__err] holds the worker's [err], and likewise for the old value; in
    [s3] [__aio_fut] holds 0, and likewise.  The other threads are assumed
    not to touch the worker's own [err] and to store only 1, -1 or 0 to
    [running], which is all [aio.c] ever stores there. *)
Theorem cleanup_wakes_in_order (a : addr) (w : aio_thread)
    (env : nat -> state -> state) (st st' : state) :
  (forall k s, trace (env k s) = trace s) ->
  (forall k s w1, threads s !! a = Some w1 ->
     exists w2, threads (env k s) !! a = Some w2 /\
       at_err w2 = at_err w1 /\
       (at_running w1 = 1 \/ at_running w1 = -1 \/ at_running w1 = 0 ->
        at_running w2 = 1 \/ at_running w2 = -1 \/ at_running w2 = 0)) ->
  threads st !! a = Some w ->
  at_running w = 1 \/ at_running w = -1 \/ at_running w = 0 ->
  cleanup a env st = Some (tt, st') ->
  exists r old_running old_err old_fut unref,
    cbs st !! at_cb w = Some r /\
    trace st' = trace st ++
      [EvStoreRet (at_cb w) (at_ret w); EvSwapRunning a old_running 0] ++
      (if old_running =? -1 then [EvWake (W_running a)] else []) ++
      [EvSwapErr (at_cb w) old_err (at_err w)] ++
      (if old_err =? EINPROGRESS then [] else [EvWake (W_err (at_cb w))]) ++
      [EvSwapFut old_fut 0] ++
      (if old_fut =? 0 then [] else [EvWake W_fut]) ++
      [EvMutexLock (at_q w); EvUnlink a (at_q w); EvCondBroadcast (at_q w)] ++
      unref ++
      (if sigev_notify (aio_sigevent r) =? SIGEV_SIGNAL
       then [EvSigqueue (sigev_signo (aio_sigevent r))
               (sigev_value (aio_sigevent r)) SI_ASYNCIO]
       else []) ++
      (if sigev_notify (aio_sigevent r) =? SIGEV_THREAD
       then [EvCallback (sigev_notify_function (aio_sigevent r))
               (sigev_value (aio_sigevent r))]
       else []) /\
    (unref = [EvMutexUnlock (at_q w)] \/
     unref = [EvMutexUnlock (at_q w); EvWrLock; EvMutexLock (at_q w);
              EvRwUnlock; EvMutexUnlock (at_q w)] \/
     unref = [EvMutexUnlock (at_q w); EvWrLock; EvMutexLock (at_q w);
              EvRwUnlock; EvMutexUnlock (at_q w); EvFree (at_q w)]) /\
    exists s0 s1 s2 s3 w0 r1,
      cleanup_ret a (at_cb w) st = Some (tt, s0) /\
      cbs s0 !! at_cb w = Some (set___ret (at_ret w) r) /\
      threads (env 0%nat s0) !! a = Some w0 /\
      old_running = at_running w0 /\
      cleanup_running a (env 0%nat s0) = Some (tt, s1) /\
      threads s1 !! a = Some (set_at_running 0 w0) /\
      cbs (env 1%nat s1) !! at_cb w = Some r1 /\
      old_err = __err r1 /\
      cleanup_err a (at_cb w) (env 1%nat s1) = Some (tt, s2) /\
      cbs s2 !! at_cb w = Some (set___err (at_err w) r1) /\
      old_fut = __aio_fut (env 2%nat s2) /\
      cleanup_fut (env 2%nat s2) = Some (tt, s3) /\
      __aio_fut s3 = 0 /\
      (cleanup_unlink a (at_q w);;
       __aio_unref_queue (at_q w) (env 4%nat);;
       interfere (env 5%nat);;
       notify (aio_sigevent r)) (env 3%nat s3) = Some (tt, st').
Proof.
  intros Htr Hrec Hw Hdom Hm.
  destruct (cleanup_stages a w env tt st st' Hw Hm)
    as (r & s0 & s1 & s2 & s3 & Hr & H0 & H1 & H2 & H3 & Hrest).
  destruct (cleanup_ret_state _ _ _ _ _ H0) as (w' & r' & Hw' & Hr' & Hc0).
  assert (w' = w) as -> by congruence.
  assert (r' = r) as -> by congruence.
  destruct (cleanup_ret_trace _ _ _ _ _ H0) as (x & Hx & Hth0 & Ht0).
  assert (x = w) as -> by congruence. clear Hx.
  destruct (cleanup_running_trace _ _ _ _ H1) as (w0 & Hw0 & Ht1 & Hth1).
  destruct (cleanup_err_state _ _ _ _ _ H2) as (w2 & r1 & Hw2 & Hr1 & Hc2).
  destruct (cleanup_err_trace _ _ _ _ _ H2)
    as (w2' & r1' & Hw2' & Hr1' & _ & Ht2).
  assert (w2' = w2) as -> by congruence.
  assert (r1' = r1) as -> by congruence. clear Hw2' Hr1'.
  destruct (cleanup_fut_trace _ _ _ H3) as (_ & Ht3).
  pose proof (cleanup_fut_state _ _ _ H3) as Hf3.
  (* the worker's own fields under the other threads *)
  assert (threads s0 !! a = Some w) as Hs0 by (by rewrite Hth0).
  destruct (Hrec 0%nat s0 w Hs0) as (x & Hx & Hex & Hdx).
  assert (x = w0) as -> by congruence. clear Hx.
  specialize (Hdx Hdom).
  assert (threads s1 !! a = Some (set_at_running 0 w0)) as Hs1
    by (by rewrite Hth1, lookup_insert_eq).
  destruct (Hrec 1%nat s1 _ Hs1) as (y & Hy & Hey & _).
  assert (y = w2) as -> by congruence. clear Hy.
  assert (at_err w2 = at_err w) as He by (rewrite Hey; exact Hex).
  assert ((at_running w0 <? 0) = (at_running w0 =? -1)) as Hlt.
  { destruct Hdx as [-> | [-> | ->]]; done. }
  (* the events after the swaps *)
  pose proof Hrest as Hx.
  mbind Hx u5 s5 H5. apply cleanup_unlink_trace in H5.
  mbind Hx u6 s6 H6.
  apply unref_trace in H6 as (unref & H6 & Hunref); [|apply Htr].
  mbind Hx u7 s7 H7. apply interfere_Some in H7 as ->.
  apply notify_trace in Hx.
  exists r, (at_running w0), (__err r1), (__aio_fut (env 2%nat s2)), unref.
  split; [done|]. split.
  { rewrite Hx, Htr, H6, H5, Htr, Ht3, Htr, Ht2, Htr, Ht1, Htr, Ht0.
    rewrite He, Hlt.
    rewrite <- !app_assoc. simpl. rewrite <- ?app_assoc. done. }
  split; [done|].
  exists s0, s1, s2, s3, w0, r1.
  split; [done|]. split; [by rewrite Hc0, lookup_insert_eq|].
  split; [done|]. split; [done|]. split; [done|]. split; [done|].
  split; [done|]. split; [done|]. split; [done|].
  split; [by rewrite Hc2, lookup_insert_eq, He|].
  split; [done|]. split; [done|]. split; [done|]. exact Hrest.
Qed.

(** ** [aio_cancel] and invalid descriptors *)

(** A lookup that finds nothing for a non-negative descriptor leaves
    [errno] alone. *)
Lemma get_queue_lookup_errno fd env st st' :
  0 <= fd ->
  __aio_get_queue fd false env st = Some (None, st') ->
  errno st' = errno st.
Proof.
  intros Hfd Hm.
  destruct (map_lookup (aio_map st) fd) as [q0|] eqn:Hl.
  - unfold __aio_get_queue in Hm. destruct (Z.ltb_spec fd 0); [lia|].
    mbind Hm u1 s1 H1. apply rwlock_rdlock_state in H1 as ->.
    mbind Hm x s2 H2. apply get_Some in H2 as [-> ->].
    simpl in Hm. rewrite Hl in Hm.
    mbind Hm u2 s2 H2. mbind Hm u3 s3 H3.
    by apply mret_Some in Hm as [? _].
  - rewrite get_queue_absent in Hm by done. by injection Hm as <-.
Qed.

(** Every way in which [aio_cancel] returns -1: the handle is for another
    descriptor ([EINVAL], line 485), or the descriptor is negative
    ([EBADF], line 154). *)
Lemma aio_cancel_minus_one fd cb env r st st' :
  ENOENT <> EBADF ->
  aio_cancel fd cb env st = Some (r, st') -> r = -1 ->
  (~ handle_matches fd cb st /\ errno st' = EINVAL) \/
  (handle_matches fd cb st /\ fd < 0 /\ errno st' = EBADF).
Proof.
  intros Hne. unfold aio_cancel. intros Hm Hr.
  mbind Hm mis s1 H1.
  assert (s1 = st /\ (mis = false <-> handle_matches fd cb st)) as [-> Hmis].
  { destruct cb as [c|].
    - mbind H1 rc s Hl. apply load_cb_Some in Hl as [-> Hc].
      apply mret_Some in H1 as [-> ->]. split; [done|].
      rewrite negb_false_iff, Z.eqb_eq. split.
      + intros ->. by exists rc.
      + intros (rc' & Hc' & <-). congruence.
    - apply mret_Some in H1 as [-> ->]. done. }
  destruct mis.
  { mbind Hm u s2 H2. apply modify_Some in H2 as ->.
    apply mret_Some in Hm as [_ ->]. left. split; [|done].
    intros Hh. apply Hmis in Hh. discriminate Hh. }
  right. split; [by apply Hmis|].
  mbind Hm u2 s2 H2. apply emit_Some in H2 as ->.
  mbind Hm u3 s3 H3. apply modify_Some in H3 as ->.
  mbind Hm oq s4 H4.
  destruct oq as [q|].
  - mbind Hm rq s5 H5. mbind Hm x s6 H6. mbind Hm ret s7 H7.
    mbind Hm u8 s8 H8. mbind Hm u9 s9 H9.
    apply mret_Some in Hm as [-> _].
    apply cancel_loop_result in H7.
    unfold AIO_ALLDONE, AIO_CANCELED in H7. lia.
  - destruct (Z.ltb_spec fd 0) as [Hfd|Hfd].
    + rewrite get_queue_negative in H4 by done. injection H4 as <-.
      mbind Hm e s5 H5. unfold get_errno in H5. injection H5 as <- <-.
      mbind Hm u6 s6 H6. apply emit_Some in H6 as ->.
      by apply mret_Some in Hm as [_ ->].
    + apply get_queue_lookup_errno in H4 as He; [|done].
      mbind Hm e s5 H5. unfold get_errno in H5. injection H5 as <- <-.
      mbind Hm u6 s6 H6. apply emit_Some in H6 as ->.
      apply mret_Some in Hm as [-> _].
      rewrite He in Hr. simpl in Hr.
      destruct (Z.eqb_spec ENOENT EBADF); [done|].
      unfold AIO_ALLDONE in Hr. lia.
Qed.

(** C5, as the code has it.  When the handle check passes: for a negative
    [fd], [aio_cancel] returns [-1] with [errno] set to [EBADF]; for a
    non-negative [fd] that has no queue it returns [AIO_ALLDONE], which is
    [2], whether or not the descriptor is open ([fdtab] is not consulted),
    and [errno] is left at [ENOENT]; and for a non-negative [fd], with or
    without a queue, the result is [AIO_ALLDONE] or [AIO_CANCELED], never
    [-1].  Whatever the handle: a call that returns [-1] with [errno] at
    [EBADF] was made with a negative [fd]. *)
Theorem aio_cancel_without_queue (fd : Z) (cb : option addr)
    (env : nat -> state -> state) (st : state) :
  ENOENT <> EBADF ->
  (handle_matches fd cb st ->
   (fd < 0 ->
    exists st', aio_cancel fd cb env st = Some (-1, st') /\
                errno st' = EBADF /\ cbs st' = cbs st) /\
   (0 <= fd -> map_lookup (aio_map st) fd = None ->
    exists st', aio_cancel fd cb env st = Some (AIO_ALLDONE, st') /\
                AIO_ALLDONE = 2 /\
                errno st' = ENOENT /\ cbs st' = cbs st) /\
   (0 <= fd -> forall r st',
      aio_cancel fd cb env st = Some (r, st') ->
      (r = AIO_ALLDONE \/ r = AIO_CANCELED) /\ r <> -1)) /\
  (EINVAL <> EBADF -> forall r st',
     aio_cancel fd cb env st = Some (r, st') ->
     r = -1 -> errno st' = EBADF -> fd < 0).
Proof.
  intros Hne. split.
  - intros Hm. split; [|split].
    + intros Hfd. rewrite (aio_cancel_past_check _ _ _ _ Hm).
      unfold sigmask_block_all, sigmask_restore. munfold. simpl.
      rewrite get_queue_negative by done. simpl.
      rewrite Z.eqb_refl. eexists. split; [reflexivity|]. done.
    + intros Hfd Hq. rewrite (aio_cancel_past_check _ _ _ _ Hm).
      unfold sigmask_block_all, sigmask_restore. munfold. simpl.
      rewrite get_queue_absent by done. simpl.
      destruct (Z.eqb_spec ENOENT EBADF); [done|].
      eexists. split; [reflexivity|]. done.
    + intros Hfd r st' Hrun.
      assert (r <> -1) as Hr.
      { intros ->.
        destruct (aio_cancel_minus_one _ _ _ _ _ _ Hne Hrun eq_refl)
          as [[Hn _]|(_ & Hneg & _)]; [by apply Hn|lia]. }
      split; [|exact Hr].
      unfold aio_cancel in Hrun.
      mbind Hrun mm s1 H1. destruct mm.
      { mbind Hrun u s2 H2. apply mret_Some in Hrun as [-> _]. done. }
      mbind Hrun u2 s2 H2. mbind Hrun u3 s3 H3. mbind Hrun oq s4 H4.
      destruct oq as [q|].
      * mbind Hrun rq s5 H5. mbind Hrun x s6 H6. mbind Hrun ret s7 H7.
        mbind Hrun u8 s8 H8. mbind Hrun u9 s9 H9.
        apply mret_Some in Hrun as [-> _].
        by apply cancel_loop_result in H7.
      * mbind Hrun e s5 H5. mbind Hrun u6 s6 H6.
        apply mret_Some in Hrun as [-> _].
        destruct (e =? EBADF); [done|by left].
  - intros Hinv r st' Hrun Hr He.
    destruct (aio_cancel_minus_one _ _ _ _ _ _ Hne Hrun Hr)
      as [[_ He']|(_ & Hneg & _)]; [congruence|done].
Qed.

(** ** Whose [running] word [aio_cancel] touches *)

(** [aio_cancel] is selective.  Its events are those of the visits it
    pays, between a prologue and an epilogue that hold no compare-and-swap,
    no cancellation and no wait: so the [running] words it touches and the
    threads it cancels are those of the visits, and no others.  Every
    visited record is a worker, with the thread the visit names, and when
    [aio_cancel] was given a handle it is a worker of that handle.  The
    threads it sends a cancellation to are those of the visits whose
    compare-and-swap returned a non-zero value.  It returns
    [AIO_CANCELED] only if it has cancelled a thread; if it has cancelled
    none the result is [AIO_ALLDONE] or -1. *)
Theorem aio_cancel_is_selective (fd : Z) (cb : option addr)
    (env : nat -> state -> state) (r : Z) (st st' : state) :
  (forall k, keeps_workers (env k)) ->
  aio_cancel fd cb env st = Some (r, st') ->
  exists evs visits,
    trace st' = trace st ++ evs /\
    omap cancel_of evs = omap visit_cancels visits /\
    Forall (fun v =>
              exists w, threads st' !! v.1.1 = Some w /\ at_td w = v.2 /\
                        forall c, cb = Some c -> at_cb w = c) visits /\
    (r = AIO_CANCELED -> omap cancel_of evs <> []) /\
    (omap cancel_of evs = [] -> r = AIO_ALLDONE \/ r = -1) /\
    exists pre post,
      evs = pre ++ flat_map visit_events visits ++ post /\
      Forall (fun e => (forall a old, e <> EvCasRunning a old) /\
                       (forall td, e <> EvCancel td) /\
                       (forall w, e <> EvWait w)) (pre ++ post).
Proof.
  intros Henv. unfold aio_cancel. intros Hm.
  mbind Hm mis s1 H1.
  assert (s1 = st) as ->.
  { destruct cb as [c|].
    - mbind H1 r1 s Hl. apply load_cb_Some in Hl as [-> _].
      by apply mret_Some in H1 as [_ ->].
    - by apply mret_Some in H1 as [_ ->]. }
  destruct mis.
  { mbind Hm u s2 H2. apply modify_Some in H2 as ->.
    apply mret_Some in Hm as [-> ->]. exists [], [].
    rewrite app_nil_r. split; [done|]. split; [done|]. split; [done|].
    split; [done|]. split; [intros _; by right|].
    exists [], []. split; [done|]. constructor. }
  mbind Hm u2 s2 H2. apply emit_Some in H2 as ->.
  mbind Hm u3 s3 H3. apply modify_Some in H3 as ->.
  mbind Hm oq s4 H4. apply get_queue_lookup_trace in H4 as [Hth4 Ht4].
  simpl in Hth4, Ht4.
  destruct oq as [q|].
  - mbind Hm rq s5 Hl. apply load_queue_Some in Hl as [-> _].
    mbind Hm x s6 Hg. apply get_Some in Hg as [-> ->].
    mbind Hm ret s7 Hloop.
    apply cancel_loop_visits in Hloop as (vs & Ht & Hk & Hall & Hres);
      [|done].
    mbind Hm u8 s8 Hu. apply mutex_unlock_Some in Hu as (r8 & _ & ->).
    mbind Hm u9 s9 He. apply emit_Some in He as ->.
    apply mret_Some in Hm as [-> ->].
    set (pre := [EvSigBlock] ++
                (if fd <? 0 then []
                 else [EvRdLock; EvMutexLock q; EvRwUnlock])).
    set (post := [EvMutexUnlock q; EvSigRestore]).
    assert (omap cancel_of pre = [] /\ omap cancel_of post = []) as [Hpre Hpost].
    { subst pre post. by destruct (fd <? 0). }
    exists (pre ++ flat_map visit_events vs ++ post), vs. split.
    { simpl. rewrite Ht, Ht4. subst pre post.
      rewrite <- !app_assoc. reflexivity. }
    assert (omap cancel_of (pre ++ flat_map visit_events vs ++ post)
            = omap visit_cancels vs) as Hev.
    { rewrite !omap_app, Hpre, Hpost, app_nil_r. apply omap_visit_events. }
    rewrite Hev. split; [done|]. split; [done|]. split; [|split].
    + intros ->. destruct Hres as [Hr|(_ & v & Hv & Hvn)]; [done|].
      apply list_elem_of_split in Hv as (v1 & v2 & ->).
      rewrite omap_app. simpl. unfold visit_cancels at 2.
      destruct (Z.eqb_spec v.1.2 0); [done|].
      by destruct (omap visit_cancels v1).
    + intros Hnone. destruct Hres as [->|(_ & v & Hv & Hvn)]; [by left|].
      apply list_elem_of_split in Hv as (v1 & v2 & ->).
      rewrite omap_app in Hnone. simpl in Hnone.
      unfold visit_cancels at 2 in Hnone.
      destruct (Z.eqb_spec v.1.2 0); [done|].
      by destruct (omap visit_cancels v1).
    + exists pre, post. split; [done|]. subst pre post.
      destruct (fd <? 0); simpl;
        repeat (constructor; [by repeat split|]); constructor.
  - mbind Hm e s5 He. unfold get_errno in He. injection He as <- <-.
    mbind Hm u6 s6 He. apply emit_Some in He as ->.
    apply mret_Some in Hm as [-> ->].
    set (pre := [EvSigBlock] ++
                (if fd <? 0 then [] else [EvRdLock; EvRwUnlock]) ++
                [EvSigRestore]).
    exists pre, []. split.
    { simpl. rewrite Ht4. subst pre. rewrite <- !app_assoc. reflexivity. }
    split; [subst pre; by destruct (fd <? 0)|]. split; [done|]. split.
    + destruct (errno s4 =? EBADF); done.
    + split.
      * intros _. destruct (errno s4 =? EBADF); [by right|by left].
      * exists pre, []. split; [by rewrite !app_nil_r|].
        rewrite app_nil_r. subst pre.
        destruct (fd <? 0); simpl;
          repeat (constructor; [by repeat split|]); constructor.
Qed.

(** Lines 404-420 of [submit], from the queue [__aio_get_queue] returned
    to the spawn: the queue has one reference more and is unlocked, and
    nothing else in the directory has changed.  [Hs] says that the other
    threads leave the directory alone between the unlock and the spawn. *)
Ltac submit_prefix Hm Hs env r s9 Hr Hq9 Hm9 Hc9 :=
  let H1 := fresh "H" in
  let r4 := fresh "r" in let Hr4 := fresh "Hr" in
  let Hdq := fresh "Hd" in
  let Hdm := fresh "Hd" in let Hdc := fresh "Hd" in
  let s8 := fresh "s" in
  apply bind_Some in Hm as (r & ? & H1 & Hm);
  apply load_queue_Some in H1 as [-> Hr];
  apply bind_Some in Hm as (? & ? & H1 & Hm);
  apply store_queue_Some in H1 as (r4 & Hr4 & ->);
  assert (r4 = r) as -> by congruence; clear Hr4;
  apply bind_Some in Hm as (? & ? & H1 & Hm);
  apply mutex_unlock_Some in H1 as (r4 & Hr4 & ->);
  cbn [queues set_queues] in Hr4; rewrite lookup_insert_eq in Hr4;
  injection Hr4 as <-;
  apply bind_Some in Hm as (? & ? & H1 & Hm);
  apply get_Some in H1 as [-> ->];
  apply bind_Some in Hm as (? & ? & H1 & Hm);
  apply emit_Some in H1 as ->;
  apply bind_Some in Hm as (? & ? & H1 & Hm);
  apply interfere_Some in H1 as ->;
  match type of Hm with context [env S_spawn ?s0] =>
    destruct (Hs s0) as (Hq9 & Hm9 & Hc9);
    cbn [queues aio_map aio_fd_cnt set_trace after_unlock set_queues]
      in Hq9, Hm9, Hc9;
    rewrite insert_insert_eq in Hq9;
    set (s8 := env S_spawn s0) in *; clearbody s8
  end;
  apply bind_Some in Hm as (? & s9 & H1 & Hm);
  apply store_err_directory in H1 as (Hdq & Hdm & Hdc);
  rewrite Hq9 in Hdq; rewrite Hc9 in Hdc; rewrite Hm9 in Hdm;
  clear Hq9 Hm9 Hc9; rename Hdq into Hq9; rename Hdm into Hm9;
  rename Hdc into Hc9;
  lazy beta iota zeta in Hm.

(** An accepted submission takes exactly one reference, on the queue of
    the handle's descriptor, and hands it to the worker: in the state [s]
    in which the thread is created, the queue the map held has [ref + 1],
    or, if the descriptor had none, a new queue is in the map with
    [ref = 1] and is counted in [aio_fd_cnt]; the queue is unlocked, and no
    other queue and no other entry of the map has changed.  From [s] the
    submitter only creates the thread, restores the signal mask and waits
    for the semaphore, while the worker and the other threads do what they
    do.  Until the thread is created the other threads are assumed to
    leave the directory alone. *)
Theorem accepted_submit_takes_one_reference (c : addr) (op : Z)
    (spawn_ok : bool) (env : spoint -> state -> state) (cb : aiocb)
    (st st' : state) :
  keeps_directory (env S_getq) -> keeps_directory (env S_spawn) ->
  cbs st !! c = Some cb ->
  submit c op spawn_ok env st = Some (0, st') ->
  exists q r' s at0,
    spawn_ok = true /\
    (emit (EvSpawn c op q at0);; sigmask_restore;;
     interfere (env S_sem);; emit EvSemWait;; mret 0) s = Some (0, st') /\
    map_lookup (aio_map s) (aio_fildes cb) = Some q /\
    (forall fd', key fd' <> key (aio_fildes cb) ->
       map_lookup (aio_map s) fd' = map_lookup (aio_map st) fd') /\
    queues s = <[q := r']> (queues st) /\
    q_lock r' = false /\
    ((exists r0, map_lookup (aio_map st) (aio_fildes cb) = Some q /\
        queues st !! q = Some r0 /\
        r' = set_q_lock false (set_q_ref (q_ref r0 + 1) r0) /\
        aio_fd_cnt s = aio_fd_cnt st) \/
     (map_lookup (aio_map st) (aio_fildes cb) = None /\
      queues st !! q = None /\
      r' = set_q_ref 1 (new_queue (aio_fildes cb)) /\
      aio_fd_cnt s = aio_fd_cnt st + 1)).
Proof.
  intros Hgetq Hspawn Hcb. unfold submit. intros Hm.
  mbind Hm cb' s1 H1. apply load_cb_Some in H1 as [-> Hcb'].
  assert (cb' = cb) as -> by congruence. clear Hcb'.
  mbind Hm oq s2 H2.
  pose proof (get_queue_directory _ _ _ _ _ _ Hgetq H2) as Hg.
  destruct oq as [q|].
  2:{ mbind Hm e s3 H3. mbind Hm u4 s4 H4. mbind Hm u5 s5 H5.
      mbind Hm e6 s6 H6. mbind Hm u7 s7 H7.
      by apply mret_Some in Hm as [? _]. }
  destruct Hg as (Hl2 & Hoth2 & Hcase).
  submit_prefix Hm Hspawn env r s9 Hr Hq9 Hm9 Hc9.
  destruct spawn_ok.
  2:{ mbind Hm u10 s10 H10. mbind Hm u11 s11 H11. mbind Hm u12 s12 H12.
      mbind Hm u13 s13 H13. mbind Hm u14 s14 H14. mbind Hm u15 s15 H15.
      by apply mret_Some in Hm as [? _]. }
  exists q, (set_q_lock false (set_q_ref (q_ref r + 1) r)), s9.
  eexists. split; [done|]. split; [exact Hm|].
  split; [by rewrite Hm9|]. split.
  { intros fd' Hne. rewrite Hm9. by apply Hoth2. }
  split.
  { rewrite Hq9.
    destruct Hcase as [(r0 & _ & _ & -> & _)|(_ & _ & -> & _)];
      by rewrite insert_insert_eq. }
  split; [done|].
  destruct Hcase as [(r0 & Hl & Hr0 & Hq2 & Hc2)|(Hl & Hr0 & Hq2 & Hc2)];
    rewrite Hq2, lookup_insert_eq in Hr; injection Hr as <-.
  - left. exists r0. split; [done|]. split; [done|].
    split; [by destruct r0|congruence].
  - right. split; [done|]. split; [done|]. split; [done|congruence].
Qed.

(** A submission that fails leaves the directory as it found it. *)
Lemma submit_failure_directory c op spawn_ok env cb st st' :
  (forall p, keeps_directory (env p)) ->
  dir_inv st ->
  cbs st !! c = Some cb ->
  (forall q r, map_lookup (aio_map st) (aio_fildes cb) = Some q ->
     queues st !! q = Some r -> q_lock r = false) ->
  submit c op spawn_ok env st = Some (-1, st') ->
  same_directory st st'.
Proof.
  intros Henv Hinv Hcb Hlock. unfold submit. intros Hm.
  mbind Hm cb' s1 H1. apply load_cb_Some in H1 as [-> Hcb'].
  assert (cb' = cb) as -> by congruence. clear Hcb'.
  mbind Hm oq s2 H2.
  pose proof (get_queue_directory _ _ _ _ _ _ (Henv S_getq) H2) as Hg.
  destruct oq as [q|].
  2:{ mbind Hm e s3 H3. unfold get_errno in H3. injection H3 as <- <-.
      mbind Hm u4 s4 H4.
      assert (same_directory s2 s4) as H24.
      { destruct (negb (errno s2 =? EBADF)).
        - apply modify_Some in H4 as ->. by apply same_directory_fields.
        - apply mret_Some in H4 as [_ ->]. apply same_directory_refl. }
      mbind Hm u5 s5 H5. apply store_ret_directory in H5.
      mbind Hm e6 s6 H6. unfold get_errno in H6. injection H6 as <- <-.
      mbind Hm u7 s7 H7. apply store_err_directory in H7.
      apply mret_Some in Hm as [_ ->].
      apply (same_directory_trans _ _ _ Hg).
      apply (same_directory_trans _ _ _ H24).
      by apply (same_directory_trans _ _ _ H5). }
  destruct Hg as (Hl2 & Hoth2 & Hcase).
  submit_prefix Hm (Henv S_spawn) env r s9 Hr Hq9 Hm9 Hc9.
  destruct spawn_ok.
  { mbind Hm u10 s10 H10. mbind Hm u11 s11 H11. mbind Hm u12 s12 H12.
    mbind Hm u13 s13 H13. by apply mret_Some in Hm as [? _]. }
  mbind Hm u10 s10 H10. apply mutex_lock_Some in H10 as (r10 & Hr10 & ->).
  rewrite Hq9, lookup_insert_eq in Hr10. injection Hr10 as <-.
  mbind Hm u11 s11 H11.
  mbind Hm u12 s12 H12. apply modify_Some in H12 as ->.
  mbind Hm u13 s13 H13. apply store_err_directory in H13.
  mbind Hm u14 s14 H14. apply store_ret_directory in H14.
  mbind Hm u15 s15 H15. apply emit_Some in H15 as ->.
  apply mret_Some in Hm as [_ ->].
  assert (same_directory st s11) as Hmain.
  2:{ apply (same_directory_trans _ s11); [done|].
      apply (same_directory_trans _ (set_errno EAGAIN s11));
        [by apply same_directory_fields|].
      apply (same_directory_trans _ _ _ H13).
      apply (same_directory_trans _ _ _ H14).
      by apply same_directory_fields. }
  clear H13 H14 s13 s14.
  set (r9 := set_q_lock false (set_q_ref (q_ref r + 1) r)) in *.
  assert (queues (after_lock q r9 s9) !! q = Some (set_q_lock true r9))
    as Hlk by (cbn [queues after_lock set_trace set_queues];
               apply lookup_insert_eq).
  destruct Hcase as [(r0 & Hl & Hr0 & Hq2 & Hc2)|(Hl & Hr0 & Hq2 & Hc2)];
    rewrite Hq2, lookup_insert_eq in Hr; injection Hr as <-.
  - pose proof (Hlock q r0 Hl Hr0) as Hfree.
    assert (0 < q_ref r0) as Hpos.
    { apply (proj2 Hinv q r0 Hr0 Hfree). by exists (aio_fildes cb). }
    rewrite (unref_fast q _ (env S_unref) _ Hlk) in H11
      by (cbn [q_ref set_q_lock set_q_ref r9]; lia).
    injection H11 as H11. subst s11.
    apply same_directory_lookups;
      cbn [queues aio_map aio_fd_cnt after_unlock after_lock set_trace
           set_queues].
    + rewrite Hq9, Hq2, !insert_insert_eq. apply insert_id.
      rewrite Hr0. f_equal. subst r9.
      destruct r0; unfold set_q_lock, set_q_ref; simpl in *. subst.
      f_equal. lia.
    + congruence.
    + intros fd'. rewrite Hm9.
      destruct (decide (key fd' = key (aio_fildes cb))) as [Ek|Nk].
      * by rewrite !(map_lookup_key _ _ _ Ek), Hl2, Hl.
      * by apply Hoth2.
  - rewrite (unref_slow_enter q _ (env S_unref) _ Hlk) in H11
      by (cbn [q_ref set_q_lock set_q_ref r9 new_queue]; lia).
    match type of H11 with
    | unref_relocked q (env S_unref ?s0) = _ =>
        destruct (Henv S_unref s0) as (Eq & Em & Ec);
        cbn [queues aio_map aio_fd_cnt after_unlock after_lock set_trace
             set_queues] in Eq, Em, Ec;
        set (s8 := env S_unref s0) in *; clearbody s8
    end.
    rewrite insert_insert_eq in Eq.
    destruct (unref_slow_last q s8 (set_q_lock false (set_q_lock true r9)) q)
      as (s11' & Hrun & Hq11 & Hk1 & Hk2 & Hc11 & _).
    { rewrite Eq. apply lookup_insert_eq. }
    { reflexivity. }
    { cbn [q_fd set_q_lock set_q_ref r9 new_queue]. by rewrite Em, Hm9. }
    rewrite Hrun in H11. injection H11 as H11. subst s11.
    cbn [q_fd set_q_lock set_q_ref r9 new_queue] in Hk1, Hk2.
    apply same_directory_lookups.
    + rewrite Hq11, Eq, Hq9, Hq2, !insert_insert_eq.
      by apply delete_insert_id.
    + rewrite Hc11, Ec, Hc9, Hc2. lia.
    + intros fd'.
      destruct (decide (key fd' = key (aio_fildes cb))) as [Ek|Nk].
      * by rewrite (Hk1 fd' Ek), (map_lookup_key _ _ _ Ek), Hl.
      * rewrite (Hk2 fd' Nk), Em, Hm9. by apply Hoth2.
Qed.

(** A submission that fails leaks nothing, whatever made it fail (a bad
    descriptor, no memory, no thread): the queues with their reference
    counts, what every descriptor finds in the map, and [aio_fd_cnt] are as
    before the call, and the invariant of the map holds.  In particular a
    queue that was created for the request is freed again when the thread
    cannot be created.  The lock of the descriptor's queue is assumed free
    when the submitter takes it, and the other threads to leave the
    directory alone meanwhile. *)
Theorem failed_submit_restores_directory (c : addr) (op : Z)
    (spawn_ok : bool) (env : spoint -> state -> state) (cb : aiocb)
    (st st' : state) :
  (forall p, keeps_directory (env p)) ->
  dir_inv st ->
  cbs st !! c = Some cb ->
  (forall q r, map_lookup (aio_map st) (aio_fildes cb) = Some q ->
     queues st !! q = Some r -> q_lock r = false) ->
  submit c op spawn_ok env st = Some (-1, st') ->
  same_directory st st' /\ dir_inv st'.
Proof.
  intros Henv Hinv Hcb Hlock Hm.
  pose proof (submit_failure_directory c op spawn_ok env cb st st'
                Henv Hinv Hcb Hlock Hm) as Hsame.
  split; [exact Hsame|].
  destruct Hsame as (Hq & Hl & _). by apply (dir_inv_same st).
Qed.

(** [__aio_get_queue] does not touch the handles. *)
Lemma cbs_alloc v :
  preserves cbs (ok ← calloc;
                 if ok : bool then modify (set_aio_map v);; mret true
                 else mret false).
Proof.
  apply preserves_bind.
  - intros st b st'. unfold calloc. destruct (mem st); by intros [= _ <-].
  - intros [|]; keeps.
Qed.

Lemma cbs_create_queue fd : preserves cbs (create_queue fd).
Proof.
  assert (preserves cbs ensure_map) as H1.
  { intros st b st'. unfold ensure_map.
    destruct (aio_map st); [by intros [= _ <-]|]. apply cbs_alloc. }
  assert (preserves cbs (ensure_a fd)) as H2.
  { intros st b st'. unfold ensure_a.
    destruct (aio_map st) as [t|]; [|done].
    destruct (t !! idx_a fd); [by intros [= _ <-]|]. apply cbs_alloc. }
  assert (preserves cbs (ensure_b fd)) as H3.
  { intros st b st'. unfold ensure_b.
    destruct (aio_map st) as [t|]; [|done].
    destruct (t !! idx_a fd) as [ta|]; [|done].
    destruct (ta !! idx_b fd); [by intros [= _ <-]|]. apply cbs_alloc. }
  assert (preserves cbs (ensure_c fd)) as H4.
  { intros st b st'. unfold ensure_c.
    destruct (aio_map st) as [t|]; [|done].
    destruct (t !! idx_a fd) as [ta|]; [|done].
    destruct (ta !! idx_b fd) as [tb|]; [|done].
    destruct (tb !! idx_c fd); [by intros [= _ <-]|]. apply cbs_alloc. }
  assert (preserves cbs (ensure_queue fd)) as H5.
  { intros st b st'. unfold ensure_queue.
    destruct (map_lookup (aio_map st) fd); [by intros [= _ <-]|].
    apply preserves_bind.
    - intros s b0 s'. unfold calloc. destruct (mem s); by intros [= _ <-].
    - intros [|]; keeps. }
  unfold create_queue.
  apply preserves_bind; [exact H1|]. intros [|]; simpl; [|keeps].
  apply preserves_bind; [exact H2|]. intros [|]; simpl; [|keeps].
  apply preserves_bind; [exact H3|]. intros [|]; simpl; [|keeps].
  apply preserves_bind; [exact H4|]. intros [|]; simpl; [|keeps].
  exact H5.
Qed.

Lemma cbs_get_queue fd need env :
  (forall s, cbs (env s) = cbs s) ->
  preserves cbs (__aio_get_queue fd need env).
Proof.
  intros Henv. unfold __aio_get_queue.
  destruct (fd <? 0); [unfold put_errno; keeps|].
  apply preserves_bind; [unfold pthread_rwlock_rdlock; keeps; apply cbs_emit|].
  intros _. apply preserves_bind; [keeps|]. intros s.
  destruct (map_lookup (aio_map s) fd).
  { apply preserves_bind; [apply cbs_mutex_lock|]. intros _.
    apply preserves_bind; [apply cbs_rwlock_unlock|]. intros _. keeps. }
  destruct need.
  2:{ apply preserves_bind; [apply cbs_rwlock_unlock|]. intros _. keeps. }
  apply preserves_bind; [apply cbs_rwlock_unlock|]. intros _.
  apply preserves_bind.
  { intros s0 b s'. unfold fcntl_getfd.
    destruct (fdtab s0 !! fd); by intros [= _ <-]. }
  intros [|]; simpl; [|keeps].
  apply preserves_bind; [by apply preserves_modify|]. intros _.
  apply preserves_bind; [apply cbs_emit|]. intros _.
  apply preserves_bind; [apply cbs_rwlock_wrlock|]. intros _.
  apply preserves_bind.
  { intros s0 b s'. unfold init_stack_size.
    destruct (io_thread_stack_size s0 =? 0); by intros [= _ <-]. }
  intros _.
  apply preserves_bind; [apply cbs_create_queue|]. intros [q|].
  - apply preserves_bind; [apply cbs_mutex_lock|]. intros _.
    apply preserves_bind; [apply cbs_rwlock_unlock|]. intros _.
    apply preserves_bind; [apply cbs_emit|]. intros _. keeps.
  - apply preserves_bind; [apply cbs_rwlock_unlock|]. intros _.
    apply preserves_bind; [apply cbs_emit|]. intros _. keeps.
Qed.

(** C6.  When [__aio_get_queue] returns no queue, [submit] returns [-1]
    and stores [-1] in the handle's [__ret] and, in its [__err], [EBADF] if
    the lookup left [errno] at [EBADF] and [EAGAIN] in every other case;
    [errno] holds the same value.  When the queue was obtained and
    [pthread_create] fails, [submit] takes the queue lock again, calls
    [__aio_unref_queue] on the queue, sets [errno] and the handle's
    [__err] to [EAGAIN] and its [__ret] to [-1], and returns [-1].  The
    call of [__aio_unref_queue] gives back the reference that line 404
    took: when the other threads leave the directory and the handle alone,
    the call is defined, and after it the queues with their reference
    counts, the entries of the map and [aio_fd_cnt] are what they were
    before [submit] was called; a queue that was created for this request
    is gone again. *)
Theorem submit_failure_stamps_handle (c : addr) (cb : aiocb) (op : Z)
    (env : spoint -> state -> state) (st st1 : state) :
  cbs st !! c = Some cb ->
  (forall spawn_ok cb1,
     __aio_get_queue (aio_fildes cb) true (env S_getq) st = Some (None, st1) ->
     cbs st1 !! c = Some cb1 ->
     exists st',
       submit c op spawn_ok env st = Some (-1, st') /\
       errno st' = (if errno st1 =? EBADF then EBADF else EAGAIN) /\
       cbs st' !! c
       = Some (set___err (if errno st1 =? EBADF then EBADF else EAGAIN)
                 (set___ret (-1) cb1)) /\
       trace st'
       = trace st1
           ++ [EvStoreRet c (-1);
               EvStoreErr c (if errno st1 =? EBADF then EBADF else EAGAIN)]) /\
  (forall q r cb2 r3 st4 cb4,
     __aio_get_queue (aio_fildes cb) true (env S_getq) st
       = Some (Some q, st1) ->
     queues st1 !! q = Some r ->
     cbs (env S_spawn (referenced q r st1)) !! c = Some cb2 ->
     queues (env S_spawn (referenced q r st1)) !! q = Some r3 ->
     __aio_unref_queue q (env S_unref)
       (after_lock q r3
          (stamped_err c EINPROGRESS cb2 (env S_spawn (referenced q r st1))))
       = Some (tt, st4) ->
     cbs st4 !! c = Some cb4 ->
     exists st',
       submit c op false env st = Some (-1, st') /\
       errno st' = EAGAIN /\
       cbs st' !! c = Some (set___ret (-1) (set___err EAGAIN cb4)) /\
       trace st'
       = trace st4 ++ [EvStoreErr c EAGAIN; EvStoreRet c (-1); EvSigRestore]) /\
  (forall q,
     (forall p, keeps_directory (env p)) ->
     (forall p s, cbs (env p s) = cbs s) ->
     dir_inv st ->
     (forall q0 r0, map_lookup (aio_map st) (aio_fildes cb) = Some q0 ->
        queues st !! q0 = Some r0 -> q_lock r0 = false) ->
     __aio_get_queue (aio_fildes cb) true (env S_getq) st
       = Some (Some q, st1) ->
     exists st',
       submit c op false env st = Some (-1, st') /\
       errno st' = EAGAIN /\
       cbs st' !! c = Some (set___ret (-1) (set___err EAGAIN cb)) /\
       same_directory st st' /\ dir_inv st').
Proof.
  intros Hc.
  match goal with
  | |- _ /\ ?P2 /\ _ => assert P2 as HP2; [|split; [|split; [exact HP2|]]]
  end.
  { intros q r cb2 r3 st4 cb4 Hget Hr Hc2 Hr3 Hun Hc4. unfold submit.
    rewrite (bind_run _ _ _ _ _ (load_cb_run _ _ _ Hc)).
    rewrite (bind_run _ _ _ _ _ Hget).
    rewrite (bind_run _ _ _ _ _ (load_queue_run _ _ _ Hr)).
    rewrite (bind_run _ _ _ _ _ (store_queue_run _ _ _ _ Hr)).
    assert (queues (set_queues (<[q := set_q_ref (q_ref r + 1) r]> (queues st1))
                      st1) !! q = Some (set_q_ref (q_ref r + 1) r)) as HqA
      by apply lookup_insert_eq.
    rewrite (bind_run _ _ _ _ _ (mutex_unlock_run _ _ _ HqA)).
    unfold sigmask_block_all, sigmask_restore. munfold. simpl.
    unfold after_unlock. simpl. rewrite insert_insert_eq, <- app_assoc. simpl.
    change (set_trace _ _) with (referenced q r st1) at 1.
    fold (referenced q r st1).
    rewrite (store_err_run _ _ _ _ Hc2).
    erewrite mutex_lock_run by exact Hr3.
    rewrite Hun. simpl.
    erewrite store_err_run by exact Hc4. simpl.
    erewrite store_ret_run by (simpl; apply lookup_insert_eq). simpl.
    eexists. split; [reflexivity|]. simpl.
    rewrite insert_insert_eq, lookup_insert_eq, <- !app_assoc. done. }
  { intros ok cb1 Hget Hc1. unfold submit.
    rewrite (bind_run _ _ _ _ _ (load_cb_run _ _ _ Hc)).
    rewrite (bind_run _ _ _ _ _ Hget).
    munfold. simpl.
    destruct (errno st1 =? EBADF) eqn:He; simpl.
    + erewrite store_ret_run by exact Hc1. simpl.
      erewrite store_err_run by (simpl; apply lookup_insert_eq). simpl.
      eexists. split; [reflexivity|]. simpl.
      apply Z.eqb_eq in He. rewrite He.
      rewrite insert_insert_eq, lookup_insert_eq, <- app_assoc. done.
    + erewrite store_ret_run by exact Hc1. simpl.
      erewrite store_err_run by (simpl; apply lookup_insert_eq). simpl.
      eexists. split; [reflexivity|]. simpl.
      rewrite insert_insert_eq, lookup_insert_eq, <- app_assoc. done. }
  intros q Henv Hcbs Hinv Hlock Hget.
  destruct (get_queue_directory _ _ _ _ _ _ (Henv S_getq) Hget)
    as (Hl2 & Hoth2 & Hcase).
  pose proof (cbs_get_queue _ _ _ (Hcbs S_getq) _ _ _ Hget) as Hc1.
  assert (exists rq, queues st1 = <[q := set_q_lock true rq]> (queues st) /\
            ((queues st !! q = Some rq /\ 0 < q_ref rq) \/
             (queues st !! q = None /\ rq = new_queue (aio_fildes cb))))
    as (rq & Hq1 & Hrq).
  { destruct Hcase as [(r0 & Hl & Hr0 & Hq & _)|(Hl & Hr0 & Hq & _)].
    - exists r0. split; [done|]. left. split; [done|].
      apply (proj2 Hinv q r0 Hr0 (Hlock q r0 Hl Hr0)).
      by exists (aio_fildes cb).
    - eexists. split; [exact Hq|]. by right. }
  set (r := set_q_lock true rq).
  assert (queues st1 !! q = Some r) as Hr
    by (rewrite Hq1; apply lookup_insert_eq).
  set (r3 := set_q_lock false (set_q_ref (q_ref r + 1) r)).
  destruct (Henv S_spawn (referenced q r st1)) as (Eq & Em & Ec).
  set (s5 := env S_spawn (referenced q r st1)) in *.
  assert (cbs s5 !! c = Some cb) as Hc5.
  { subst s5. rewrite Hcbs. unfold referenced.
    cbn [cbs set_trace set_queues]. by rewrite Hc1. }
  assert (queues s5 !! q = Some r3) as Hr5.
  { rewrite Eq. unfold referenced. cbn [queues set_trace set_queues].
    apply lookup_insert_eq. }
  set (X := after_lock q r3 (stamped_err c EINPROGRESS cb s5)).
  assert (queues X !! q = Some (set_q_lock true r3)) as HqX.
  { subst X. unfold after_lock, stamped_err.
    cbn [queues set_trace set_queues set_cbs]. apply lookup_insert_eq. }
  assert (exists st4, __aio_unref_queue q (env S_unref) X = Some (tt, st4))
    as [st4 Hun].
  { destruct Hrq as [[Hr0 Hpos]|[Hr0 ->]].
    - eexists. apply (unref_fast q _ _ _ HqX).
      subst r3 r. cbn [q_ref set_q_lock set_q_ref]. lia.
    - rewrite (unref_slow_enter q _ (env S_unref) _ HqX)
        by (subst r3 r; cbn [q_ref set_q_lock set_q_ref new_queue]; lia).
      match goal with
      | |- exists _, unref_relocked q (env S_unref ?s0) = _ =>
          destruct (Henv S_unref s0) as (Eq8 & Em8 & Ec8);
          set (s8 := env S_unref s0) in *
      end.
      destruct (unref_slow_last q s8
                  (set_q_lock false (set_q_lock true r3)) q)
        as (s9 & Hrun & _).
      + rewrite Eq8. unfold after_unlock.
        cbn [queues set_trace set_queues]. apply lookup_insert_eq.
      + reflexivity.
      + rewrite Em8. subst X r3 r. unfold after_unlock, after_lock, stamped_err.
        cbn [aio_map set_trace set_queues set_cbs q_fd set_q_lock set_q_ref
             new_queue].
        rewrite Em. unfold referenced. cbn [aio_map set_trace set_queues].
        exact Hl2.
      + by exists s9. }
  assert (cbs st4 !! c = Some (set___err EINPROGRESS cb)) as Hc4.
  { rewrite (cbs_unref_queue q (env S_unref) (Hcbs S_unref) _ _ _ Hun).
    subst X. unfold after_lock, stamped_err.
    cbn [cbs set_trace set_queues set_cbs]. apply lookup_insert_eq. }
  destruct (HP2 q r cb r3 st4 (set___err EINPROGRESS cb)
              Hget Hr Hc5 Hr5 Hun Hc4) as (st' & Hrun & He & Hcb' & _).
  exists st'. split; [exact Hrun|]. split; [exact He|]. split.
  { rewrite Hcb'. reflexivity. }
  pose proof (submit_failure_directory c op false env cb st st'
                Henv Hinv Hc Hlock Hrun) as Hs.
  split; [exact Hs|].
  destruct Hs as (Hq & Hl & _). by apply (dir_inv_same st).
Qed.

(** ** A worker that runs while the other threads are idle *)


























End Proofs.

(** * The statements on the concrete process *)

#[local] Existing Instance linux.

Lemma demo_c0_reachable : reachable demo_c0.
Proof.
  apply reachable_init. split; [reflexivity|]. split; [reflexivity|].
  intros q r Hq.
  change (queues (shared demo_c0))
    with ({[ 1%positive := demo_queue 1 false ]} : gmap addr aio_queue) in Hq.
  apply lookup_singleton_Some in Hq as [_ <-]. reflexivity.
Qed.

Lemma demo_c2_reachable : reachable demo_c2.
Proof.
  apply (exec_reachable demo_write_sync demo_c0 demo_c2 demo_c0_reachable).
  vm_compute. reflexivity.
Qed.

(** Two syncs on one queue are both past the sequencing wait and in their
    I/O call at the same time: nothing on the list is a write, so neither
    waits for the other. *)
Lemma two_syncs_execute_together :
  exists c, demo_two_syncs = Some c /\ reachable c /\
    pcs c !! 10%positive = Some W_io /\ pcs c !! 11%positive = Some W_io /\
    (exists w, threads (shared c) !! 10%positive = Some w /\
               at_q w = 1%positive /\ at_op w = O_SYNC) /\
    (exists w, threads (shared c) !! 11%positive = Some w /\
               at_q w = 1%positive /\ at_op w = O_SYNC).
Proof.
  destruct demo_two_syncs as [c|] eqn:E; [|vm_compute in E; discriminate E].
  exists c. split; [reflexivity|]. split.
  { exact (exec_reachable _ _ _ demo_c0_reachable E). }
  vm_compute in E. injection E as <-.
  split; [vm_compute; reflexivity|]. split; [vm_compute; reflexivity|].
  split; eexists; (split; [vm_compute; reflexivity|]); split; reflexivity.
Qed.

(** C1 on the process in which a write is executing and a sync waits behind
    it. *)
Lemma sequenced_workers_follow_writes_demo :
  reachable demo_c2 /\
  pcs demo_c2 !! 10%positive = Some W_io /\
  pcs demo_c2 !! 11%positive = Some W_wait /\
  forall a b wa wb r,
    pcs demo_c2 !! a = Some W_io -> pcs demo_c2 !! b = Some W_io ->
    threads (shared demo_c2) !! a = Some wa ->
    threads (shared demo_c2) !! b = Some wb ->
    at_q wa = at_q wb -> queues (shared demo_c2) !! at_q wa = Some r ->
    at_op wa = LIO_WRITE -> at_op wb = LIO_WRITE -> q_append r <> 0 ->
    a = b.
Proof.
  split; [exact demo_c2_reachable|].
  split; [vm_compute; reflexivity|]. split; [vm_compute; reflexivity|].
  exact (proj2 (proj2
           (sequenced_workers_follow_writes demo_c2 demo_c2_reachable))).
Defined.

Lemma demo_dir_inv lock :
  dir_inv (set_queues {[ 1%positive := demo_queue 1 lock ]} demo_st).
Proof.
  split.
  - intros fd q Hm. exists (demo_queue 1 lock).
    unfold map_lookup in Hm.
    change (aio_map (set_queues {[ 1%positive := demo_queue 1 lock ]} demo_st))
      with (Some ({[ 0 := {[ 0 := {[ 0 := {[ 3 := 1%positive ]} ]} ]} ]}
                    : gmap Z (gmap Z (gmap Z (gmap Z addr))))) in Hm.
    lazy beta iota in Hm.
    match type of Hm with context [?m !! idx_a fd] =>
      destruct (m !! idx_a fd) as [ta|] eqn:Ea; [|discriminate Hm] end.
    apply lookup_singleton_Some in Ea as [Ea <-].
    match type of Hm with context [?m !! idx_b fd] =>
      destruct (m !! idx_b fd) as [tb|] eqn:Eb; [|discriminate Hm] end.
    apply lookup_singleton_Some in Eb as [Eb <-].
    match type of Hm with context [?m !! idx_c fd] =>
      destruct (m !! idx_c fd) as [tc|] eqn:Ec; [|discriminate Hm] end.
    apply lookup_singleton_Some in Ec as [Ec <-].
    apply lookup_singleton_Some in Hm as [Ed <-].
    split; [apply lookup_singleton_eq|].
    unfold key. rewrite <- Ea, <- Eb, <- Ec, <- Ed. reflexivity.
  - intros q r Hq Hl.
    change (queues (set_queues {[ 1%positive := demo_queue 1 lock ]} demo_st))
      with ({[ 1%positive := demo_queue 1 lock ]} : gmap addr aio_queue) in Hq.
    apply lookup_singleton_Some in Hq as [<- <-].
    split; [intros _; reflexivity|]. intros _. exists 3. reflexivity.
Qed.


(** Descriptor 5 is not open, yet [aio_cancel] does not fail with [EBADF]
    on it: no queue is needed, so the descriptor is never probed, and the
    result is [AIO_ALLDONE] with [errno] left at [ENOENT]. *)
Lemma aio_cancel_closed_fd_is_alldone :
  fdtab demo_st !! 5 = None /\
  exists st', aio_cancel 5 None demo_finish_env demo_st = Some (2, st') /\
              errno st' = ENOENT /\ errno st' <> EBADF.
Proof.
  split; [reflexivity|]. eexists. split; [vm_compute; reflexivity|].
  split; [reflexivity|discriminate].
Qed.

(** C7 on a handle for descriptor 3 passed with descriptor 5, and on the
    operation 7, which is neither [O_SYNC] nor [O_DSYNC]. *)
Lemma invalid_argument_keeps_handle_demo :
  aio_cancel 5 (Some 1%positive) demo_finish_env demo_st
    = Some (-1, set_errno EINVAL demo_st) /\
  aio_fsync 7 1%positive true demo_idle demo_st
    = Some (-1, set_errno EINVAL demo_st).
Proof.
  destruct invalid_argument_keeps_handle as [Hcancel Hfsync]. split.
  - apply (Hcancel 5 1%positive (demo_cb 3 115)); [reflexivity|discriminate].
  - apply (Hfsync 7 1%positive true); discriminate.
Defined.

(** C8 on a handle whose [__err] holds [EINPROGRESS] with the waiter bit
    set. *)
Lemma aio_error_low_bits_aio_return_verbatim_demo :
  aio_error 3%positive demo_st
    = Some (EINPROGRESS, set_trace (trace demo_st ++ [EvBarrier]) demo_st) /\
  aio_return 3%positive demo_st = Some (0, demo_st).
Proof.
  destruct (aio_error_low_bits_aio_return_verbatim 3%positive
              (demo_cb 7 2147483763) demo_st eq_refl)
    as (Herr & _ & _ & _ & Hret).
  split; [exact Herr|exact Hret].
Defined.

(** C9 on the sync that waits behind a write when a second write
    arrives. *)
Lemma later_worker_is_not_scanned_demo :
  (12%positive ∉ [10%positive]) /\
  scan_from 11%positive (shared demo_c2)
    = Some (Some 10%positive, shared demo_c2) /\
  scan_from 11%positive (shared demo_c3)
    = Some (Some 10%positive, shared demo_c3) /\
  is_write (threads (shared demo_c3)) 12%positive = true.
Proof.
  destruct (later_worker_is_not_scanned demo_c2 demo_c3 1%positive
              {| q_fd := 3; q_seekable := 1; q_append := 1; q_ref := 1;
                 q_init := 1; q_lock := false; q_head := Some 11%positive |}
              [] [10%positive] 11%positive 12%positive 102
              (demo_args 2 LIO_WRITE) demo_c2_reachable)
    as (Hnot & Hbefore & Hafter & _ & Hw).
  - vm_compute. reflexivity.
  - split; [reflexivity|]. eexists. split; [vm_compute; reflexivity|].
    split; [reflexivity|]. split; [reflexivity|].
    eexists. split; [vm_compute; reflexivity|].
    split; [reflexivity|]. reflexivity.
  - vm_compute. reflexivity.
  - split; [exact Hnot|]. split; [exact Hbefore|]. split; [exact Hafter|].
    exact Hw.
Defined.

(** C10 on the queue with a write and a sync: both are cancelled. *)
Lemma aio_cancel_never_notcanceled_demo :
  exists st',
    aio_cancel 3 None demo_finish_env (shared demo_c2)
      = Some (AIO_CANCELED, st') /\
    AIO_CANCELED <> AIO_NOTCANCELED.
Proof.
  destruct (aio_cancel 3 None demo_finish_env (shared demo_c2))
    as [[r st']|] eqn:E; [|vm_compute in E; discriminate E].
  destruct (aio_cancel_never_notcanceled 3 None demo_finish_env
              (shared demo_c2) st' r E) as (_ & Hne & Hone).
  assert (r = AIO_CANCELED) as ->.
  { vm_compute in E. by injection E as <- _. }
  exists st'. split; [reflexivity|]. by rewrite Hone.
Defined.

(** ** Further statements on the concrete process *)

Lemma demo_st_dir_inv : dir_inv demo_st.
Proof. exact (demo_dir_inv false). Qed.


Lemma distinct_descriptors_distinct_slots_demo :
  key 3 <> key 8 /\
  forall v st st',
    map_store 3 v st = Some (tt, st') ->
    map_lookup (aio_map st') 3 = v /\
    map_lookup (aio_map st') 8 = map_lookup (aio_map st) 8.
Proof.
  destruct (distinct_descriptors_distinct_slots 3 8) as (Hk & _ & Hs);
    [lia|lia|lia|].
  split; [exact Hk|exact Hs].
Defined.

Lemma get_queue_failure_errno_demo :
  exists st',
    __aio_get_queue 8 true (fun s => s) demo_no_mem = Some (None, st') /\
    errno st' = ENOMEM /\ maplock st' = RwFree.
Proof.
  destruct (__aio_get_queue 8 true (fun s => s) demo_no_mem)
    as [[[q|] st']|] eqn:E;
    [vm_compute in E; discriminate E| |vm_compute in E; discriminate E].
  exists st'. split; [reflexivity|].
  destruct (get_queue_failure_errno 8 true (fun s => s) demo_no_mem st' E)
    as [[Hneg _]|(_ & Hlock & _ & [[Hn _]|[(_ & Hfd & _)|(_ & _ & He & _)]])].
  - lia.
  - discriminate Hn.
  - vm_compute in Hfd. discriminate Hfd.
  - split; [exact He|exact Hlock].
Defined.

Lemma get_queue_lookup_only_demo :
  exists st',
    __aio_get_queue 3 false (fun s => s) demo_st
      = Some (Some 1%positive, st') /\
    mem st' = mem demo_st /\ aio_map st' = aio_map demo_st /\
    aio_fd_cnt st' = aio_fd_cnt demo_st.
Proof.
  destruct (__aio_get_queue 3 false (fun s => s) demo_st)
    as [[r st']|] eqn:E; [|vm_compute in E; discriminate E].
  destruct (get_queue_lookup_only 3 (fun s => s) r demo_st st' E)
    as (Hr & Hmem & Hmap & Hcnt & _).
  exists st'. rewrite Hr. split; [reflexivity|]. by repeat split.
Defined.

Lemma get_queue_registers_demo :
  exists q st',
    __aio_get_queue 8 true (fun s => s) demo_st = Some (Some q, st') /\
    dir_inv st' /\ map_lookup (aio_map st') 8 = Some q.
Proof.
  destruct (__aio_get_queue 8 true (fun s => s) demo_st)
    as [[[q|] st']|] eqn:E;
    [|vm_compute in E; discriminate E|vm_compute in E; discriminate E].
  destruct (get_queue_registers 8 true (fun s => s) q demo_st st'
              demo_st_dir_inv (fun s Hs => Hs) E)
    as (_ & Hinv & _ & Hl & _).
  by exists q, st'.
Defined.

Lemma aio_close_returns_fd_demo :
  exists st',
    __aio_close 5 demo_finish_env demo_st = Some (5, st') /\
    errno st' = ENOENT.
Proof.
  destruct (__aio_close 5 demo_finish_env demo_st) as [[r st']|] eqn:E;
    [|vm_compute in E; discriminate E].
  destruct (aio_close_returns_fd 5 demo_finish_env r demo_st st' E)
    as (-> & _ & Hq).
  exists st'. split; [reflexivity|].
  destruct Hq as (He & _); [discriminate|lia|reflexivity|exact He].
Defined.

Lemma classification_selects_call_demo :
  exists r' st',
    classify 3 1%positive demo_st = Some (tt, st') /\
    queues st' !! 1%positive = Some r' /\
    io_call_of LIO_WRITE r' = Some Sys_write /\
    io_call_of LIO_READ r' = Some Sys_pread.
Proof.
  destruct (classification_selects_call 3 1%positive (demo_queue 1 false)
              (mk_fdesc true 1024) demo_st eq_refl eq_refl)
    as (r' & st' & Hrun & Hq & _ & _ & _ & _ & _ & Hcall).
  destruct (Hcall eq_refl) as (Hw & Hr & _).
  exists r', st'. split; [exact Hrun|].
  split; [by rewrite Hq, lookup_insert_eq|]. split; [exact Hw|exact Hr].
Defined.


Lemma sequencing_scan_is_safe_demo :
  exists p,
    scan_from 11%positive (shared demo_c2) = Some (p, shared demo_c2) /\
    forall b, p = Some b ->
      b <> 11%positive /\ is_write (threads (shared demo_c2)) b = true.
Proof.
  destruct (sequencing_scan_is_safe demo_c2 11%positive
              {| at_td := 101; at_cb := 2; at_next := Some 10%positive;
                 at_prev := None; at_q := 1; at_running := 1;
                 at_err := 125; at_op := 1052672; at_ret := -1 |}
              W_wait demo_c2_reachable)
    as (p & Hrun & Hp);
    [vm_compute; reflexivity|vm_compute; reflexivity|reflexivity|].
  exists p. split; [exact Hrun|]. intros b Hb.
  destruct (Hp b Hb) as (Hne & Hw & _). by split.
Defined.


Lemma finished_request_reports_result_demo :
  exists st',
    io_thread_func 10%positive 100 (demo_args 1 LIO_WRITE) 0
      (Completed 16 0) (fun _ s => s) demo_st = Some (true, st') /\
    aio_return 1%positive st' = Some (16, st') /\
    aio_error 1%positive st'
    = Some (0, set_trace (trace st' ++ [EvBarrier]) st').
Proof.
  destruct (io_thread_func 10%positive 100 (demo_args 1 LIO_WRITE) 0
              (Completed 16 0) (fun _ s => s) demo_st)
    as [[b st']|] eqn:E; [|vm_compute in E; discriminate E].
  assert (b = true) as ->.
  { vm_compute in E. by injection E as <- _. }
  exists st'. split; [reflexivity|].
  apply (finished_request_reports_result 10%positive 100
           (demo_args 1 LIO_WRITE) 0 (Completed 16 0) (fun _ s => s)
           demo_st st'); [| |simpl; lia|exact E].
  - intros _. split; [reflexivity|]. intros s w1 Hw1.
    exists w1. split; [exact Hw1|]. by repeat split.
  - reflexivity.
Defined.


Lemma demo_finish_env_keeps k : keeps_workers (demo_finish_env k).
Proof.
  split; [reflexivity|]. intros s a w Hw. unfold demo_finish_env.
  cbn [threads set_threads]. rewrite lookup_fmap, Hw.
  eexists. split; [reflexivity|]. by split.
Qed.

Lemma accepted_request_is_in_progress_demo :
  exists st',
    submit 1%positive LIO_WRITE true demo_idle demo_st = Some (0, st') /\
    aio_error 1%positive st'
    = Some (EINPROGRESS, set_trace (trace st' ++ [EvBarrier]) st').
Proof.
  destruct (submit 1%positive LIO_WRITE true demo_idle demo_st)
    as [[r st']|] eqn:E; [|vm_compute in E; discriminate E].
  assert (r = 0) as ->.
  { vm_compute in E. by injection E as <- _. }
  destruct (accepted_request_is_in_progress 1%positive LIO_WRITE true
              demo_idle demo_st st' (fun _ => eq_refl))
    as (_ & _ & Herr); [simpl; lia|exact E|].
  by exists st'.
Defined.

Lemma queue_list_is_exact_demo :
  exists l,
    dll (threads (shared demo_c2)) None (Some 11%positive) l /\ NoDup l /\
    forall a, a ∈ l <->
      exists w pc, threads (shared demo_c2) !! a = Some w /\
                   at_q w = 1%positive /\
                   pcs demo_c2 !! a = Some pc /\ linked pc = true.
Proof.
  destruct (queue_list_is_exact demo_c2 1%positive
              {| q_fd := 3; q_seekable := 1; q_append := 1; q_ref := 1;
                 q_init := 1; q_lock := false; q_head := Some 11%positive |}
              demo_c2_reachable)
    as (l & Hdll & _ & Hnd & Hmem & _); [vm_compute; reflexivity|].
  by exists l.
Defined.

Lemma registration_is_at_head_demo :
  exists r',
    queues (shared demo_c3) !! 1%positive = Some r' /\
    dll (threads (shared demo_c3)) None (q_head r')
      [12%positive; 11%positive; 10%positive] /\
    pcs demo_c3 !! 12%positive = Some W_wait.
Proof.
  destruct (registration_is_at_head demo_c2 demo_c3 12%positive 102
              (demo_args 2 LIO_WRITE)
              {| q_fd := 3; q_seekable := 1; q_append := 1; q_ref := 1;
                 q_init := 1; q_lock := false; q_head := Some 11%positive |}
              [11%positive; 10%positive] demo_c2_reachable)
    as (r' & w & Hr & Hd & _).
  - vm_compute. reflexivity.
  - split; [reflexivity|]. eexists. split; [vm_compute; reflexivity|].
    split; [reflexivity|]. split; [reflexivity|].
    eexists. split; [vm_compute; reflexivity|].
    split; [reflexivity|]. reflexivity.
  - vm_compute. reflexivity.
  - exists r'. split; [exact Hr|]. split; [exact Hd|].
    vm_compute. reflexivity.
Defined.

Lemma failed_submit_restores_directory_demo :
  exists st',
    submit 5%positive LIO_WRITE false demo_idle demo_st = Some (-1, st') /\
    same_directory demo_st st'.
Proof.
  destruct (submit 5%positive LIO_WRITE false demo_idle demo_st)
    as [[r st']|] eqn:E; [|vm_compute in E; discriminate E].
  assert (r = -1) as ->.
  { vm_compute in E. by injection E as <- _. }
  destruct (failed_submit_restores_directory 5%positive LIO_WRITE false
              demo_idle (demo_cb 8 115) demo_st st') as [Hs _].
  - by intros p s.
  - exact demo_st_dir_inv.
  - reflexivity.
  - intros q r Hl. vm_compute in Hl. discriminate Hl.
  - exact E.
  - by exists st'.
Defined.

(** ** The statements that follow a worker through its run *)

(** C2 on a write whose canceller got its compare-and-swap in first: the
    worker's swap finds -1 and wakes it; the handle ends with the result
    16 and the error 0, and [__aio_fut] with 0. *)
Lemma cleanup_wakes_in_order_demo :
  exists st',
    cleanup 10%positive demo_cancel_env (shared demo_c1) = Some (tt, st') /\
    trace st' = trace (shared demo_c1) ++
      [EvStoreRet 1%positive 16; EvSwapRunning 10%positive (-1) 0;
       EvWake (W_running 10%positive); EvSwapErr 1%positive 115 0;
       EvSwapFut 1 0; EvWake W_fut;
       EvMutexLock 1%positive; EvUnlink 10%positive 1%positive;
       EvCondBroadcast 1%positive;
       EvMutexUnlock 1%positive; EvWrLock; EvMutexLock 1%positive;
       EvRwUnlock; EvMutexUnlock 1%positive; EvFree 1%positive;
       EvSigqueue 10 77 (-4)] /\
    __aio_fut st' = 0 /\
    exists w r,
      threads st' !! 10%positive = Some w /\ at_running w = 0 /\
      cbs st' !! 1%positive = Some r /\ __err r = 0 /\ __ret r = 16.
Proof.
  destruct (cleanup 10%positive demo_cancel_env (shared demo_c1))
    as [[[] st']|] eqn:E; [|vm_compute in E; discriminate E].
  exists st'. split; [reflexivity|].
  assert (forall k s, trace (demo_cancel_env k s) = trace s) as Htr.
  { intros [|k] s; reflexivity. }
  assert (forall k s w1, threads s !! 10%positive = Some w1 ->
     exists w2, threads (demo_cancel_env k s) !! 10%positive = Some w2 /\
       at_err w2 = at_err w1 /\
       (at_running w1 = 1 \/ at_running w1 = -1 \/ at_running w1 = 0 ->
        at_running w2 = 1 \/ at_running w2 = -1 \/ at_running w2 = 0))
    as Hrec.
  { intros [|k] s w1 Hw1.
    - exists (set_at_running (-1) w1). split.
      + unfold demo_cancel_env. simpl. by rewrite lookup_alter_eq, Hw1.
      + split; [reflexivity|]. intros _. right. left. reflexivity.
    - by exists w1. }
  destruct (cleanup_wakes_in_order 10%positive
              {| at_td := 100; at_cb := 1; at_next := None; at_prev := None;
                 at_q := 1; at_running := 1; at_err := 0; at_op := 1;
                 at_ret := 16 |}
              demo_cancel_env (shared demo_c1) st' Htr Hrec)
    as (r & o1 & o2 & o3 & unref & Hr & Ht & Hu & Hst);
    [vm_compute; reflexivity|left; reflexivity|exact E|].
  vm_compute in E. injection E as <-.
  split; [vm_compute; reflexivity|]. split; [reflexivity|].
  eexists _, _. split; [vm_compute; reflexivity|]. split; [reflexivity|].
  split; [vm_compute; reflexivity|]. split; reflexivity.
Defined.



(** C5 (as amended) on descriptor -5, on descriptor 5, which has no queue,
    on descriptor 3, which has one, and on descriptor 5 with the handle of
    another descriptor. *)
Lemma aio_cancel_without_queue_demo :
  (exists st', aio_cancel (-5) None demo_finish_env demo_st = Some (-1, st') /\
               errno st' = EBADF) /\
  (exists st', aio_cancel 5 None demo_finish_env demo_st
               = Some (AIO_ALLDONE, st') /\ errno st' = ENOENT) /\
  (exists r st', aio_cancel 3 None demo_finish_env (shared demo_c2)
                 = Some (r, st') /\
                 (r = AIO_ALLDONE \/ r = AIO_CANCELED) /\ r <> -1) /\
  (forall r st', aio_cancel 5 (Some 1%positive) demo_finish_env demo_st
                 = Some (r, st') ->
                 r = -1 -> errno st' <> EBADF).
Proof.
  assert (ENOENT <> EBADF) as Hne by discriminate.
  assert (EINVAL <> EBADF) as Hne' by discriminate.
  destruct (aio_cancel_without_queue (-5) None demo_finish_env demo_st Hne)
    as [Hneg _].
  destruct (aio_cancel_without_queue 5 None demo_finish_env demo_st Hne)
    as [Hpos _].
  destruct (Hneg I) as (Hneg' & _).
  destruct (Hpos I) as (_ & Hpos' & _).
  split; [|split; [|split]].
  - destruct Hneg' as (st' & Hrun & He & _); [lia|]. by exists st'.
  - destruct Hpos' as (st' & Hrun & _ & He & _); [lia|reflexivity|].
    by exists st'.
  - destruct (aio_cancel 3 None demo_finish_env (shared demo_c2))
      as [[r st']|] eqn:E; [|vm_compute in E; discriminate E].
    destruct (aio_cancel_without_queue 3 None demo_finish_env
                (shared demo_c2) Hne) as [Hq _].
    destruct (Hq I) as (_ & _ & Hq').
    exists r, st'. split; [reflexivity|]. apply (Hq' ltac:(lia) r st' E).
  - intros r st' Hrun Hr He.
    destruct (aio_cancel_without_queue 5 (Some 1%positive) demo_finish_env
                demo_st Hne) as [_ Honly].
    pose proof (Honly Hne' r st' Hrun Hr He). lia.
Defined.

(** C6 on a closed descriptor, on an open descriptor when memory has run
    out, and on a thread that cannot be created: for a descriptor that has
    a queue, and for one whose queue is created for the request and freed
    again. *)
Lemma submit_failure_stamps_handle_demo :
  (exists st' r,
     submit 3%positive LIO_READ true demo_idle demo_st = Some (-1, st') /\
     errno st' = EBADF /\ cbs st' !! 3%positive = Some r /\
     __err r = EBADF /\ __ret r = -1) /\
  (exists st' r,
     submit 5%positive LIO_READ true demo_idle demo_no_mem = Some (-1, st') /\
     errno st' = EAGAIN /\ cbs st' !! 5%positive = Some r /\
     __err r = EAGAIN /\ __ret r = -1) /\
  (exists st' r,
     submit 1%positive LIO_WRITE false demo_idle demo_st = Some (-1, st') /\
     errno st' = EAGAIN /\ cbs st' !! 1%positive = Some r /\
     __err r = EAGAIN /\ __ret r = -1 /\
     same_directory demo_st st') /\
  (exists st' r,
     submit 5%positive LIO_WRITE false demo_idle demo_st = Some (-1, st') /\
     errno st' = EAGAIN /\ cbs st' !! 5%positive = Some r /\
     __err r = EAGAIN /\ __ret r = -1 /\
     same_directory demo_st st').
Proof.
  split; [|split; [|split]].
  - edestruct (submit_failure_stamps_handle 3%positive
                 (demo_cb 7 2147483763) LIO_READ demo_idle demo_st)
      as [Hget _]; [reflexivity|].
    edestruct (Hget true) as (st' & Hrun & He & Hcb & _);
      [vm_compute; reflexivity|vm_compute; reflexivity|].
    eexists st', _. split; [exact Hrun|]. split; [exact He|].
    split; [exact Hcb|]. split; reflexivity.
  - edestruct (submit_failure_stamps_handle 5%positive
                 (demo_cb 8 115) LIO_READ demo_idle demo_no_mem)
      as [Hget _]; [reflexivity|].
    edestruct (Hget true) as (st' & Hrun & He & Hcb & _);
      [vm_compute; reflexivity|vm_compute; reflexivity|].
    eexists st', _. split; [exact Hrun|]. split; [exact He|].
    split; [exact Hcb|]. split; reflexivity.
  - edestruct (submit_failure_stamps_handle 1%positive
                 (demo_cb 3 115) LIO_WRITE demo_idle demo_st)
      as (_ & _ & Hspawn); [reflexivity|].
    edestruct Hspawn as (st' & Hrun & He & Hcb & Hs & _).
    + by intros p s.
    + reflexivity.
    + exact demo_st_dir_inv.
    + intros q0 r0 Hl Hr0. vm_compute in Hl. injection Hl as <-.
      vm_compute in Hr0. by injection Hr0 as <-.
    + vm_compute. reflexivity.
    + eexists st', _. split; [exact Hrun|]. split; [exact He|].
      split; [exact Hcb|]. split; [reflexivity|]. split; [reflexivity|].
      exact Hs.
  - edestruct (submit_failure_stamps_handle 5%positive
                 (demo_cb 8 115) LIO_WRITE demo_idle demo_st)
      as (_ & _ & Hspawn); [reflexivity|].
    edestruct Hspawn as (st' & Hrun & He & Hcb & Hs & _).
    + by intros p s.
    + reflexivity.
    + exact demo_st_dir_inv.
    + intros q0 r0 Hl. vm_compute in Hl. discriminate Hl.
    + vm_compute. reflexivity.
    + eexists st', _. split; [exact Hrun|]. split; [exact He|].
      split; [exact Hcb|]. split; [reflexivity|]. split; [reflexivity|].
      exact Hs.
Defined.

Lemma aio_cancel_is_selective_demo :
  exists st' evs visits pre post,
    aio_cancel 3 (Some 1%positive) demo_finish_env (shared demo_c2)
      = Some (AIO_CANCELED, st') /\
    trace st' = trace (shared demo_c2) ++ evs /\
    evs = pre ++ flat_map visit_events visits ++ post /\
    omap cancel_of evs = omap visit_cancels visits /\
    omap cancel_of evs <> [] /\
    Forall (fun v =>
              exists w, threads st' !! v.1.1 = Some w /\ at_td w = v.2 /\
                        at_cb w = 1%positive) visits.
Proof.
  destruct (aio_cancel 3 (Some 1%positive) demo_finish_env (shared demo_c2))
    as [[r st']|] eqn:E; [|vm_compute in E; discriminate E].
  assert (r = AIO_CANCELED) as ->.
  { vm_compute in E. by injection E as <- _. }
  destruct (aio_cancel_is_selective 3 (Some 1%positive) demo_finish_env
              AIO_CANCELED (shared demo_c2) st' demo_finish_env_keeps E)
    as (evs & visits & Ht & Ho & Hall & Hc & _ & pre & post & Hev & _).
  exists st', evs, visits, pre, post.
  split; [reflexivity|]. split; [exact Ht|]. split; [exact Hev|].
  split; [exact Ho|]. split; [by apply Hc|].
  eapply Forall_impl; [exact Hall|]. intros v (w & Hw & Htd & Hcb).
  exists w. split; [exact Hw|]. split; [exact Htd|]. by apply Hcb.
Defined.

(** An accepted submission during which the worker runs to its end: the
    reference is taken before the thread is created, and by the time
    [submit] returns the worker has published its result. *)
Lemma accepted_submit_takes_one_reference_demo :
  exists st' s r' rc,
    submit 1%positive LIO_WRITE true demo_worker_runs demo_st
      = Some (0, st') /\
    map_lookup (aio_map s) 3 = Some 1%positive /\
    queues s = <[1%positive := r']> (queues demo_st) /\
    q_ref r' = 2 /\ q_lock r' = false /\
    aio_fd_cnt s = aio_fd_cnt demo_st /\
    cbs st' !! 1%positive = Some rc /\ __ret rc = 16 /\ __err rc = 0.
Proof.
  destruct (submit 1%positive LIO_WRITE true demo_worker_runs demo_st)
    as [[r st']|] eqn:E; [|vm_compute in E; discriminate E].
  assert (r = 0) as ->.
  { vm_compute in E. by injection E as <- _. }
  destruct (accepted_submit_takes_one_reference 1%positive LIO_WRITE true
              demo_worker_runs (demo_cb 3 115) demo_st st')
    as (q & r' & s & at0 & _ & _ & Hl & _ & Hq & Hlock & Hcase).
  - by intros s.
  - by intros s.
  - reflexivity.
  - exact E.
  - destruct Hcase as [(r0 & Hl0 & Hr0 & Hr' & Hc)|(Hl0 & _)];
      [|vm_compute in Hl0; discriminate Hl0].
    vm_compute in Hl0. injection Hl0 as <-.
    vm_compute in Hr0. injection Hr0 as <-.
    vm_compute in E. injection E as <-.
    eexists _, s, r', _. split; [reflexivity|]. split; [exact Hl|].
    split; [exact Hq|]. split; [by rewrite Hr'|]. split; [exact Hlock|].
    split; [exact Hc|]. split; [vm_compute; reflexivity|].
    split; reflexivity.
Defined.
